(** * TEPCO rate scraper ([scrape_tepco.py]): a shallow embedding and its properties

    The Python module is embedded function by function.  Python values are
    modelled as follows.

    - [str] is a sequence of Unicode code points ([list Z]); literals of the
      source are written [py "..."], the UTF-8 decoding of a Rocq string.
    - [int] is [Z].
    - [float] is the exact rational ([Q], kept in lowest terms) that Python
      rounds to binary64.  Two floats obtained by rounding the same rational
      are the same float, so an equation between models is an equation between
      the floats.  The two places where rounding itself is observable are made
      explicit: truthiness of a float ([float_truthy]) and the arithmetic of
      [get_standard_s_constants], whose operands are all exactly
      representable ([binary64_exact]).  A rational beyond the range of
      binary64 stands for [inf], and the sign of a zero is not kept.
    - an exception that may leave a function is [Raise e] in [result].
    - the tables of the Unicode database that the interpreter consults
      (decimal digits, white space, NFKC) are the class [UnicodeData].
    - a dict with fixed keys is a record, a dict filled in a loop an
      association list in insertion order.

    The collaborators are inputs: the parsed page is a tree ([node]), the
    HTTP client and the PDF reader are the record [web], the output file is
    the class [OutputFile], today's date is an argument.  Fetching and
    parsing the page and reading the command line come before what is
    embedded and are left out, and so are the [print] calls: the console is
    taken to accept what is printed. *)

From Stdlib Require Import ZArith QArith Qabs List String Ascii Bool Lia.
From Stdlib Require DecimalString.
Import ListNotations.

Local Open Scope Z_scope.

(* ================================================================= *)
(** ** Strings *)

Definition str := list Z.

Definition bytes_of_string (s : string) : list Z :=
  map (fun a => Z.of_N (N_of_ascii a)) (list_ascii_of_string s).

(** UTF-8 decoding of a well-formed byte sequence (used for literals only). *)
Fixpoint utf8_decode (bs : list Z) : str :=
  match bs with
  | [] => []
  | b :: r =>
      if b <? 128 then b :: utf8_decode r
      else if b <? 224 then
        match r with
        | b1 :: r1 => ((b - 192) * 64 + (b1 - 128)) :: utf8_decode r1
        | _ => []
        end
      else if b <? 240 then
        match r with
        | b1 :: b2 :: r2 =>
            ((b - 224) * 4096 + (b1 - 128) * 64 + (b2 - 128)) :: utf8_decode r2
        | _ => []
        end
      else
        match r with
        | b1 :: b2 :: b3 :: r3 =>
            ((b - 240) * 262144 + (b1 - 128) * 4096 + (b2 - 128) * 64 + (b3 - 128))
              :: utf8_decode r3
        | _ => []
        end
  end.

Definition py (s : string) : str := utf8_decode (bytes_of_string s).

Fixpoint str_eqb (a b : str) : bool :=
  match a, b with
  | [], [] => true
  | x :: a', y :: b' => (x =? y) && str_eqb a' b'
  | _, _ => false
  end.

Fixpoint startswith (prefix s : str) : bool :=
  match prefix, s with
  | [], _ => true
  | p :: prefix', c :: s' => (p =? c) && startswith prefix' s'
  | _ :: _, [] => false
  end.

(** [needle in hay] *)
Fixpoint str_in (needle hay : str) : bool :=
  startswith needle hay
  || match hay with
     | [] => false
     | _ :: hay' => str_in needle hay'
     end.

(** [s.split(sep)] for a one-character separator. *)
Fixpoint str_split (sep : Z) (s : str) : list str :=
  match s with
  | [] => [[]]
  | c :: s' =>
      if c =? sep then [] :: str_split sep s'
      else match str_split sep s' with
           | [] => [[c]]
           | w :: ws => (c :: w) :: ws
           end
  end.

(** [str(n)] for an [int]. *)
Definition str_of_int (n : Z) : str :=
  bytes_of_string (DecimalString.NilZero.string_of_int (Z.to_int n)).

(** [format(n, "0{w}d")]: sign first, then zeros up to width [w]. *)
Definition zero_pad (w : nat) (n : Z) : str :=
  let digits := str_of_int (Z.abs n) in
  let sign := if n <? 0 then [45] else [] in
  let fill := (w - List.length sign - List.length digits)%nat in
  sign ++ repeat 48 fill ++ digits.

(* ================================================================= *)
(** ** Exceptions *)

Inductive exn : Type :=
| ValueError (msg : string)
| AttributeError (msg : string)
| OtherException (name : string).

Inductive result (A : Type) : Type :=
| Ok (a : A)
| Raise (e : exn).

Arguments Ok {A} a.
Arguments Raise {A} e.

Definition bind {A B : Type} (c : result A) (k : A -> result B) : result B :=
  match c with
  | Ok a => k a
  | Raise e => Raise e
  end.

Declare Scope py_scope.
Delimit Scope py_scope with py.
Notation "x <- c ;; k" := (bind c (fun x => k))
  (at level 61, c at next level, right associativity) : py_scope.
Notation "' pat <- c ;; k" := (bind c (fun x => match x with pat => k end))
  (at level 61, pat pattern, c at next level, right associativity) : py_scope.

(** [try: body  except Exception: handler]; every [exn] of the model derives
    from [Exception]. *)
Definition try_except {A : Type} (body : result A) (handler : exn -> result A)
  : result A :=
  match body with
  | Ok a => Ok a
  | Raise e => handler e
  end.

Definition raises {A : Type} (r : result A) : bool :=
  match r with
  | Ok _ => false
  | Raise _ => true
  end.

(* ================================================================= *)
(** ** The Unicode database *)

(** What the interpreter looks up in its Unicode tables for code points
    outside ASCII.  The laws are facts of every Unicode version: decimal
    digits have a value in 0..9 and are not white space; the block of CJK
    unified ideographs (U+4E00..U+9FFF) holds letters only; ASCII and CJK
    unified ideographs are inert under NFKC. *)
Class UnicodeData : Type := {
  unicode_decimal : Z -> option Z;
  unicode_space : Z -> bool;
  nfkc : str -> str;
  unicode_decimal_range :
    forall c v, unicode_decimal c = Some v -> 0 <= v <= 9;
  unicode_decimal_not_space :
    forall c v, unicode_decimal c = Some v -> unicode_space c = false;
  ideograph_not_decimal :
    forall c, 19968 <= c <= 40959 -> unicode_decimal c = None;
  nfkc_inert :
    forall s,
      forallb (fun c => ((0 <=? c) && (c <? 128))
                        || ((19968 <=? c) && (c <=? 40959))) s = true ->
      nfkc s = s
}.

(* ================================================================= *)
(** ** Regular expressions ([re])

    The fragment of [re] syntax that the module uses, matched by
    backtracking with a continuation, leftmost alternative first, as [re]
    does.  Stars range over one-character classes, which is all the source
    writes ([.*?], [\d+]). *)

Inductive regex : Type :=
| Eps                            (* the empty pattern *)
| Chr (c : Z)                    (* a literal character *)
| Cls (p : Z -> bool)            (* a character class *)
| Cat (r1 r2 : regex)            (* r1 r2 *)
| Star (p : Z -> bool)           (* p*   greedy *)
| StarLazy (p : Z -> bool)       (* p*?  *)
| Opt (r : regex)                (* r?   greedy *)
| Group (n : nat) (r : regex).   (* capturing group number n *)

Definition captures := list (nat * str).

Fixpoint star_greedy (p : Z -> bool) (s : str) (k : str -> option captures)
  : option captures :=
  match s with
  | c :: s' =>
      if p c then
        match star_greedy p s' k with
        | Some m => Some m
        | None => k s
        end
      else k s
  | [] => k []
  end.

Fixpoint star_lazy (p : Z -> bool) (s : str) (k : str -> option captures)
  : option captures :=
  match k s with
  | Some m => Some m
  | None =>
      match s with
      | c :: s' => if p c then star_lazy p s' k else None
      | [] => None
      end
  end.

Fixpoint match_at (r : regex) (s : str) (caps : captures)
  (k : str -> captures -> option captures) : option captures :=
  match r with
  | Eps => k s caps
  | Chr c =>
      match s with
      | x :: s' => if x =? c then k s' caps else None
      | [] => None
      end
  | Cls p =>
      match s with
      | x :: s' => if p x then k s' caps else None
      | [] => None
      end
  | Cat r1 r2 => match_at r1 s caps (fun s1 caps1 => match_at r2 s1 caps1 k)
  | Star p => star_greedy p s (fun s' => k s' caps)
  | StarLazy p => star_lazy p s (fun s' => k s' caps)
  | Opt r1 =>
      match match_at r1 s caps k with
      | Some m => Some m
      | None => k s caps
      end
  | Group n r1 =>
      match_at r1 s caps
        (fun s' caps' =>
           k s' ((n, firstn (List.length s - List.length s') s) :: caps'))
  end.

(** [re.search(r, s)]: the match at the leftmost position that has one. *)
Fixpoint re_search (r : regex) (s : str) : option captures :=
  match match_at r s [] (fun _ caps => Some caps) with
  | Some m => Some m
  | None =>
      match s with
      | [] => None
      | _ :: s' => re_search r s'
      end
  end.

(** [m.group(n)]; [None] for a group that took no part in the match. *)
Fixpoint group (n : nat) (m : captures) : option str :=
  match m with
  | [] => None
  | (i, g) :: m' => if Nat.eqb i n then Some g else group n m'
  end.

(** A literal string. *)
Fixpoint lit (s : str) : regex :=
  match s with
  | [] => Eps
  | [c] => Chr c
  | c :: s' => Cat (Chr c) (lit s')
  end.

(** [re.sub(p, repl, s)] for a pattern [p] that is one character class. *)
Definition re_sub_class (p : Z -> bool) (repl s : str) : str :=
  flat_map (fun c => if p c then repl else [c]) s.

(* ================================================================= *)
(** ** Documents ([bs4])

    A parsed document is a tree of tags and strings.  Of a tag's attributes
    only [id] and the list of its CSS classes are looked at.  An element that
    a search returns comes with its chain of parents, nearest first. *)

#[warnings="-register-all"]
Inductive node : Type :=
| NavigableString (text : str)
| Tag (name : str) (id : option str) (classes : list str) (contents : list node).

Definition element : Type := node * list node.

(** [tag.text] *)
Fixpoint text_of (n : node) : str :=
  match n with
  | NavigableString t => t
  | Tag _ _ _ cs => flat_map text_of cs
  end.

(** The elements below [n], in document order, with their parents. *)
Fixpoint descendants (parents : list node) (n : node) : list element :=
  match n with
  | NavigableString _ => []
  | Tag _ _ _ cs =>
      flat_map (fun c => (c, n :: parents) :: descendants (n :: parents) c) cs
  end.

Definition has_name (name : str) (n : node) : bool :=
  match n with
  | NavigableString _ => false
  | Tag nm _ _ _ => str_eqb nm name
  end.

Definition has_id (v : str) (n : node) : bool :=
  match n with
  | Tag _ (Some i) _ _ => str_eqb i v
  | _ => false
  end.

Definition has_class (v : str) (n : node) : bool :=
  match n with
  | Tag _ _ cls _ => existsb (str_eqb v) cls
  | NavigableString _ => false
  end.

(** [e.find_all(name)] *)
Definition find_all (name : str) (e : element) : list element :=
  filter (fun d => has_name name (fst d)) (descendants (snd e) (fst e)).

(** [e.find(name)] *)
Definition find_tag (name : str) (e : element) : option element :=
  hd_error (find_all name e).

(** [e.find(name, id=v)] *)
Definition find_by_id (name v : str) (e : element) : option element :=
  hd_error (filter (fun d => has_name name (fst d) && has_id v (fst d))
              (descendants (snd e) (fst e))).

(** [parents.find_parent(name, class_=v)] along a chain of parents. *)
Fixpoint find_parent_in (name v : str) (parents : list node) : option element :=
  match parents with
  | [] => None
  | p :: up =>
      if has_name name p && has_class v p then Some (p, up)
      else find_parent_in name v up
  end.

(** [e.find_parent(name, class_=v)] *)
Definition find_parent (name v : str) (e : element) : option element :=
  find_parent_in name v (snd e).

(* ================================================================= *)
(** ** Numbers *)

Section Runtime.

Context {U : UnicodeData}.

(** [Py_UNICODE_TODECIMAL]: the digit value of a character of category Nd. *)
Definition digit_value (c : Z) : option Z :=
  if (0 <=? c) && (c <? 128) then
    if (48 <=? c) && (c <=? 57) then Some (c - 48) else None
  else unicode_decimal c.

(** [\d] *)
Definition is_decimal (c : Z) : bool :=
  match digit_value c with
  | Some _ => true
  | None => false
  end.

(** White space that [int] skips at both ends of its argument. *)
Definition int_space (c : Z) : bool :=
  if (0 <=? c) && (c <? 128) then ((9 <=? c) && (c <=? 13)) || (c =? 32)
  else unicode_space c.

Fixpoint lstrip (p : Z -> bool) (s : str) : str :=
  match s with
  | c :: s' => if p c then lstrip p s' else s
  | [] => []
  end.

Definition strip (p : Z -> bool) (s : str) : str :=
  List.rev (lstrip p (List.rev (lstrip p s))).

(** Digits with single underscores between them. *)
Fixpoint int_digits (acc : Z) (after_digit : bool) (s : str) : option Z :=
  match s with
  | [] => if after_digit then Some acc else None
  | c :: s' =>
      if c =? 95 then
        if after_digit then int_digits acc false s' else None
      else
        match digit_value c with
        | Some v => int_digits (10 * acc + v) true s'
        | None => None
        end
  end.

(** The run of digits and underscores at the head of [s], and what follows
    it. *)
Fixpoint numeral_run (s : str) : str * str :=
  match s with
  | c :: s' =>
      if (c =? 95) || is_decimal c then
        let (run, rest) := numeral_run s' in (c :: run, rest)
      else ([], s)
  | [] => ([], [])
  end.

(** [sys.get_int_max_str_digits()], at its default. *)
Definition int_max_str_digits : Z := 4300.

Definition invalid_literal : exn :=
  ValueError "invalid literal for int() with base 10".

(** [int(s)] for a [str] argument, base 10: white space at both ends, a
    sign, then a numeral no longer than the interpreter allows and nothing
    after it. *)
Definition py_int (s : str) : result Z :=
  let body := strip int_space s in
  let '(negative, numeral) :=
    match body with
    | 43 :: ds => (false, ds)
    | 45 :: ds => (true, ds)
    | ds => (false, ds)
    end in
  let (run, rest) := numeral_run numeral in
  match int_digits 0 false run with
  | None => Raise invalid_literal
  | Some n =>
      if int_max_str_digits
         <? Z.of_nat (List.length (filter (fun c => negb (c =? 95)) run))
      then Raise (ValueError "Exceeds the limit (4300 digits) for integer string conversion")
      else
        match rest with
        | [] => Ok (if negative then - n else n)
        | _ :: _ => Raise invalid_literal
        end
  end.

(** [int(m.group(n))]; [int(None)] is a [TypeError]. *)
Definition int_of_group (g : option str) : result Z :=
  match g with
  | Some s => py_int s
  | None => Raise (OtherException "TypeError")
  end.

(** The value of a run of decimal digits. *)
Fixpoint digits_value (acc : Z) (s : str) : option Z :=
  match s with
  | [] => Some acc
  | c :: s' =>
      match digit_value c with
      | Some v => digits_value (10 * acc + v) s'
      | None => None
      end
  end.

Definition float_error : exn := ValueError "could not convert string to float".

(** [float(s)] on the strings the module passes to it, which hold decimal
    digits and full stops only: digits, at most one full stop, at least one
    digit.  (Signs, exponents, underscores, surrounding white space and the
    words [inf] and [nan], which [float] also reads, cannot occur there.) *)
Definition py_float (s : str) : result Q :=
  match str_split 46 s with
  | [ip] =>
      match ip, digits_value 0 ip with
      | _ :: _, Some n => Ok (n # 1)
      | _, _ => Raise float_error
      end
  | [ip; fp] =>
      match ip ++ fp, digits_value 0 (ip ++ fp) with
      | _ :: _, Some n =>
          Ok (Qred (n # Z.to_pos (10 ^ Z.of_nat (List.length fp))))
      | _, _ => Raise float_error
      end
  | _ => Raise float_error
  end.

(** A float literal of the source, such as [3.49]. *)
Definition float_lit (x : Q) : Q := Qred x.

(** [bool(x)] for a float: false exactly when [x] rounds to zero, that is
    when its magnitude is at most half the least subnormal, 2^-1075. *)
Definition float_truthy (x : Q) : bool :=
  negb (Qle_bool (Qabs x) (1 # (2 ^ 1075))).

(** [round(x, 2)] for a float [x]: the nearest multiple of 1/100 of the exact
    value of [x], ties to the even one.  It agrees with [round] where the
    argument and the result are floats given by their exact values, those
    that [binary64_exact] accepts; of a decimal literal that binary64 only
    approximates, such as 2.675, [round] sees the approximation. *)
Definition round_half_even (x : Q) : Z :=
  let n := Qnum x in
  let d := Zpos (Qden x) in
  let q := n / d in
  let r := n mod d in
  if 2 * r <? d then q
  else if d <? 2 * r then q + 1
  else if Z.even q then q else q + 1.

Definition py_round2 (x : Q) : Q := Qred (round_half_even (x * 100) # 100).

(** A rational that binary64 holds exactly: in lowest terms, a numerator of
    magnitude below 2^53 over a power of two below 2^1000, which is inside
    the range of normal numbers. *)
Definition binary64_exact (x : Q) : bool :=
  let x := Qred x in
  (Z.abs (Qnum x) <? 2 ^ 53)
  && (Zpos (Qden x) =? 2 ^ Z.log2 (Zpos (Qden x)))
  && (Z.log2 (Zpos (Qden x)) <? 1000).

(* ================================================================= *)
(** ** [parse_price], [parse_year], [parse_month] *)

(** [[^0-9.]] *)
Definition not_digit_or_dot (c : Z) : bool :=
  negb (((48 <=? c) && (c <=? 57)) || (c =? 46)).

Definition parse_price (text : str) : result Q :=
  let is_negative := str_in (py "▲") text in
  let amount_str := re_sub_class not_digit_or_dot [] text in
  match amount_str with
  | [] => Ok 0%Q
  | _ :: _ =>
      (amount <- py_float amount_str ;;
       Ok (if is_negative then Qopp amount else amount))%py
  end.

(** [\d] as a regex. *)
Definition digit : regex := Cls is_decimal.

(** [(\d{4})] *)
Definition year_re : regex := Group 1 (Cat digit (Cat digit (Cat digit digit))).

(** [(\d{1,2})] *)
Definition month_re : regex := Group 1 (Cat digit (Opt digit)).

Definition parse_year (text : str) : result (option Z) :=
  match re_search year_re text with
  | Some m => (n <- int_of_group (group 1 m) ;; Ok (Some n))%py
  | None => Ok None
  end.

Definition parse_month (text : str) : result (option Z) :=
  match re_search month_re text with
  | Some m => (n <- int_of_group (group 1 m) ;; Ok (Some n))%py
  | None => Ok None
  end.

(* ================================================================= *)
(** ** [get_standard_s_constants] *)

Record usage_rate : Type := {
  band_min : Z;
  band_max : option Z;
  band_price : Q
}.

Record standard_s : Type := {
  base_rate_per_10a : Q;
  base_rates : list (str * Q);
  usage_rates : list usage_rate
}.

(** [range(start, stop, step)] for a positive step, by counting down the
    number of values left. *)
Fixpoint range_from (start step : Z) (count : nat) : list Z :=
  match count with
  | O => []
  | S n => start :: range_from (start + step) step n
  end.

Definition py_range (start stop step : Z) : list Z :=
  range_from start step (Z.to_nat ((stop - start + step - 1) / step)).

(** [d[key] = v] on a dict, which keeps insertion order. *)
Fixpoint dict_set (key : str) (v : Q) (d : list (str * Q)) : list (str * Q) :=
  match d with
  | [] => [(key, v)]
  | (k, w) :: d' =>
      if str_eqb k key then (k, v) :: d' else (k, w) :: dict_set key v d'
  end.

(** [d.get(key)] *)
Fixpoint dict_get (key : str) (d : list (str * Q)) : option Q :=
  match d with
  | [] => None
  | (k, w) :: d' => if str_eqb k key then Some w else dict_get key d'
  end.

Definition unit_price_10a : Q := float_lit 311.75.

(** The body of the loop: [base_rates[f"{ampere}A"] = round(unit * (ampere / 10), 2)]. *)
Definition base_rate (ampere : Z) : Q :=
  py_round2 (unit_price_10a * (ampere # 10)).

Definition get_standard_s_constants : standard_s :=
  let base_rates :=
    fold_left
      (fun d ampere => dict_set (str_of_int ampere ++ py "A") (base_rate ampere) d)
      (py_range 10 61 10) [] in
  {| base_rate_per_10a := unit_price_10a;
     base_rates := base_rates;
     usage_rates :=
       [ {| band_min := 0; band_max := Some 120; band_price := float_lit 29.80 |};
         {| band_min := 121; band_max := Some 300; band_price := float_lit 36.40 |};
         {| band_min := 301; band_max := None; band_price := float_lit 40.49 |} ] |}.

(* ================================================================= *)
(** ** [check_renewable_energy_pdf], [get_renewable_energy_levy] *)

(** The collaborators of the levy resolver: the HTTP client and the PDF
    reader.  Either may raise. *)
Record response : Type := {
  status_code : Z;
  content : list Z
}.

Record web : Type := {
  (** [requests.get(url, timeout=10)] *)
  requests_get : str -> result response;
  (** [PdfReader(f).pages], each page with the outcome of [extract_text()] *)
  pdf_pages : list Z -> result (list (result str))
}.

Record levy : Type := {
  start : str;
  end_ : str;
  price : Q
}.

(** [.] of a regex: any character but a newline. *)
Definition any_char (c : Z) : bool := negb (c =? 10).

(** [\d+] *)
Definition digits1 : regex := Cat digit (Star is_decimal).

(** [単価.*?(\d+(\.\d+)?)円] *)
Definition unit_price_re : regex :=
  Cat (lit (py "単価"))
    (Cat (StarLazy any_char)
       (Cat (Group 1 (Cat digits1 (Opt (Group 2 (Cat (Chr 46) digits1)))))
          (lit (py "円")))).

(** [賦課金.*?(\d+\.\d+)円] *)
Definition levy_re : regex :=
  Cat (lit (py "賦課金"))
    (Cat (StarLazy any_char)
       (Cat (Group 1 (Cat digits1 (Cat (Chr 46) digits1)))
          (lit (py "円")))).

(** [float(m.group(n))] *)
Definition float_of_group (g : option str) : result Q :=
  match g with
  | Some s => py_float s
  | None => Raise (OtherException "TypeError")
  end.

(** [text += page.extract_text()] over the pages. *)
Fixpoint extract_pages (text : str) (pages : list (result str)) : result str :=
  match pages with
  | [] => Ok text
  | page :: rest => (t <- page ;; extract_pages (text ++ t) rest)%py
  end.

Definition pdf_url (year : Z) : str :=
  py "https://www.tepco.co.jp/ep/renewable_energy/institution/pdf/"
  ++ str_of_int year ++ py "0501.pdf".

Definition check_renewable_energy_pdf (W : web) (year : Z) : result (option Q) :=
  let url := pdf_url year in
  try_except
    (response <- requests_get W url ;;
     if status_code response =? 200 then
       pages <- pdf_pages W (content response) ;;
       text <- extract_pages [] pages ;;
       let text := nfkc text in
       let text := filter (fun c => negb (c =? 10)) text in
       let m :=
         match re_search unit_price_re text with
         | Some m => Some m
         | None => re_search levy_re text
         end in
       match m with
       | Some m => (price <- float_of_group (group 1 m) ;; Ok (Some price))
       | None => Ok None
       end
     else Ok None)%py
    (fun _ => Ok None).

Definition levies_hardcoded : list levy :=
  [ {| start := py "2024-05"; end_ := py "2025-04"; price := float_lit 3.49 |};
    {| start := py "2025-05"; end_ := py "2026-05"; price := float_lit 3.98 |} ].

Definition years_to_check : list Z := [2026; 2027].

(** One turn of the loop over [years_to_check].  [if price:] holds for a
    price that is a float and not zero. *)
Definition check_year (W : web) (levies : list levy) (year : Z)
  : result (list levy) :=
  let already_has :=
    existsb (fun l => str_eqb (start l) (str_of_int year ++ py "-05")) levies in
  if already_has then Ok levies
  else
    (p <- check_renewable_energy_pdf W year ;;
     match p with
     | Some x =>
         if float_truthy x then
           Ok (levies ++ [ {| start := str_of_int year ++ py "-05";
                              end_ := str_of_int (year + 1) ++ py "-05";
                              price := x |} ])
         else Ok levies
     | None => Ok levies
     end)%py.

Fixpoint check_years (W : web) (levies : list levy) (years : list Z)
  : result (list levy) :=
  match years with
  | [] => Ok levies
  | year :: rest => (l <- check_year W levies year ;; check_years W l rest)%py
  end.

(** [datetime.datetime.now().year] is read into a variable that nothing
    uses, so the clock is no input here. *)
Definition get_renewable_energy_levy (W : web) (should_scrape_pdf : bool)
  : result (list levy) :=
  let levies := levies_hardcoded in
  if negb should_scrape_pdf then Ok levies
  else check_years W levies years_to_check.

(* ================================================================= *)
(** ** [scrape_tepco_rates] *)

Record entry : Type := {
  year : Z;
  month : Z;
  date_iso : str;
  price_kwh : Q;
  area : str;
  type_ : str
}.

Definition section_error : exn :=
  ValueError "Could not find the 'Fuel cost adjustment unit price (Low voltage)' section.".

Definition table_error : exn :=
  ValueError "Could not find the price table.".

Definition none_find_parent : exn :=
  AttributeError "'NoneType' object has no attribute 'find_parent'".

(** The search for [target_div]: by [id], then through the first link whose
    text names the section. *)
Definition find_target_div (soup : element) : result (option element) :=
  match find_by_id (py "div") (py "anker01") soup with
  | Some d => Ok (Some d)
  | None =>
      match find (fun a => str_in (py "燃料費調整単価（低圧）") (text_of (fst a)))
              (find_all (py "a") soup) with
      | Some a =>
          match find_parent (py "div") (py "question") a with
          | Some q => Ok (find_parent (py "div") (py "faq-element") q)
          | None => Raise none_find_parent
          end
      | None => Ok None
      end
  end.

(** A row is the list of the texts of its [td] cells. *)
Definition row : Type := list str.

Definition is_header (row_text : str) : bool :=
  str_in (py "適用年月") row_text
  || str_in (py "燃料費調整単価") row_text
  || str_in (py "円/kWh") row_text.

(** [if x:] for an [int] that may be [None]. *)
Definition int_truthy (x : option Z) : bool :=
  match x with
  | Some n => negb (n =? 0)
  | None => false
  end.

Definition cell (cols : row) (i : nat) : str := nth i cols [].

(** The tail of the loop body: [if current_year and month: ...]. *)
Definition emit (cols : row) (current_year month : option Z) (price_col_index : nat)
  : result (option entry) :=
  match current_year, month with
  | Some y, Some m =>
      if int_truthy current_year && int_truthy month then
        (price <- parse_price (cell cols price_col_index) ;;
         Ok (Some {| year := y;
                     month := m;
                     date_iso := str_of_int y ++ py "-" ++ zero_pad 2 m ++ py "-01";
                     price_kwh := price;
                     area := py "Kanto";
                     type_ := py "Low Voltage (Standard S)" |}))%py
      else Ok None
  | _, _ => Ok None
  end.

(** The loop body: the new [current_year] and the entry appended, if any. *)
Definition process_row (current_year : option Z) (cols : row)
  : result (option Z * option entry) :=
  match cols with
  | [] => Ok (current_year, None)
  | _ :: _ =>
      let row_text := List.concat cols in
      if is_header row_text then Ok (current_year, None)
      else if (List.length cols =? 4)%nat then
        (current_year <- parse_year (cell cols 0) ;;
         month <- parse_month (cell cols 1) ;;
         e <- emit cols current_year month 3 ;;
         Ok (current_year, e))%py
      else if (List.length cols =? 3)%nat then
        (month <- parse_month (cell cols 0) ;;
         e <- emit cols current_year month 2 ;;
         Ok (current_year, e))%py
      else Ok (current_year, None)
  end.

Definition append_entry (l : list entry) (e : option entry) : list entry :=
  match e with
  | Some x => l ++ [x]
  | None => l
  end.

(** [for row in rows: ...] with its two variables. *)
Fixpoint rows_loop (rows : list row) (current_year : option Z)
  (fuel_adjustments : list entry) : result (list entry) :=
  match rows with
  | [] => Ok fuel_adjustments
  | cols :: rest =>
      ('(current_year, e) <- process_row current_year cols ;;
       rows_loop rest current_year (append_entry fuel_adjustments e))%py
  end.

Definition scrape_rows (rows : list row) : result (list entry) :=
  rows_loop rows None [].

(** [[[c.text for c in row.find_all('td')] for row in table.find_all('tr')]] *)
Definition table_rows (table : element) : list row :=
  map (fun r => map (fun c => text_of (fst c)) (find_all (py "td") r))
    (find_all (py "tr") table).

(** [scrape_tepco_rates] from the parsed document on. *)
Definition scrape_tepco_rates (soup : node) : result (list entry) :=
  (target_div <- find_target_div (soup, []) ;;
   match target_div with
   | None => Raise section_error
   | Some target_div =>
       match find_tag (py "table") target_div with
       | None => Raise table_error
       | Some table => scrape_rows (table_rows table)
       end
   end)%py.

(* ================================================================= *)
(** ** [get_current_rates] *)

Record date : Type := {
  date_year : Z;
  date_month : Z;
  date_day : Z
}.

(** [today.isoformat()] *)
Definition isoformat (d : date) : str :=
  zero_pad 4 (date_year d) ++ py "-" ++ zero_pad 2 (date_month d)
  ++ py "-" ++ zero_pad 2 (date_day d).

Record current_rates : Type := {
  rates_year : Z;
  rates_month : Z;
  rates_date_iso : str;
  fuel_adjustment : option Q;
  renewable_energy_levy : option Q
}.

(** [a, b = map(int, parts)] *)
Definition unpack_two_ints (parts : list str) : result (Z * Z) :=
  match parts with
  | [] => Raise (ValueError "not enough values to unpack (expected 2, got 0)")
  | [a] =>
      (_ <- py_int a ;;
       Raise (ValueError "not enough values to unpack (expected 2, got 1)"))%py
  | [a; b] => (x <- py_int a ;; y <- py_int b ;; Ok (x, y))%py
  | a :: b :: c :: _ =>
      (_ <- py_int a ;; _ <- py_int b ;; _ <- py_int c ;;
       Raise (ValueError "too many values to unpack (expected 2)"))%py
  end.

(** [map(int, s.split('-'))] unpacked into year and month. *)
Definition parse_year_month (s : str) : result (Z * Z) :=
  unpack_two_ints (str_split 45 s).

(** The loop over [levy_data], which stops at the first period in range. *)
Fixpoint levy_loop (curr_val : Z) (levy_data : list levy) : result (option Q) :=
  match levy_data with
  | [] => Ok None
  | entry :: rest =>
      ('(start_y, start_m) <- parse_year_month (start entry) ;;
       '(end_y, end_m) <- parse_year_month (end_ entry) ;;
       let start_val := start_y * 100 + start_m in
       let end_val := end_y * 100 + end_m in
       if (start_val <=? curr_val) && (curr_val <=? end_val)
       then Ok (Some (price entry))
       else levy_loop curr_val rest)%py
  end.

(** [get_current_rates], with [datetime.date.today()] as an argument. *)
Definition get_current_rates (today : date) (fuel_data : list entry)
  (levy_data : list levy) : result current_rates :=
  let current_year := date_year today in
  let current_month := date_month today in
  let fuel_adj :=
    find (fun entry => (year entry =? current_year) && (month entry =? current_month))
      fuel_data in
  (levy_val <- levy_loop (current_year * 100 + current_month) levy_data ;;
   Ok {| rates_year := current_year;
         rates_month := current_month;
         rates_date_iso := isoformat today;
         fuel_adjustment := option_map price_kwh fuel_adj;
         renewable_energy_levy := levy_val |})%py.

(* ================================================================= *)
(** ** [main] *)

Record report : Type := {
  report_current_rates : current_rates;
  report_fuel_adjustment : list entry;
  report_standard_s : standard_s;
  report_renewable_energy_levy : list levy
}.

(** [with open(OUTPUT_FILE, 'w', encoding='utf-8') as f: json.dump(data, f, ...)]:
    the file system that the run writes to.  Opening the file and writing to
    it may raise ([OSError]). *)
Class OutputFile : Type := {
  json_dump : report -> result unit
}.

Context {F : OutputFile}.

(** What a run leaves behind: the report written to the output file, or
    exit status 1. *)
Inductive outcome : Type :=
| Written (data : report)
| Exit1 (e : exn).

(** [main] from the parsed document on.  Every step stands in the one
    [try], whose handler ends the run with status 1.  What the run prints is
    left out: the console is taken to accept it. *)
Definition main (W : web) (today : date) (soup : node) (scrape_pdf : bool)
  : outcome :=
  let run :=
    (fuel_data <- scrape_tepco_rates soup ;;
     levy_data <- get_renewable_energy_levy W scrape_pdf ;;
     rates <- get_current_rates today fuel_data levy_data ;;
     let data := {| report_current_rates := rates;
                    report_fuel_adjustment := fuel_data;
                    report_standard_s := get_standard_s_constants;
                    report_renewable_energy_levy := levy_data |} in
     _ <- json_dump data ;;
     Ok data)%py in
  match run with
  | Ok data => Written data
  | Raise e => Exit1 e
  end.

End Runtime.

(* ================================================================= *)
(** ** A reference Unicode database *)

(** Blocks of decimal digits outside ASCII (category Nd of Unicode 14.0, the
    tables of CPython 3.11): first code point and length; the digit values
    run 0..9 from the start of a block, cyclically. *)
Definition nd_blocks : list (Z * Z) :=
  [ (0x660, 10); (0x6f0, 10); (0x7c0, 10); (0x966, 10); (0x9e6, 10);
    (0xa66, 10); (0xae6, 10); (0xb66, 10); (0xbe6, 10); (0xc66, 10);
    (0xce6, 10); (0xd66, 10); (0xde6, 10); (0xe50, 10); (0xed0, 10);
    (0xf20, 10); (0x1040, 10); (0x1090, 10); (0x17e0, 10); (0x1810, 10);
    (0x1946, 10); (0x19d0, 10); (0x1a80, 10); (0x1a90, 10); (0x1b50, 10);
    (0x1bb0, 10); (0x1c40, 10); (0x1c50, 10); (0xa620, 10); (0xa8d0, 10);
    (0xa900, 10); (0xa9d0, 10); (0xa9f0, 10); (0xaa50, 10); (0xabf0, 10);
    (0xff10, 10); (0x104a0, 10); (0x10d30, 10); (0x11066, 10); (0x110f0, 10);
    (0x11136, 10); (0x111d0, 10); (0x112f0, 10); (0x11450, 10); (0x114d0, 10);
    (0x11650, 10); (0x116c0, 10); (0x11730, 10); (0x118e0, 10); (0x11950, 10);
    (0x11c50, 10); (0x11d50, 10); (0x11da0, 10); (0x16a60, 10); (0x16ac0, 10);
    (0x16b50, 10); (0x1d7ce, 50); (0x1e140, 10); (0x1e2f0, 10); (0x1e950, 10);
    (0x1fbf0, 10) ].

Definition in_block (c : Z) (b : Z * Z) : bool :=
  (fst b <=? c) && (c <? fst b + snd b).

Definition nd_decimal (c : Z) : option Z :=
  match find (in_block c) nd_blocks with
  | Some b => Some ((c - fst b) mod 10)
  | None => None
  end.

(** White space outside ASCII. *)
Definition ws_points : list Z :=
  [ 0x85; 0xa0; 0x1680; 0x2000; 0x2001; 0x2002; 0x2003; 0x2004; 0x2005;
    0x2006; 0x2007; 0x2008; 0x2009; 0x200a; 0x2028; 0x2029; 0x202f; 0x205f;
    0x3000 ].

Definition ws_space (c : Z) : bool := existsb (Z.eqb c) ws_points.

(** NFKC on text made of ASCII, CJK unified ideographs and the fullwidth
    forms U+FF01..U+FF5E, which it folds onto ASCII; this instance leaves
    every other character in place, so it is NFKC on such text only. *)
Definition fold_fullwidth (c : Z) : Z :=
  if (0xff01 <=? c) && (c <=? 0xff5e) then c - 0xfee0 else c.

Definition unicode14 : UnicodeData.
Proof.
  refine {| unicode_decimal := nd_decimal;
            unicode_space := ws_space;
            nfkc := map fold_fullwidth |}.
  - intros c v H. unfold nd_decimal in H.
    destruct (find (in_block c) nd_blocks); inversion H; subst.
    pose proof (Z.mod_pos_bound (c - fst p) 10); lia.
  - intros c v H. unfold nd_decimal in H.
    destruct (ws_space c) eqn:Hs; [ | reflexivity ].
    unfold ws_space in Hs. apply existsb_exists in Hs.
    destruct Hs as [x [Hin Hx]]. apply Z.eqb_eq in Hx. subst x.
    simpl in Hin.
    repeat (destruct Hin as [Hin | Hin]; [ subst c; vm_compute in H; discriminate H | ]).
    contradiction.
  - intros c Hc. unfold nd_decimal.
    assert (Hnone : forall l,
               Forall (fun b => fst b + snd b <= 19968 \/ 40959 < fst b) l ->
               find (in_block c) l = None).
    { induction l as [| b l IH]; intros Hl; [ reflexivity | ].
      inversion Hl; subst. simpl.
      replace (in_block c b) with false.
      - apply IH; assumption.
      - symmetry. unfold in_block.
        destruct (fst b <=? c) eqn:E1; [ | reflexivity ].
        destruct (c <? fst b + snd b) eqn:E2; [ | reflexivity ].
        apply Z.leb_le in E1. apply Z.ltb_lt in E2. lia. }
    rewrite Hnone; [ reflexivity | ].
    unfold nd_blocks.
    repeat (apply Forall_cons; [ simpl; lia | ]). apply Forall_nil.
  - induction s as [| c s IH]; intros H; [ reflexivity | ].
    simpl in H. apply andb_true_iff in H. destruct H as [Hc Hs].
    simpl. rewrite (IH Hs). f_equal.
    unfold fold_fullwidth.
    destruct ((0xff01 <=? c) && (c <=? 0xff5e)) eqn:E; [ | reflexivity ].
    apply andb_true_iff in E. destruct E as [E1 E2].
    apply Z.leb_le in E1. apply Z.leb_le in E2.
    apply orb_true_iff in Hc. destruct Hc as [Hc | Hc];
      apply andb_true_iff in Hc; destruct Hc as [H1 H2];
      [ apply Z.ltb_lt in H2 | apply Z.leb_le in H2 ]; lia.
Defined.


(* ================================================================= *)
(** ** Vocabulary of the statements *)

Section Vocabulary.

Context {U : UnicodeData}.

Definition all_decimal (w : str) : Prop :=
  Forall (fun c => is_decimal c = true) w.

Definition no_decimal (w : str) : Prop :=
  Forall (fun c => is_decimal c = false) w.

(** [w] is the leftmost run of [n] decimal digits of [text]. *)
Definition first_run (n : nat) (text pre w post : str) : Prop :=
  text = pre ++ w ++ post
  /\ List.length w = n
  /\ all_decimal w
  /\ forall pre' w' post',
       text = pre' ++ w' ++ post' -> List.length w' = n -> all_decimal w' ->
       (List.length pre <= List.length pre')%nat.

(** [w] is the first decimal digit of [text], with the character after it
    when that is a decimal digit too. *)
Definition first_digits12 (text pre w post : str) : Prop :=
  text = pre ++ w ++ post
  /\ no_decimal pre
  /\ all_decimal w
  /\ (List.length w = 2%nat
      \/ (List.length w = 1%nat /\ no_decimal (firstn 1 post))).

(** Whether a match of [\d{4}] starts at the head of [s]. *)
Definition run4_here (s : str) : bool :=
  match s with
  | c1 :: c2 :: c3 :: c4 :: _ =>
      is_decimal c1 && is_decimal c2 && is_decimal c3 && is_decimal c4
  | _ => false
  end.

(** The match of [\d{1,2}] that starts at the head of [s], if any. *)
Definition digits12_here (s : str) : option str :=
  match s with
  | c1 :: rest =>
      if is_decimal c1 then
        Some (match rest with
              | c2 :: _ => if is_decimal c2 then [c1; c2] else [c1]
              | [] => [c1]
              end)
      else None
  | [] => None
  end.

(** [[0-9.]], the characters [parse_price] keeps. *)
Definition digit_or_dot (c : Z) : bool :=
  ((48 <=? c) && (c <=? 57)) || (c =? 46).

Definition ascii_digits (w : str) : Prop := Forall (fun c => 48 <= c <= 57) w.

(** The number that a run of ASCII digits writes. *)
Definition ascii_number (w : str) : Z :=
  fold_left (fun acc c => 10 * acc + (c - 48)) w 0.

(** The number of full stops of [w]. *)
Definition dots (w : str) : nat := count_occ Z.eq_dec w 46.

(** [q], negated when [text] holds the mark U+25B2. *)
Definition signed (text : str) (q : Q) : Q :=
  if in_dec Z.eq_dec 9650 text then Qopp q else q.

(** The period [p] reads as a range of months that holds month [m] of year
    [y], ends included, months being numbered [year * 100 + month]. *)
Definition covers (p : levy) (y m : Z) : Prop :=
  exists sy sm ey em,
    parse_year_month (start p) = Ok (sy, sm)
    /\ parse_year_month (end_ p) = Ok (ey, em)
    /\ sy * 100 + sm <= y * 100 + m <= ey * 100 + em.

(** Both ends of the period [p] read as a year and a month. *)
Definition readable (p : levy) : Prop :=
  exists sy sm ey em,
    parse_year_month (start p) = Ok (sy, sm)
    /\ parse_year_month (end_ p) = Ok (ey, em).

(** The period that [get_renewable_energy_levy] appends for [year]. *)
Definition new_period (year : Z) (x : Q) : levy :=
  {| start := str_of_int year ++ py "-05";
     end_ := str_of_int (year + 1) ++ py "-05";
     price := x |}.

(** The text in which the price is searched: normalised, newlines removed. *)
Definition searched_text (text : str) : str :=
  filter (fun c => negb (c =? 10)) (nfkc text).

(** What the resolver adds for [year]: a period when the check returns a
    price that is not zero, nothing otherwise. *)
Definition found (W : web) (year : Z) : list levy :=
  match check_renewable_energy_pdf W year with
  | Ok (Some x) => if float_truthy x then [new_period year x] else []
  | _ => []
  end.

(** The entry appended for year [y], month [m] and price [p]. *)
Definition entry_of (y m : Z) (p : Q) : entry :=
  {| year := y;
     month := m;
     date_iso := str_of_int y ++ py "-" ++ zero_pad 2 m ++ py "-01";
     price_kwh := p;
     area := py "Kanto";
     type_ := py "Low Voltage (Standard S)" |}.

(** A row that the loop skips before looking at its cells: no cell, a
    header marker in its text, or a number of cells other than 3 and 4. *)
Definition skipped (cols : row) : Prop :=
  cols = []
  \/ is_header (List.concat cols) = true
  \/ (List.length cols <> 3%nat /\ List.length cols <> 4%nat).

(** A row of four cells that is not a header: the rows that set the year. *)
Definition year_row (cols : row) : Prop :=
  List.length cols = 4%nat /\ is_header (List.concat cols) = false.

(** A row of three cells that is not a header: the rows that carry only a
    month. *)
Definition month_row (cols : row) : Prop :=
  List.length cols = 3%nat /\ is_header (List.concat cols) = false.

(** The year row [cols] declares year [y]. *)
Definition declares (cols : row) (y : Z) : Prop :=
  year_row cols /\ parse_year (cell cols 0) = Ok (Some y).

(** The year [y] is the one declared by the last year row of [rows]. *)
Definition carried_from (rows : list row) (y : Z) : Prop :=
  exists before hdr between,
    rows = before ++ hdr :: between
    /\ declares hdr y
    /\ Forall (fun r => ~ year_row r) between.

(** The cells of a data row that hold its month and its price. *)
Definition month_cell (cols : row) : str :=
  if (List.length cols =? 4)%nat then cell cols 1 else cell cols 0.

Definition price_cell (cols : row) : str :=
  if (List.length cols =? 4)%nat then cell cols 3 else cell cols 2.

(** The row [cols], which stands after the rows [before], is accepted and
    gives the entry [e]: it is a data row of three or four cells, the last
    year row up to it, itself included, declares a year other than 0, its
    month cell holds a month other than 0 and its price cell reads as a
    price; [e] is the entry of that year, month and price. *)
Definition accepted (before : list row) (cols : row) (e : entry) : Prop :=
  (year_row cols \/ month_row cols)
  /\ exists y m p,
       carried_from (before ++ [cols]) y /\ y <> 0
       /\ parse_month (month_cell cols) = Ok (Some m) /\ m <> 0
       /\ parse_price (price_cell cols) = Ok p
       /\ e = entry_of y m p.

(** [per_row] lists, for each row of [rows] in order, what comes from it:
    its entry for an accepted row, nothing for any other row. *)
Definition one_from_each_accepted_row (rows : list row)
  (per_row : list (list entry)) : Prop :=
  List.length per_row = List.length rows
  /\ forall before cols after,
       rows = before ++ cols :: after ->
       (exists e, accepted before cols e
                  /\ nth (List.length before) per_row [] = [e])
       \/ ((forall e, ~ accepted before cols e)
           /\ nth (List.length before) per_row [] = []).

(** The maximal runs of decimal digits of a text, in order; [run] is the
    run being read. *)
Fixpoint digit_runs_from (run text : str) : list str :=
  match text with
  | [] => match run with [] => [] | _ :: _ => [run] end
  | c :: rest =>
      if is_decimal c then digit_runs_from (run ++ [c]) rest
      else match run with
           | [] => digit_runs_from [] rest
           | _ :: _ => run :: digit_runs_from [] rest
           end
  end.

Definition digit_runs (text : str) : list str := digit_runs_from [] text.

(** The tokens as the specification words them: the first run of exactly
    four digits, and the first run of one or two digits. *)
Definition first_run_of_exactly_4 (text : str) : option str :=
  find (fun w => (List.length w =? 4)%nat) (digit_runs text).

Definition first_run_of_1_or_2 (text : str) : option str :=
  find (fun w => (List.length w <=? 2)%nat) (digit_runs text).

End Vocabulary.

(* ================================================================= *)
(** ** Sample inputs *)

(** A document whose only element is a link that names the section:
    [<a>燃料費調整単価（低圧）</a>]. *)
Definition link_only_document : node :=
  Tag (py "[document]") None []
    [ Tag (py "a") None [] [ NavigableString (py "燃料費調整単価（低圧）") ] ].

(** A web on which the notice of every year is a one-page PDF with the
    given text. *)
Definition web_with_notice (text : str) : web :=
  {| requests_get := fun _ => Ok {| status_code := 200; content := [] |};
     pdf_pages := fun _ => Ok [ Ok text ] |}.

Definition td (text : str) : node := Tag (py "td") None [] [ NavigableString text ].

Definition tr (cols : row) : node := Tag (py "tr") None [] (map td cols).

Definition table_of (rows : list row) : node :=
  Tag (py "table") None [] (map tr rows).

(** A page whose section [div id="anker01"] holds a table with the given
    rows of cells. *)
Definition price_document (rows : list row) : node :=
  Tag (py "[document]") None []
    [ Tag (py "div") (Some (py "anker01")) [] [ table_of rows ] ].

(** Rows of four cells that declare 2025 alternating with rows of three. *)
Definition alternating_table : list row :=
  [ [ py "2025年"; py "1月分"; py "▲6.51"; py "▲6.50" ];
    [ py "2月分"; py "▲7.02"; py "▲7.01" ];
    [ py "2025年"; py "3月分"; py "▲7.30"; py "▲7.29" ];
    [ py "4月分"; py "▲5.12"; py "5.2円" ] ].

(** Two rows for a month 13 of 2025. *)
Definition repeated_month_table : list row :=
  [ [ py "2025年"; py "13月分"; py "1.00"; py "2.00" ];
    [ py "13月分"; py "3.00"; py "4.00" ] ].

(* ================================================================= *)
(** ** [clean_text] *)

Section CleanText.

Context {U : UnicodeData}.

(** White space that [str.strip()] removes. *)
Definition str_space (c : Z) : bool :=
  if (0 <=? c) && (c <? 128) then
    ((9 <=? c) && (c <=? 13)) || ((28 <=? c) && (c <=? 32))
  else unicode_space c.

(** [s.replace(c, "")] for a one-character [c]. *)
Definition str_remove (c : Z) (s : str) : str :=
  filter (fun x => negb (x =? c)) s.

Definition clean_text (text : str) : str :=
  str_remove 13 (str_remove 10 (strip str_space text)).

End CleanText.

(* ================================================================= *)
(** ** Further vocabulary *)

Section MoreVocabulary.

Context {U : UnicodeData}.

(** The consumption [kwh] falls in the band [b]. *)
Definition in_band (kwh : Z) (b : usage_rate) : Prop :=
  band_min b <= kwh
  /\ match band_max b with
     | Some top => kwh <= top
     | None => True
     end.

(** The decimal text of [y] reads back as [y] and holds no hyphen. *)
Definition year_text_ok (y : Z) : bool :=
  match py_int (str_of_int y) with
  | Ok n => (n =? y) && negb (existsb (Z.eqb 45) (str_of_int y))
  | Raise _ => false
  end.

(** The two-digit text of [m] reads back as [m], holds no hyphen and has
    two characters. *)
Definition month_text_ok (m : Z) : bool :=
  match py_int (zero_pad 2 m) with
  | Ok n =>
      (n =? m) && negb (existsb (Z.eqb 45) (zero_pad 2 m))
      && (List.length (zero_pad 2 m) =? 2)%nat
  | Raise _ => false
  end.

(** The decimal text of [y] has four characters. *)
Definition year_text_four (y : Z) : bool :=
  (List.length (str_of_int y) =? 4)%nat.

(** An entry is made of its year, month and price alone: the labels are
    fixed and the date is written from the year and the month. *)
Definition well_formed_entry (e : entry) : Prop :=
  e = entry_of (year e) (month e) (price_kwh e).

(** The period reads as a range from May to a month not before it. *)
Definition may_to_later (p : levy) : Prop :=
  exists sy ey em,
    parse_year_month (start p) = Ok (sy, 5)
    /\ parse_year_month (end_ p) = Ok (ey, em)
    /\ 1 <= em <= 12
    /\ sy * 100 + 5 <= ey * 100 + em.

(** [data] is the report that a run on the page [soup] puts together: the
    entries of the scrape, the constants, the periods of the resolver and
    the rates selected from the two. *)
Definition computed_report (W : web) (today : date) (soup : node)
  (scrape_pdf : bool) (data : report) : Prop :=
  scrape_tepco_rates soup = Ok (report_fuel_adjustment data)
  /\ get_renewable_energy_levy W scrape_pdf
     = Ok (report_renewable_energy_levy data)
  /\ get_current_rates today (report_fuel_adjustment data)
       (report_renewable_energy_levy data)
     = Ok (report_current_rates data)
  /\ report_standard_s data = get_standard_s_constants.

End MoreVocabulary.

(** An output file that takes every report. *)
Definition writable_file : OutputFile := {| json_dump := fun _ => Ok tt |}.

(** An output file that cannot be opened. *)
Definition read_only_file : OutputFile :=
  {| json_dump := fun _ => Raise (OtherException "PermissionError") |}.

(* ================================================================= *)
(** ** Further sample inputs *)

(** A cell with its text: [th] for a header cell, [td] for a data cell. *)
Definition cell_element (header : bool) (text : str) : node :=
  Tag (if header then py "th" else py "td") None [] [ NavigableString text ].

(** A [tr] with the given cells. *)
Definition row_element (cells : list (bool * str)) : node :=
  Tag (py "tr") None [] (map (fun c => cell_element (fst c) (snd c)) cells).

(** The texts of the data cells of a row. *)
Definition data_cells (cells : list (bool * str)) : row :=
  map snd (filter (fun c => negb (fst c)) cells).

(** A [table] with the given rows. *)
Definition table_element (rows : list (list (bool * str))) : node :=
  Tag (py "table") None [] (map row_element rows).

(** A page whose [div id="anker01"] holds the given nodes. *)
Definition section_page (contents : list node) : node :=
  Tag (py "[document]") None []
    [ Tag (py "div") (Some (py "anker01")) [] contents ].

(** A table with a header row of [th] cells, a year row and a month row. *)
Definition headed_table : list (list (bool * str)) :=
  [ [ (true, py "適用年月"); (true, py "従量制"); (true, py "スタンダードS") ];
    [ (true, py "2025年"); (false, py "2025年"); (false, py "1月分");
      (false, py "▲6.51"); (false, py "▲6.50") ];
    [ (false, py "2月分"); (false, py "▲7.02"); (false, py "▲7.01") ] ].

(** Month rows under a year cell that holds no year, then a year row. *)
Definition yearless_table : list row :=
  [ [ py "令和7年"; py "1月分"; py "1.00"; py "bad.price.1" ];
    [ py "2月分"; py "3.00"; py "4..00" ];
    [ py "2025年"; py "3月分"; py "5.00"; py "6.00" ] ].

(** A table whose second row has a price with two full stops. *)
Definition bad_price_table : list row :=
  [ [ py "2025年"; py "1月分"; py "1.00"; py "2.00" ];
    [ py "2月分"; py "3.00"; py "4.0.0" ] ].

(** Periods whose second entry has a slash for the hyphen. *)
Definition slashed_levies : list levy :=
  [ {| start := py "2024-05"; end_ := py "2025-04"; price := float_lit 3.49 |};
    {| start := py "2025/05"; end_ := py "2026-05"; price := float_lit 3.98 |} ].

(* ================================================================= *)
(** * Properties *)

Section Properties.

Context {U : UnicodeData} {F : OutputFile}.

(** Boolean tests in the hypotheses, turned into propositions. *)
Ltac bools :=
  repeat match goal with
    | H : _ && _ = true |- _ => apply andb_true_iff in H; destruct H
    | H : (_ <=? _) = true |- _ => apply Z.leb_le in H
    | H : (_ <? _) = true |- _ => apply Z.ltb_lt in H
    | H : (_ =? _) = true |- _ => apply Z.eqb_eq in H
    | H : (_ <=? _) = false |- _ => apply Z.leb_gt in H
    | H : (_ <? _) = false |- _ => apply Z.ltb_ge in H
    | H : (_ =? _) = false |- _ => apply Z.eqb_neq in H
    end.

(** ** Digits and numbers *)

Lemma digit_value_range (c v : Z) : digit_value c = Some v -> 0 <= v <= 9.
Proof.
  unfold digit_value.
  destruct ((0 <=? c) && (c <? 128)) eqn:Hascii.
  - destruct ((48 <=? c) && (c <=? 57)) eqn:Hd; [ | discriminate ].
    intros H. inversion H; subst. bools. lia.
  - apply unicode_decimal_range.
Qed.

Lemma is_decimal_value (c : Z) :
  is_decimal c = true <-> exists v, digit_value c = Some v.
Proof.
  unfold is_decimal. destruct (digit_value c) as [v |].
  - split; [ intros _; exists v; reflexivity | reflexivity ].
  - split; [ discriminate | intros [v Hv]; discriminate ].
Qed.

Lemma is_decimal_ideograph (c : Z) :
  19968 <= c <= 40959 -> is_decimal c = false.
Proof.
  intros Hc. unfold is_decimal, digit_value.
  replace ((0 <=? c) && (c <? 128)) with false.
  - rewrite ideograph_not_decimal by assumption. reflexivity.
  - symmetry. apply andb_false_iff. right. apply Z.ltb_ge. lia.
Qed.

Lemma is_decimal_ascii (c : Z) :
  0 <= c < 128 -> is_decimal c = (48 <=? c) && (c <=? 57).
Proof.
  intros Hc. unfold is_decimal, digit_value.
  replace ((0 <=? c) && (c <? 128)) with true.
  - destruct ((48 <=? c) && (c <=? 57)); reflexivity.
  - symmetry. apply andb_true_iff. split; [ apply Z.leb_le | apply Z.ltb_lt ]; lia.
Qed.

Lemma decimal_not_int_space (c : Z) : is_decimal c = true -> int_space c = false.
Proof.
  unfold is_decimal, digit_value, int_space.
  destruct ((0 <=? c) && (c <? 128)) eqn:Hascii.
  - destruct ((48 <=? c) && (c <=? 57)) eqn:Hd; [ intros _ | discriminate ].
    bools. apply orb_false_iff. split.
    + apply andb_false_iff. right. apply Z.leb_gt. lia.
    + apply Z.eqb_neq. lia.
  - destruct (unicode_decimal c) as [v |] eqn:Hv; [ intros _ | discriminate ].
    apply (unicode_decimal_not_space c v Hv).
Qed.

Lemma decimal_not_punct (c : Z) :
  is_decimal c = true -> c <> 43 /\ c <> 45 /\ c <> 95 /\ c <> 46.
Proof.
  intros H. repeat split; intros ->; vm_compute in H; discriminate.
Qed.

Lemma digits_value_some (w : str) (acc : Z) :
  all_decimal w -> exists n, digits_value acc w = Some n.
Proof.
  intros Hw. revert acc.
  induction Hw as [| c w Hc Hw IH]; intros acc.
  - exists acc. reflexivity.
  - simpl. apply is_decimal_value in Hc. destruct Hc as [v Hv].
    rewrite Hv. apply IH.
Qed.

Lemma int_digits_decimal (w : str) (acc : Z) (b : bool) :
  all_decimal w -> w <> [] -> int_digits acc b w = digits_value acc w.
Proof.
  intros Hw. revert acc b.
  induction Hw as [| c w Hc Hw IH]; intros acc b Hne; [ congruence | ].
  simpl.
  destruct (decimal_not_punct c Hc) as (_ & _ & H95 & _).
  apply Z.eqb_neq in H95. rewrite H95.
  apply is_decimal_value in Hc. destruct Hc as [v Hv]. rewrite Hv.
  destruct w as [| c' w'].
  - reflexivity.
  - apply IH. discriminate.
Qed.

Lemma lstrip_head (p : Z -> bool) (c : Z) (s : str) :
  p c = false -> lstrip p (c :: s) = c :: s.
Proof. intros H. simpl. rewrite H. reflexivity. Qed.

Lemma strip_decimal (w : str) : all_decimal w -> strip int_space w = w.
Proof.
  intros Hw. unfold strip.
  assert (Hl : forall s, all_decimal s -> lstrip int_space s = s).
  { intros s Hs. destruct Hs as [| c s Hc Hs]; [ reflexivity | ].
    apply lstrip_head. apply decimal_not_int_space. assumption. }
  rewrite (Hl w Hw). rewrite Hl.
  - apply rev_involutive.
  - apply Forall_rev. assumption.
Qed.

Lemma numeral_run_decimal (w : str) :
  all_decimal w -> numeral_run w = (w, []).
Proof.
  induction 1 as [| c w Hc Hw IH]; [ reflexivity | ].
  cbn [numeral_run]. rewrite Hc, orb_true_r, IH. reflexivity.
Qed.

Lemma decimal_no_underscore (w : str) :
  all_decimal w -> filter (fun c => negb (c =? 95)) w = w.
Proof.
  induction 1 as [| c w Hc Hw IH]; [ reflexivity | ].
  cbn [filter]. destruct (decimal_not_punct c Hc) as (_ & _ & H95 & _).
  apply Z.eqb_neq in H95. rewrite H95, IH. reflexivity.
Qed.

(** [int] reads a run of decimal digits as the number it denotes. *)
Lemma py_int_decimal (w : str) :
  all_decimal w -> w <> [] -> Z.of_nat (List.length w) <= int_max_str_digits ->
  exists n, digits_value 0 w = Some n /\ py_int w = Ok n.
Proof.
  intros Hw Hne Hlen.
  destruct (digits_value_some w 0 Hw) as [n Hn].
  exists n. split; [ assumption | ].
  unfold py_int. rewrite (strip_decimal w Hw).
  assert (Hsign :
            match w with
            | 43 :: ds => (false, ds)
            | 45 :: ds => (true, ds)
            | ds => (false, ds)
            end = (false, w)).
  { destruct w as [| c w']; [ reflexivity | ].
    inversion Hw as [| ? ? Hc Hw']; subst.
    destruct (decimal_not_punct c Hc) as (H43 & H45 & _ & _).
    destruct c as [| p | p]; try reflexivity.
    repeat (destruct p as [p | p |]; try reflexivity; try congruence). }
  rewrite Hsign, (numeral_run_decimal w Hw), (decimal_no_underscore w Hw).
  rewrite (int_digits_decimal w 0 false Hw Hne), Hn.
  replace (int_max_str_digits <? Z.of_nat (List.length w)) with false
    by (symmetry; apply Z.ltb_ge; exact Hlen).
  reflexivity.
Qed.

(** ** [parse_year] and [parse_month] *)

Lemma firstn_prefix (w rest : str) : firstn (List.length w) (w ++ rest) = w.
Proof.
  induction w as [| c w IH]; [ reflexivity | ].
  cbn [List.length app firstn]. rewrite IH. reflexivity.
Qed.

Lemma firstn_consumed (w rest : str) :
  firstn (List.length (w ++ rest) - List.length rest) (w ++ rest) = w.
Proof.
  rewrite length_app, Nat.add_sub. apply firstn_prefix.
Qed.

Lemma year_match_here (s : str) :
  match_at year_re s [] (fun _ caps => Some caps)
  = if run4_here s then Some [(1%nat, firstn 4 s)] else None.
Proof.
  unfold year_re, digit.
  destruct s as [| c1 [| c2 [| c3 [| c4 rest]]]]; cbn [match_at run4_here].
  - reflexivity.
  - destruct (is_decimal c1); reflexivity.
  - destruct (is_decimal c1), (is_decimal c2); reflexivity.
  - destruct (is_decimal c1), (is_decimal c2), (is_decimal c3); reflexivity.
  - destruct (is_decimal c1), (is_decimal c2), (is_decimal c3), (is_decimal c4);
      try reflexivity.
    cbn [andb]. do 3 f_equal.
    apply (firstn_consumed [c1; c2; c3; c4] rest).
Qed.

Lemma run4_here_true (s : str) :
  run4_here s = true <->
  exists w post, s = w ++ post /\ List.length w = 4%nat /\ all_decimal w.
Proof.
  split.
  - destruct s as [| c1 [| c2 [| c3 [| c4 rest]]]]; try discriminate.
    cbn [run4_here]. intros H.
    repeat (apply andb_true_iff in H; destruct H as [H ?]).
    exists [c1; c2; c3; c4], rest. repeat split.
    repeat (constructor; try assumption).
  - intros (w & post & -> & Hlen & Hw).
    destruct w as [| c1 [| c2 [| c3 [| c4 [| c5 w]]]]]; try discriminate.
    inversion Hw as [| ? ? H1 Hw1]; subst.
    inversion Hw1 as [| ? ? H2 Hw2]; subst.
    inversion Hw2 as [| ? ? H3 Hw3]; subst.
    inversion Hw3 as [| ? ? H4 _]; subst.
    cbn [app run4_here]. rewrite H1, H2, H3, H4. reflexivity.
Qed.

Lemma year_search_cons (c : Z) (s : str) :
  re_search year_re (c :: s)
  = if run4_here (c :: s) then Some [(1%nat, firstn 4 (c :: s))]
    else re_search year_re s.
Proof.
  cbn [re_search]. rewrite year_match_here.
  destruct (run4_here (c :: s)); reflexivity.
Qed.

Lemma year_search_nil : re_search year_re [] = None.
Proof. reflexivity. Qed.

Lemma year_search_first (text pre w post : str) :
  first_run 4 text pre w post -> re_search year_re text = Some [(1%nat, w)].
Proof.
  revert text. induction pre as [| c pre IH]; intros text (Htext & Hlen & Hw & Hmin).
  - cbn [app] in Htext. subst text.
    assert (Hrun : run4_here (w ++ post) = true).
    { apply run4_here_true. exists w, post. auto. }
    destruct w as [| c1 w']; [ discriminate | ].
    cbn [app] in *. rewrite year_search_cons, Hrun.
    do 3 f_equal. change (c1 :: w' ++ post) with ((c1 :: w') ++ post).
    rewrite <- Hlen. apply firstn_prefix.
  - subst text. cbn [app]. rewrite year_search_cons.
    destruct (run4_here (c :: pre ++ w ++ post)) eqn:Hrun.
    + apply run4_here_true in Hrun. destruct Hrun as (w' & post' & Heq & Hlen' & Hw').
      specialize (Hmin [] w' post' Heq Hlen' Hw'). cbn in Hmin. lia.
    + apply IH. repeat split; try assumption.
      intros pre' w' post' Heq Hlen' Hw'.
      specialize (Hmin (c :: pre') w' post').
      cbn [app List.length] in Hmin. rewrite Heq in Hmin.
      specialize (Hmin eq_refl Hlen' Hw'). lia.
Qed.

Lemma year_search_none (text : str) :
  (forall pre w post,
      text = pre ++ w ++ post -> List.length w = 4%nat -> ~ all_decimal w) ->
  re_search year_re text = None.
Proof.
  induction text as [| c text IH]; intros Hnone; [ reflexivity | ].
  rewrite year_search_cons.
  destruct (run4_here (c :: text)) eqn:Hrun.
  - apply run4_here_true in Hrun. destruct Hrun as (w & post & Heq & Hlen & Hw).
    exfalso. apply (Hnone [] w post Heq Hlen Hw).
  - apply IH. intros pre w post Heq. apply (Hnone (c :: pre) w post).
    cbn [app]. rewrite Heq. reflexivity.
Qed.

(** Either some run of four digits is the leftmost one, or there is none. *)
Lemma first_run4_or_none (text : str) :
  (exists pre w post, first_run 4 text pre w post)
  \/ (forall pre w post,
         text = pre ++ w ++ post -> List.length w = 4%nat -> ~ all_decimal w).
Proof.
  induction text as [| c text IH].
  - right. intros pre w post Heq Hlen.
    destruct pre; destruct w; discriminate.
  - destruct (run4_here (c :: text)) eqn:Hrun.
    + left. apply run4_here_true in Hrun.
      destruct Hrun as (w & post & Heq & Hlen & Hw).
      exists [], w, post. repeat split; try assumption.
      intros. cbn. lia.
    + destruct IH as [(pre & w & post & Heq & Hlen & Hw & Hmin) | Hnone].
      * left. exists (c :: pre), w, post. repeat split; try assumption.
        -- cbn [app]. rewrite Heq. reflexivity.
        -- intros pre' w' post' Heq' Hlen' Hw'.
           destruct pre' as [| c' pre'].
           ++ assert (Ht : run4_here (c :: text) = true).
              { apply run4_here_true. exists w', post'. auto. }
              congruence.
           ++ cbn [app] in Heq'. injection Heq' as _ Heq'.
              specialize (Hmin pre' w' post' Heq' Hlen' Hw').
              cbn [List.length]. lia.
      * right. intros pre w post Heq Hlen Hw.
        destruct pre as [| c' pre].
        -- assert (Ht : run4_here (c :: text) = true).
           { apply run4_here_true. exists w, post. auto. }
           congruence.
        -- cbn [app] in Heq. injection Heq as _ Heq.
           apply (Hnone pre w post Heq Hlen Hw).
Qed.

Lemma parse_year_first (text pre w post : str) :
  first_run 4 text pre w post -> parse_year text = Ok (digits_value 0 w).
Proof.
  intros H. unfold parse_year. rewrite (year_search_first _ _ _ _ H).
  destruct H as (_ & Hlen & Hw & _).
  cbn [group Nat.eqb int_of_group].
  destruct (py_int_decimal w Hw) as (n & Hn & Hint).
  { destruct w; discriminate. }
  { rewrite Hlen. unfold int_max_str_digits. lia. }
  rewrite Hint, Hn. reflexivity.
Qed.

Lemma month_match_here (s : str) :
  match_at month_re s [] (fun _ caps => Some caps)
  = option_map (fun w => [(1%nat, w)]) (digits12_here s).
Proof.
  unfold month_re, digit.
  destruct s as [| c1 [| c2 rest]]; cbn [match_at digits12_here].
  - reflexivity.
  - destruct (is_decimal c1); reflexivity.
  - destruct (is_decimal c1); [ | reflexivity ].
    destruct (is_decimal c2); cbn [option_map]; do 3 f_equal.
    + apply (firstn_consumed [c1; c2] rest).
    + apply (firstn_consumed [c1] (c2 :: rest)).
Qed.

Lemma month_search_cons (c : Z) (s : str) :
  re_search month_re (c :: s)
  = match digits12_here (c :: s) with
    | Some w => Some [(1%nat, w)]
    | None => re_search month_re s
    end.
Proof.
  cbn [re_search]. rewrite month_match_here.
  destruct (digits12_here (c :: s)); reflexivity.
Qed.

Lemma digits12_here_none (c : Z) (s : str) :
  is_decimal c = false -> digits12_here (c :: s) = None.
Proof. intros H. cbn [digits12_here]. rewrite H. reflexivity. Qed.

Lemma month_search_first (text pre w post : str) :
  first_digits12 text pre w post -> re_search month_re text = Some [(1%nat, w)].
Proof.
  intros (-> & Hpre & Hw & Hlen).
  induction Hpre as [| c pre Hc Hpre IH].
  - cbn [app].
    destruct w as [| d1 [| d2 [| d3 w]]].
    + destruct Hlen as [Hlen | [Hlen _]]; discriminate.
    + destruct Hlen as [Hlen | [_ Hpost]]; [ discriminate | ].
      inversion Hw as [| ? ? H1 _]; subst.
      cbn [app]. rewrite month_search_cons. cbn [digits12_here]. rewrite H1.
      destruct post as [| c2 post]; [ reflexivity | ].
      cbn [firstn] in Hpost. inversion Hpost as [| ? ? H2 _]; subst.
      rewrite H2. reflexivity.
    + inversion Hw as [| ? ? H1 Hw1]; subst.
      inversion Hw1 as [| ? ? H2 _]; subst.
      cbn [app]. rewrite month_search_cons. cbn [digits12_here].
      rewrite H1, H2. reflexivity.
    + destruct Hlen as [Hlen | [Hlen _]]; discriminate.
  - cbn [app]. rewrite month_search_cons, (digits12_here_none _ _ Hc). exact IH.
Qed.

Lemma month_search_none (text : str) :
  no_decimal text -> re_search month_re text = None.
Proof.
  induction 1 as [| c text Hc Htext IH]; [ reflexivity | ].
  rewrite month_search_cons, (digits12_here_none _ _ Hc). exact IH.
Qed.

(** Either [text] has a first digit, or it has no digit. *)
Lemma first_digits12_or_none (text : str) :
  (exists pre w post, first_digits12 text pre w post) \/ no_decimal text.
Proof.
  induction text as [| c text IH]; [ right; constructor | ].
  destruct (is_decimal c) eqn:Hc.
  - left. destruct text as [| c2 text].
    + exists [], [c], [].
      split; [ reflexivity | split; [ constructor | split ] ].
      * constructor; [ assumption | constructor ].
      * right. split; [ reflexivity | constructor ].
    + destruct (is_decimal c2) eqn:Hc2.
      * exists [], [c; c2], text.
        split; [ reflexivity | split; [ constructor | split ] ].
        -- repeat (constructor; try assumption).
        -- left. reflexivity.
      * exists [], [c], (c2 :: text).
        split; [ reflexivity | split; [ constructor | split ] ].
        -- constructor; [ assumption | constructor ].
        -- right. split; [ reflexivity | ].
           cbn [firstn]. constructor; [ assumption | constructor ].
  - destruct IH as [(pre & w & post & -> & Hpre & Hw & Hlen) | Hnone].
    + left. exists (c :: pre), w, post.
      split; [ reflexivity | split; [ | split; assumption ] ].
      constructor; assumption.
    + right. constructor; assumption.
Qed.

Lemma parse_month_first (text pre w post : str) :
  first_digits12 text pre w post -> parse_month text = Ok (digits_value 0 w).
Proof.
  intros H. unfold parse_month. rewrite (month_search_first _ _ _ _ H).
  destruct H as (_ & _ & Hw & Hlen).
  cbn [group Nat.eqb int_of_group].
  destruct (py_int_decimal w Hw) as (n & Hn & Hint).
  { destruct w; [ | discriminate ].
    destruct Hlen as [Hlen | [Hlen _]]; discriminate. }
  { unfold int_max_str_digits.
    destruct Hlen as [Hlen | [Hlen _]]; rewrite Hlen; lia. }
  rewrite Hint, Hn. reflexivity.
Qed.

(** The value of a run of digits, digit by digit. *)
Lemma digits_value_4 (d1 d2 d3 d4 v1 v2 v3 v4 : Z) :
  digit_value d1 = Some v1 -> digit_value d2 = Some v2 ->
  digit_value d3 = Some v3 -> digit_value d4 = Some v4 ->
  digits_value 0 [d1; d2; d3; d4] = Some (1000 * v1 + 100 * v2 + 10 * v3 + v4).
Proof.
  intros H1 H2 H3 H4. cbn [digits_value]. rewrite H1, H2, H3, H4.
  f_equal. lia.
Qed.

Lemma digits_value_bound (w : str) (acc n : Z) :
  0 <= acc -> digits_value acc w = Some n ->
  acc * 10 ^ Z.of_nat (List.length w) <= n
  < (acc + 1) * 10 ^ Z.of_nat (List.length w).
Proof.
  revert acc. induction w as [| c w IH]; intros acc Hacc H.
  - cbn in H. inversion H; subst. cbn. lia.
  - cbn [digits_value] in H.
    destruct (digit_value c) as [v |] eqn:Hv; [ | discriminate ].
    apply digit_value_range in Hv.
    apply IH in H; [ | lia ].
    cbn [List.length]. rewrite Nat2Z.inj_succ, Z.pow_succ_r by lia.
    set (p := 10 ^ Z.of_nat (List.length w)) in *.
    assert (0 < p) by (apply Z.pow_pos_nonneg; lia).
    nia.
Qed.

Lemma parse_year_cases (text : str) :
  (exists pre w post n,
      first_run 4 text pre w post /\ digits_value 0 w = Some n
      /\ 0 <= n <= 9999)
  \/ parse_year text = Ok None.
Proof.
  destruct (first_run4_or_none text) as [(pre & w & post & Hrun) | Hnone].
  - left. destruct Hrun as (Htext & Hlen & Hw & Hmin).
    destruct (digits_value_some w 0 Hw) as [n Hn].
    exists pre, w, post, n.
    split; [ repeat split; assumption | split; [ assumption | ] ].
    apply digits_value_bound in Hn; [ | lia ].
    rewrite Hlen in Hn. change (10 ^ Z.of_nat 4) with 10000 in Hn. lia.
  - right. unfold parse_year.
    rewrite (year_search_none text Hnone). reflexivity.
Qed.

Lemma parse_month_cases (text : str) :
  (exists pre w post n,
      first_digits12 text pre w post /\ digits_value 0 w = Some n
      /\ 0 <= n <= 99)
  \/ parse_month text = Ok None.
Proof.
  destruct (first_digits12_or_none text) as [(pre & w & post & Hrun) | Hnone].
  - left. destruct Hrun as (Htext & Hpre & Hw & Hlen).
    destruct (digits_value_some w 0 Hw) as [n Hn].
    exists pre, w, post, n.
    split; [ repeat split; assumption | split; [ assumption | ] ].
    apply digits_value_bound in Hn; [ | lia ].
    destruct Hlen as [Hlen | [Hlen _]]; rewrite Hlen in Hn;
      [ change (10 ^ Z.of_nat 2) with 100 in Hn
      | change (10 ^ Z.of_nat 1) with 10 in Hn ]; lia.
  - right. unfold parse_month.
    rewrite (month_search_none text Hnone). reflexivity.
Qed.

Lemma parse_year_total (text : str) :
  parse_year text = Ok None
  \/ exists y, parse_year text = Ok (Some y) /\ 0 <= y <= 9999.
Proof.
  destruct (parse_year_cases text)
    as [(pre & w & post & n & Hrun & Hn & Hb) | Hnone]; [ | auto ].
  right. exists n. rewrite (parse_year_first _ _ _ _ Hrun), Hn. auto.
Qed.

Lemma parse_month_total (text : str) :
  parse_month text = Ok None
  \/ exists m, parse_month text = Ok (Some m) /\ 0 <= m <= 99.
Proof.
  destruct (parse_month_cases text)
    as [(pre & w & post & n & Hrun & Hn & Hb) | Hnone]; [ | auto ].
  right. exists n. rewrite (parse_month_first _ _ _ _ Hrun), Hn. auto.
Qed.

(** C7, as amended.  [parse_year] returns the number written by the leftmost four
    consecutive decimal digits of the text and [parse_month] the number
    written by the first decimal digit together with the next character when
    that is a digit too; each returns [None] when the text holds no such
    run, and one of the two cases always applies, so neither raises.  On
    "2026年4月分" the year is 2026 and on "4月分" the month is 4. *)
Theorem date_token_parsers (text : str) :
  (forall pre w post,
      first_run 4 text pre w post -> parse_year text = Ok (digits_value 0 w))
  /\ ((forall pre w post,
          text = pre ++ w ++ post -> List.length w = 4%nat -> ~ all_decimal w) ->
      parse_year text = Ok None)
  /\ ((exists pre w post n,
          first_run 4 text pre w post /\ digits_value 0 w = Some n
          /\ 0 <= n <= 9999)
      \/ parse_year text = Ok None)
  /\ (forall pre w post,
         first_digits12 text pre w post -> parse_month text = Ok (digits_value 0 w))
  /\ (no_decimal text -> parse_month text = Ok None)
  /\ ((exists pre w post n,
          first_digits12 text pre w post /\ digits_value 0 w = Some n
          /\ 0 <= n <= 99)
      \/ parse_month text = Ok None)
  /\ parse_year (py "2026年4月分") = Ok (Some 2026)
  /\ parse_month (py "4月分") = Ok (Some 4).
Proof.
  split; [ intros pre w post; apply parse_year_first | ].
  split.
  { intros Hnone. unfold parse_year.
    rewrite (year_search_none text Hnone). reflexivity. }
  split; [ apply parse_year_cases | ].
  split; [ intros pre w post; apply parse_month_first | ].
  split.
  { intros Hnone. unfold parse_month.
    rewrite (month_search_none text Hnone). reflexivity. }
  split; [ apply parse_month_cases | ].
  split.
  - rewrite (parse_year_first _ [] (py "2026") (py "年4月分")).
    + reflexivity.
    + split; [ reflexivity | split; [ reflexivity | split ] ].
      * repeat constructor.
      * intros. cbn. lia.
  - rewrite (parse_month_first _ [] (py "4") (py "月分")).
    + reflexivity.
    + split; [ reflexivity | split; [ constructor | split ] ].
      * repeat constructor.
      * right. split; [ reflexivity | ].
        change (firstn 1 (py "月分")) with [26376].
        constructor; [ | constructor ].
        apply is_decimal_ideograph. lia.
Qed.

(** A longer run of digits gives its first four to [parse_year] and its
    first two to [parse_month]. *)
Example parse_year_of_a_long_run :
  parse_year (py "123456") = Ok (Some 1234)
  /\ parse_month (py "a123") = Ok (Some 12).
Proof. split; reflexivity. Qed.

(** ** [parse_price] *)

Lemma sub_is_filter (text : str) :
  re_sub_class not_digit_or_dot [] text = filter digit_or_dot text.
Proof.
  unfold re_sub_class, not_digit_or_dot.
  induction text as [| c text IH]; [ reflexivity | ].
  cbn [flat_map filter]. rewrite IH.
  fold (digit_or_dot c). destruct (digit_or_dot c); reflexivity.
Qed.

Lemma kept_digit_or_dot (text : str) :
  Forall (fun c => digit_or_dot c = true) (filter digit_or_dot text).
Proof.
  apply Forall_forall. intros c Hc. apply filter_In in Hc. tauto.
Qed.

Lemma mark_in (text : str) : str_in (py "▲") text = true <-> In 9650 text.
Proof.
  change (py "▲") with [9650].
  induction text as [| c text IH].
  - cbn. split; [ discriminate | tauto ].
  - cbn [str_in startswith In]. rewrite andb_true_r.
    rewrite orb_true_iff, IH, Z.eqb_eq.
    split; intros [H | H]; auto.
Qed.

Lemma signed_mark (text : str) (q : Q) :
  (if str_in (py "▲") text then Qopp q else q) = signed text q.
Proof.
  unfold signed.
  destruct (in_dec Z.eq_dec 9650 text) as [Hin | Hout].
  - apply mark_in in Hin. rewrite Hin. reflexivity.
  - destruct (str_in (py "▲") text) eqn:E; [ | reflexivity ].
    apply mark_in in E. contradiction.
Qed.

Lemma split_not_nil (sep : Z) (s : str) : str_split sep s <> [].
Proof.
  destruct s as [| c s]; cbn [str_split]; [ discriminate | ].
  destruct (c =? sep); [ discriminate | ].
  destruct (str_split sep s); discriminate.
Qed.

Lemma split_no_sep (sep : Z) (s : str) : ~ In sep s -> str_split sep s = [s].
Proof.
  induction s as [| c s IH]; intros Hs; [ reflexivity | ].
  cbn [str_split].
  destruct (Z.eqb_spec c sep) as [-> | Hne].
  - exfalso. apply Hs. left. reflexivity.
  - rewrite IH; [ reflexivity | ]. intros Hin. apply Hs. right. assumption.
Qed.

Lemma split_at_sep (sep : Z) (a b : str) :
  ~ In sep a -> str_split sep (a ++ sep :: b) = a :: str_split sep b.
Proof.
  induction a as [| c a IH]; intros Ha.
  - cbn [app str_split]. rewrite Z.eqb_refl. reflexivity.
  - cbn [app str_split].
    destruct (Z.eqb_spec c sep) as [-> | Hne].
    + exfalso. apply Ha. left. reflexivity.
    + rewrite IH; [ reflexivity | ]. intros Hin. apply Ha. right. assumption.
Qed.

Lemma split_length (sep : Z) (s : str) :
  List.length (str_split sep s) = S (count_occ Z.eq_dec s sep).
Proof.
  induction s as [| c s IH]; [ reflexivity | ].
  cbn [str_split count_occ].
  destruct (Z.eqb_spec c sep) as [-> | Hne].
  - destruct (Z.eq_dec sep sep); [ | congruence ].
    cbn [List.length]. rewrite IH. reflexivity.
  - destruct (Z.eq_dec c sep); [ congruence | ].
    destruct (str_split sep s) eqn:E; [ discriminate IH | ].
    cbn [List.length] in *. assumption.
Qed.

Lemma ascii_digits_decimal (w : str) : ascii_digits w -> all_decimal w.
Proof.
  intros Hw. eapply Forall_impl; [ | exact Hw ].
  intros c Hc. cbv beta in Hc. rewrite is_decimal_ascii by lia.
  apply andb_true_iff. split; apply Z.leb_le; lia.
Qed.

Lemma digits_value_ascii (w : str) (acc : Z) :
  ascii_digits w ->
  digits_value acc w = Some (fold_left (fun a c => 10 * a + (c - 48)) w acc).
Proof.
  intros Hw. revert acc.
  induction Hw as [| c w Hc Hw IH]; intros acc; [ reflexivity | ].
  cbn [digits_value fold_left]. unfold digit_value.
  replace ((0 <=? c) && (c <? 128)) with true
    by (symmetry; apply andb_true_iff; split;
        [ apply Z.leb_le | apply Z.ltb_lt ]; lia).
  replace ((48 <=? c) && (c <=? 57)) with true
    by (symmetry; apply andb_true_iff; split; apply Z.leb_le; lia).
  apply IH.
Qed.

Lemma ascii_digits_no_dot (w : str) : ascii_digits w -> ~ In 46 w.
Proof.
  intros Hw Hin. apply (proj1 (Forall_forall _ _) Hw) in Hin.
  cbv beta in Hin. lia.
Qed.

(** A string of digits and full stops without full stop holds digits only. *)
Lemma no_dot_digits (w : str) :
  Forall (fun c => digit_or_dot c = true) w -> dots w = 0%nat -> ascii_digits w.
Proof.
  unfold dots. induction 1 as [| c w Hc Hw IH]; intros Hd; [ constructor | ].
  cbn [count_occ] in Hd.
  destruct (Z.eq_dec c 46) as [-> | Hne]; [ discriminate | ].
  constructor; [ | apply IH; assumption ].
  unfold digit_or_dot in Hc. apply orb_true_iff in Hc.
  destruct Hc as [Hc | Hc]; bools; [ lia | contradiction ].
Qed.

(** A string of digits and full stops with one full stop splits around it. *)
Lemma one_dot_digits (w : str) :
  Forall (fun c => digit_or_dot c = true) w -> dots w = 1%nat ->
  exists ip fp, w = ip ++ 46 :: fp /\ ascii_digits ip /\ ascii_digits fp.
Proof.
  unfold dots. induction 1 as [| c w Hc Hw IH]; intros Hd; [ discriminate | ].
  cbn [count_occ] in Hd.
  destruct (Z.eq_dec c 46) as [-> | Hne].
  - exists [], w. split; [ reflexivity | split; [ constructor | ] ].
    apply no_dot_digits; [ assumption | ]. unfold dots. lia.
  - destruct (IH Hd) as (ip & fp & -> & Hip & Hfp).
    exists (c :: ip), fp. split; [ reflexivity | split; [ | assumption ] ].
    constructor; [ | assumption ].
    unfold digit_or_dot in Hc. apply orb_true_iff in Hc.
    destruct Hc as [Hc | Hc]; bools; [ lia | contradiction ].
Qed.

Lemma py_float_integer (ip : str) :
  ascii_digits ip -> ip <> [] -> py_float ip = Ok (ascii_number ip # 1).
Proof.
  intros Hip Hne. unfold py_float.
  rewrite (split_no_sep 46 ip (ascii_digits_no_dot ip Hip)).
  cbv beta iota.
  destruct ip as [| c ip']; [ congruence | ].
  rewrite (digits_value_ascii (c :: ip') 0 Hip). reflexivity.
Qed.

Lemma py_float_fraction (ip fp : str) :
  ascii_digits ip -> ascii_digits fp -> ip ++ fp <> [] ->
  py_float (ip ++ 46 :: fp)
  = Ok (Qred (ascii_number (ip ++ fp)
              # Z.to_pos (10 ^ Z.of_nat (List.length fp)))).
Proof.
  intros Hip Hfp Hne. unfold py_float.
  rewrite (split_at_sep 46 ip fp (ascii_digits_no_dot ip Hip)).
  rewrite (split_no_sep 46 fp (ascii_digits_no_dot fp Hfp)).
  cbv beta iota.
  assert (Hall : ascii_digits (ip ++ fp)) by (apply Forall_app; split; assumption).
  destruct (ip ++ fp) as [| c w] eqn:E; [ congruence | ].
  rewrite (digits_value_ascii (c :: w) 0 Hall). reflexivity.
Qed.

Lemma py_float_lone_dot : py_float [46] = Raise float_error.
Proof. reflexivity. Qed.

Lemma py_float_many_dots (w : str) :
  (2 <= dots w)%nat -> py_float w = Raise float_error.
Proof.
  intros Hd. unfold py_float.
  pose proof (split_length 46 w) as Hlen. fold (dots w) in Hlen.
  destruct (str_split 46 w) as [| a [| b [| c l]]]; cbn [List.length] in Hlen;
    try lia; reflexivity.
Qed.

Lemma parse_price_unfold (text : str) :
  parse_price text
  = match filter digit_or_dot text with
    | [] => Ok 0%Q
    | _ :: _ =>
        match py_float (filter digit_or_dot text) with
        | Ok amount => Ok (signed text amount)
        | Raise e => Raise e
        end
    end.
Proof.
  unfold parse_price. rewrite sub_is_filter.
  destruct (filter digit_or_dot text) as [| c w]; [ reflexivity | ].
  unfold bind. destruct (py_float (c :: w)); [ | reflexivity ].
  rewrite signed_mark. reflexivity.
Qed.

Lemma lone_dot_split (ip fp : str) :
  ascii_digits ip -> ip ++ 46 :: fp = [46] -> ip ++ fp = [].
Proof.
  intros Hip H. destruct ip as [| c ip].
  - cbn in H. injection H as ->. reflexivity.
  - cbn in H. injection H as -> H.
    inversion Hip as [| ? ? Hc _]; subst. lia.
Qed.

(** C3, as amended.  [parse_price] keeps the digits and full stops of the
    text.  With nothing kept it returns 0.0; when what is kept is a decimal
    numeral (digits around at most one full stop, at least one digit) it
    returns that number, negated when the text holds the mark ▲; and it
    raises [ValueError], from [float], exactly when what is kept is a lone
    full stop or holds two full stops or more.  On "▲12.3円", "5.2円" and
    the empty text it returns -12.3, 5.2 and 0.0. *)
Theorem parse_price_on_decimals (text : str) :
  let kept := filter digit_or_dot text in
  (kept = [] -> parse_price text = Ok 0%Q)
  /\ (ascii_digits kept -> kept <> [] ->
      parse_price text = Ok (signed text (ascii_number kept # 1)))
  /\ (forall ip fp,
         kept = ip ++ 46 :: fp -> ascii_digits ip -> ascii_digits fp ->
         ip ++ fp <> [] ->
         parse_price text
         = Ok (signed text
                 (Qred (ascii_number (ip ++ fp)
                        # Z.to_pos (10 ^ Z.of_nat (List.length fp))))))
  /\ (raises (parse_price text) = true
      <-> kept = [46] \/ (2 <= dots kept)%nat)
  /\ parse_price (py "▲12.3円") = Ok (float_lit (-12.3))
  /\ parse_price (py "5.2円") = Ok (float_lit 5.2)
  /\ parse_price (py "") = Ok (float_lit 0.0).
Proof.
  intros kept. subst kept.
  assert (Hint : ascii_digits (filter digit_or_dot text) ->
                 filter digit_or_dot text <> [] ->
                 parse_price text
                 = Ok (signed text (ascii_number (filter digit_or_dot text) # 1))).
  { intros Hd Hne. rewrite parse_price_unfold.
    rewrite (py_float_integer _ Hd Hne).
    destruct (filter digit_or_dot text); [ congruence | reflexivity ]. }
  assert (Hfrac : forall ip fp,
             filter digit_or_dot text = ip ++ 46 :: fp ->
             ascii_digits ip -> ascii_digits fp -> ip ++ fp <> [] ->
             parse_price text
             = Ok (signed text
                     (Qred (ascii_number (ip ++ fp)
                            # Z.to_pos (10 ^ Z.of_nat (List.length fp)))))).
  { intros ip fp Heq Hip Hfp Hne. rewrite parse_price_unfold, Heq.
    rewrite (py_float_fraction ip fp Hip Hfp Hne).
    destruct (ip ++ 46 :: fp) eqn:E; [ | reflexivity ].
    destruct ip; discriminate. }
  split; [ intros H; rewrite parse_price_unfold, H; reflexivity | ].
  split; [ exact Hint | ].
  split; [ exact Hfrac | ].
  split; [ | repeat split; reflexivity ].
  pose proof (kept_digit_or_dot text) as Hkept.
  destruct (dots (filter digit_or_dot text)) as [| [| k]] eqn:Hd.
  - (* no full stop *)
    pose proof (no_dot_digits _ Hkept Hd) as Hdig.
    destruct (filter digit_or_dot text) as [| c w] eqn:E.
    + rewrite parse_price_unfold, E. cbn.
      split; [ discriminate | intros [H | H]; [ discriminate | lia ] ].
    + rewrite Hint by (assumption || discriminate). cbn.
      split; [ discriminate | intros [H | H]; [ | lia ] ].
      rewrite H in Hd. discriminate.
  - (* one full stop *)
    destruct (one_dot_digits _ Hkept Hd) as (ip & fp & Heq & Hip & Hfp).
    destruct (ip ++ fp) as [| c w] eqn:E.
    + apply app_eq_nil in E. destruct E as [-> ->].
      cbn in Heq. rewrite parse_price_unfold, Heq. cbn.
      split; [ left; reflexivity | reflexivity ].
    + rewrite (Hfrac ip fp Heq Hip Hfp) by (rewrite E; discriminate). cbn.
      split; [ discriminate | intros [H | H]; [ | lia ] ].
      rewrite Heq in H. apply (lone_dot_split ip fp Hip) in H. congruence.
  - (* two full stops or more *)
    rewrite parse_price_unfold.
    rewrite (py_float_many_dots (filter digit_or_dot text)) by lia.
    destruct (filter digit_or_dot text) as [| c w] eqn:E; [ discriminate Hd | ].
    cbn. split; [ intros _; right; lia | reflexivity ].
Qed.

(** ** [get_standard_s_constants] *)

(** C9.  The base rates are, for 10 A to 60 A in steps of 10 A, the unit
    price 311.75 times ampere/10 rounded to two decimals; every operand and
    result is held exactly by a binary64 float, so the rounding of float
    arithmetic plays no part and [round] changes nothing.  The rate for 30 A
    is 935.25, and the usage bands are 0..120, 121..300 and 301 upwards with
    their fixed prices. *)
Theorem standard_s_table :
  py_range 10 61 10 = [10; 20; 30; 40; 50; 60]
  /\ base_rate_per_10a get_standard_s_constants = float_lit 311.75
  /\ (forall ampere,
         In ampere (py_range 10 61 10) ->
         dict_get (str_of_int ampere ++ py "A") (base_rates get_standard_s_constants)
         = Some (py_round2 (float_lit 311.75 * (ampere # 10)))
         /\ binary64_exact (float_lit 311.75) = true
         /\ binary64_exact (ampere # 10) = true
         /\ binary64_exact (float_lit 311.75 * (ampere # 10)) = true
         /\ py_round2 (float_lit 311.75 * (ampere # 10))
            = Qred (float_lit 311.75 * (ampere # 10)))
  /\ base_rates get_standard_s_constants
     = [ (py "10A", float_lit 311.75); (py "20A", float_lit 623.5);
         (py "30A", float_lit 935.25); (py "40A", float_lit 1247.0);
         (py "50A", float_lit 1558.75); (py "60A", float_lit 1870.5) ]
  /\ dict_get (py "30A") (base_rates get_standard_s_constants)
     = Some (float_lit 935.25)
  /\ usage_rates get_standard_s_constants
     = [ {| band_min := 0; band_max := Some 120; band_price := float_lit 29.80 |};
         {| band_min := 121; band_max := Some 300; band_price := float_lit 36.40 |};
         {| band_min := 301; band_max := None; band_price := float_lit 40.49 |} ].
Proof.
  split; [ reflexivity | ].
  split; [ reflexivity | ].
  split; [ | repeat split; reflexivity ].
  intros ampere Hin. change (py_range 10 61 10) with [10; 20; 30; 40; 50; 60] in Hin.
  cbn [In] in Hin.
  repeat (destruct Hin as [<- | Hin]; [ repeat split; vm_compute; reflexivity | ]).
  contradiction.
Qed.

(** ** [get_current_rates]: the loop over the periods *)

Lemma readable_covers_dec (p : levy) (y m : Z) :
  readable p -> covers p y m \/ ~ covers p y m.
Proof.
  intros (sy & sm & ey & em & Hs & He).
  destruct (Z_le_dec (sy * 100 + sm) (y * 100 + m)) as [H1 | H1];
    [ destruct (Z_le_dec (y * 100 + m) (ey * 100 + em)) as [H2 | H2] | ].
  - left. exists sy, sm, ey, em. auto.
  - right. intros (sy' & sm' & ey' & em' & Hs' & He' & Hr).
    rewrite Hs in Hs'. rewrite He in He'.
    injection Hs' as <- <-. injection He' as <- <-. lia.
  - right. intros (sy' & sm' & ey' & em' & Hs' & He' & Hr).
    rewrite Hs in Hs'. rewrite He in He'.
    injection Hs' as <- <-. injection He' as <- <-. lia.
Qed.

Lemma levy_loop_hit (p : levy) (rest : list levy) (y m : Z) :
  covers p y m -> levy_loop (y * 100 + m) (p :: rest) = Ok (Some (price p)).
Proof.
  intros (sy & sm & ey & em & Hs & He & Hr).
  cbn [levy_loop]. rewrite Hs, He. cbn [bind].
  replace ((sy * 100 + sm <=? y * 100 + m) && (y * 100 + m <=? ey * 100 + em))
    with true; [ reflexivity | ].
  symmetry. apply andb_true_iff. split; apply Z.leb_le; lia.
Qed.

Lemma levy_loop_miss (p : levy) (rest : list levy) (y m : Z) :
  readable p -> ~ covers p y m ->
  levy_loop (y * 100 + m) (p :: rest) = levy_loop (y * 100 + m) rest.
Proof.
  intros (sy & sm & ey & em & Hs & He) Hno.
  cbn [levy_loop]. rewrite Hs, He. cbn [bind].
  destruct ((sy * 100 + sm <=? y * 100 + m) && (y * 100 + m <=? ey * 100 + em))
    eqn:E; [ | reflexivity ].
  exfalso. apply Hno. exists sy, sm, ey, em. bools. auto.
Qed.

(** The loop returns the price of the first period that covers the month. *)
Lemma levy_loop_first (pre : list levy) (p : levy) (post : list levy) (y m : Z) :
  Forall readable pre -> (forall q, In q pre -> ~ covers q y m) -> covers p y m ->
  levy_loop (y * 100 + m) (pre ++ p :: post) = Ok (Some (price p)).
Proof.
  intros Hread. induction Hread as [| q pre Hq Hpre IH]; intros Hno Hp.
  - apply levy_loop_hit. assumption.
  - cbn [app]. rewrite levy_loop_miss.
    + apply IH; [ | assumption ]. intros q' Hin. apply Hno. right. assumption.
    + assumption.
    + apply Hno. left. reflexivity.
Qed.

Lemma levy_loop_none (l : list levy) (y m : Z) :
  Forall readable l -> (forall q, In q l -> ~ covers q y m) ->
  levy_loop (y * 100 + m) l = Ok None.
Proof.
  intros Hread. induction Hread as [| q l Hq Hl IH]; intros Hno; [ reflexivity | ].
  rewrite levy_loop_miss.
  - apply IH. intros q' Hin. apply Hno. right. assumption.
  - assumption.
  - apply Hno. left. reflexivity.
Qed.

Lemma first_cover_or_none (l : list levy) (y m : Z) :
  Forall readable l ->
  (exists pre p post,
      l = pre ++ p :: post /\ covers p y m
      /\ forall q, In q pre -> ~ covers q y m)
  \/ (forall q, In q l -> ~ covers q y m).
Proof.
  induction 1 as [| q l Hq Hl IH].
  - right. intros q [].
  - destruct (readable_covers_dec q y m Hq) as [Hc | Hn].
    + left. exists [], q, l. split; [ reflexivity | split; [ assumption | ] ].
      intros q' [].
    + destruct IH as [(pre & p & post & -> & Hp & Hpre) | Hnone].
      * left. exists (q :: pre), p, post.
        split; [ reflexivity | split; [ assumption | ] ].
        intros q' [<- | Hin]; [ assumption | apply Hpre; assumption ].
      * right. intros q' [<- | Hin]; [ assumption | apply Hnone; assumption ].
Qed.

Lemma hardcoded_readable : Forall readable levies_hardcoded.
Proof.
  repeat constructor.
  - exists 2024, 5, 2025, 4. split; reflexivity.
  - exists 2025, 5, 2026, 5. split; reflexivity.
Qed.

Lemma new_period_readable (x : Q) :
  readable (new_period 2026 x) /\ readable (new_period 2027 x).
Proof.
  split.
  - exists 2026, 5, 2027, 5. split; reflexivity.
  - exists 2027, 5, 2028, 5. split; reflexivity.
Qed.

(** ** [check_renewable_energy_pdf] and [get_renewable_energy_levy] *)

Lemma try_except_none {A : Type} (body : result (option A)) :
  exists v, try_except body (fun _ => Ok None) = Ok v.
Proof. destruct body as [v | e]; [ exists v | exists None ]; reflexivity. Qed.

Lemma check_never_raises (W : web) (year : Z) :
  exists v, check_renewable_energy_pdf W year = Ok v.
Proof. unfold check_renewable_energy_pdf. apply try_except_none. Qed.

Lemma extract_pages_raise (pages : list (result str)) (acc : str) (e : exn) :
  In (Raise e) pages -> exists e', extract_pages acc pages = Raise e'.
Proof.
  revert acc. induction pages as [| page pages IH]; intros acc Hin;
    [ contradiction | ].
  cbn [extract_pages]. destruct page as [t | e0].
  - cbn [bind]. destruct Hin as [Heq | Hin]; [ discriminate | ].
    apply IH. assumption.
  - exists e0. reflexivity.
Qed.

Lemma check_year_found (W : web) (levies : list levy) (year : Z) :
  existsb (fun l => str_eqb (start l) (str_of_int year ++ py "-05")) levies = false ->
  check_year W levies year = Ok (levies ++ found W year).
Proof.
  intros Hnew. unfold check_year, found. rewrite Hnew.
  destruct (check_never_raises W year) as [v Hv]. rewrite Hv. cbn [bind].
  destruct v as [x |].
  - fold (new_period year x). destruct (float_truthy x).
    + reflexivity.
    + rewrite app_nil_r. reflexivity.
  - rewrite app_nil_r. reflexivity.
Qed.

Lemma found_cases (W : web) (year : Z) :
  found W year = [] \/ exists x, found W year = [new_period year x].
Proof.
  unfold found. destruct (check_renewable_energy_pdf W year) as [[x |] | e];
    auto.
  destruct (float_truthy x); [ right; exists x; reflexivity | auto ].
Qed.

Lemma resolver_result (W : web) :
  get_renewable_energy_levy W true
  = Ok (levies_hardcoded ++ found W 2026 ++ found W 2027).
Proof.
  unfold get_renewable_energy_levy, years_to_check. cbn [negb check_years].
  rewrite check_year_found by reflexivity. cbn [bind].
  rewrite check_year_found.
  - cbn [bind]. rewrite <- app_assoc. reflexivity.
  - rewrite existsb_app. apply orb_false_iff. split; [ reflexivity | ].
    destruct (found_cases W 2026) as [-> | [x ->]]; reflexivity.
Qed.

Lemma resolver_readable (W : web) (scrape_pdf : bool) (levies : list levy) :
  get_renewable_energy_levy W scrape_pdf = Ok levies -> Forall readable levies.
Proof.
  destruct scrape_pdf.
  - rewrite resolver_result. intros H.
    assert (Heq : levies = levies_hardcoded ++ found W 2026 ++ found W 2027)
      by congruence.
    rewrite Heq. apply Forall_app. split; [ apply hardcoded_readable | ].
    apply Forall_app. split.
    + destruct (found_cases W 2026) as [-> | [x ->]]; repeat constructor.
      apply new_period_readable.
    + destruct (found_cases W 2027) as [-> | [x ->]]; repeat constructor.
      apply new_period_readable.
  - cbn. intros H. injection H as <-. apply hardcoded_readable.
Qed.

(** C6, as amended.  The check of one year never raises: a failure of the
    request, a status other than 200, a failure of the PDF reader on the
    file or on a page, and a text that neither pattern matches all make it
    return [None].  The resolver returns the known periods followed, for
    2026 and then for 2027 independently of each other, by a period from
    that year's May to the next year's May when the check returned a price
    that is not zero; a price of zero adds nothing. *)
Theorem levy_resolver_recovers (W : web) :
  (forall year, exists v, check_renewable_energy_pdf W year = Ok v)
  /\ (forall year e,
         requests_get W (pdf_url year) = Raise e ->
         check_renewable_energy_pdf W year = Ok None)
  /\ (forall year r,
         requests_get W (pdf_url year) = Ok r -> status_code r <> 200 ->
         check_renewable_energy_pdf W year = Ok None)
  /\ (forall year r e,
         requests_get W (pdf_url year) = Ok r ->
         pdf_pages W (content r) = Raise e ->
         check_renewable_energy_pdf W year = Ok None)
  /\ (forall year r pages e,
         requests_get W (pdf_url year) = Ok r ->
         pdf_pages W (content r) = Ok pages -> In (Raise e) pages ->
         check_renewable_energy_pdf W year = Ok None)
  /\ (forall year r pages text,
         requests_get W (pdf_url year) = Ok r ->
         pdf_pages W (content r) = Ok pages ->
         extract_pages [] pages = Ok text ->
         re_search unit_price_re (searched_text text) = None ->
         re_search levy_re (searched_text text) = None ->
         check_renewable_energy_pdf W year = Ok None)
  /\ get_renewable_energy_levy W true
     = Ok (levies_hardcoded ++ found W 2026 ++ found W 2027)
  /\ (forall year x,
         check_renewable_energy_pdf W year = Ok (Some x) ->
         float_truthy x = true ->
         found W year
         = [ {| start := str_of_int year ++ py "-05";
                end_ := str_of_int (year + 1) ++ py "-05";
                price := x |} ])
  /\ (forall year x,
         check_renewable_energy_pdf W year = Ok (Some x) ->
         float_truthy x = false -> found W year = [])
  /\ (forall year,
         check_renewable_energy_pdf W year = Ok None -> found W year = [])
  /\ get_renewable_energy_levy W false = Ok levies_hardcoded.
Proof.
  split; [ intros year; apply check_never_raises | ].
  split.
  { intros year e H. unfold check_renewable_energy_pdf. rewrite H. reflexivity. }
  split.
  { intros year r H Hs. unfold check_renewable_energy_pdf. rewrite H.
    cbn [bind]. apply Z.eqb_neq in Hs. rewrite Hs. reflexivity. }
  split.
  { intros year r e H Hp. unfold check_renewable_energy_pdf. rewrite H.
    cbn [bind]. destruct (status_code r =? 200); [ | reflexivity ].
    rewrite Hp. reflexivity. }
  split.
  { intros year r pages e H Hp Hin. unfold check_renewable_energy_pdf.
    rewrite H. cbn [bind]. destruct (status_code r =? 200); [ | reflexivity ].
    rewrite Hp. cbn [bind].
    destruct (extract_pages_raise pages [] e Hin) as [e' He']. rewrite He'.
    reflexivity. }
  split.
  { intros year r pages text H Hp Ht H1 H2. unfold check_renewable_energy_pdf.
    rewrite H. cbn [bind]. destruct (status_code r =? 200); [ | reflexivity ].
    rewrite Hp. cbn [bind]. rewrite Ht. cbn [bind].
    fold (searched_text text). rewrite H1, H2. reflexivity. }
  split; [ apply resolver_result | ].
  split.
  { intros year x H Hx. unfold found. rewrite H, Hx. reflexivity. }
  split.
  { intros year x H Hx. unfold found. rewrite H, Hx. reflexivity. }
  split.
  { intros year H. unfold found. rewrite H. reflexivity. }
  reflexivity.
Qed.

(** ** [get_current_rates]: the two lookups *)

Lemma get_current_rates_levy (today : date) (fuel_data : list entry)
  (levy_data : list levy) (v : option Q) :
  levy_loop (date_year today * 100 + date_month today) levy_data = Ok v ->
  get_current_rates today fuel_data levy_data
  = Ok {| rates_year := date_year today;
          rates_month := date_month today;
          rates_date_iso := isoformat today;
          fuel_adjustment :=
            option_map price_kwh
              (find (fun e => (year e =? date_year today)
                              && (month e =? date_month today)) fuel_data);
          renewable_energy_levy := v |}.
Proof.
  intros H. unfold get_current_rates. rewrite H. reflexivity.
Qed.

Lemma fuel_lookup (y m : Z) (fuel_data : list entry) :
  (forall v,
      option_map price_kwh
        (find (fun e => (year e =? y) && (month e =? m)) fuel_data) = Some v ->
      exists e, In e fuel_data /\ year e = y /\ month e = m /\ price_kwh e = v)
  /\ (option_map price_kwh
        (find (fun e => (year e =? y) && (month e =? m)) fuel_data) = None ->
      forall e, In e fuel_data -> ~ (year e = y /\ month e = m)).
Proof.
  destruct (find (fun e => (year e =? y) && (month e =? m)) fuel_data)
    as [e |] eqn:Hfind; cbn [option_map]; split.
  - intros v Hv. injection Hv as <-.
    apply find_some in Hfind. destruct Hfind as [Hin Hmatch]. bools.
    exists e. auto.
  - discriminate.
  - discriminate.
  - intros _ e Hin [Hy Hm].
    pose proof (find_none _ _ Hfind e Hin) as Hno. cbv beta in Hno.
    rewrite Hy, Hm, !Z.eqb_refl in Hno. discriminate.
Qed.

(** C4.  With today's year and month, [get_current_rates] reports as
    [fuel_adjustment] the price of an entry of that very year and month and
    as [renewable_energy_levy] the price of a period whose range of months,
    ends included and months numbered year*100+month, holds today's month;
    where no entry or no period matches it reports [None] and still returns.
    The periods are taken to read as year-month pairs, which those of
    [get_renewable_energy_levy] do.  For July 2025 and the periods
    2024-05..2025-04 at 3.49 and 2025-05..2026-05 at 3.98 the levy is 3.98. *)
Theorem current_rate_selection (today : date) (fuel_data : list entry)
  (levy_data : list levy) :
  (Forall readable levy_data ->
   exists r,
     get_current_rates today fuel_data levy_data = Ok r
     /\ rates_year r = date_year today
     /\ rates_month r = date_month today
     /\ (forall v,
            fuel_adjustment r = Some v ->
            exists e,
              In e fuel_data /\ year e = date_year today
              /\ month e = date_month today /\ price_kwh e = v)
     /\ (fuel_adjustment r = None ->
         forall e,
           In e fuel_data ->
           ~ (year e = date_year today /\ month e = date_month today))
     /\ (forall v,
            renewable_energy_levy r = Some v ->
            exists p,
              In p levy_data
              /\ covers p (date_year today) (date_month today) /\ price p = v)
     /\ (renewable_energy_levy r = None ->
         forall p,
           In p levy_data -> ~ covers p (date_year today) (date_month today)))
  /\ (forall W scrape_pdf levies,
         get_renewable_energy_levy W scrape_pdf = Ok levies ->
         Forall readable levies)
  /\ (exists r,
         get_current_rates
           {| date_year := 2025; date_month := 7; date_day := 1 |} fuel_data
           [ {| start := py "2024-05"; end_ := py "2025-04";
                price := float_lit 3.49 |};
             {| start := py "2025-05"; end_ := py "2026-05";
                price := float_lit 3.98 |} ]
         = Ok r
         /\ renewable_energy_levy r = Some (float_lit 3.98)).
Proof.
  split; [ | split ].
  - intros Hread.
    set (y := date_year today). set (m := date_month today).
    destruct (fuel_lookup y m fuel_data) as [Hsome Hnone].
    destruct (first_cover_or_none levy_data y m Hread)
      as [(pre & p & post & Heq & Hp & Hpre) | Hno].
    + assert (Hpre_read : Forall readable pre).
      { rewrite Heq in Hread. apply Forall_app in Hread. tauto. }
      eexists. split.
      { apply get_current_rates_levy. fold y m. rewrite Heq.
        apply levy_loop_first; assumption. }
      cbn [rates_year rates_month fuel_adjustment renewable_energy_levy].
      repeat split; try assumption.
      * intros v Hv. injection Hv as <-. exists p.
        split; [ rewrite Heq; apply in_elt | auto ].
      * discriminate.
    + eexists. split.
      { apply get_current_rates_levy. fold y m.
        apply levy_loop_none; assumption. }
      cbn [rates_year rates_month fuel_adjustment renewable_energy_levy].
      repeat split; try assumption.
      * discriminate.
      * intros _. exact Hno.
  - apply resolver_readable.
  - eexists. split; [ reflexivity | reflexivity ].
Qed.

(** C10.  When several periods cover today's month, [get_current_rates]
    reports the price of the first of them in the order of the list,
    whatever follows it.  This happens for May 2026 once the resolver has
    found the notice of 2026: the known period 2025-05..2026-05 and the new
    period 2026-05..2027-05 both cover that month, and the levy reported is
    that of the known period, 3.98, which comes first. *)
Theorem first_matching_period_wins (today : date) (fuel_data : list entry) :
  (forall pre p post,
      Forall readable pre ->
      (forall q, In q pre -> ~ covers q (date_year today) (date_month today)) ->
      covers p (date_year today) (date_month today) ->
      exists r,
        get_current_rates today fuel_data (pre ++ p :: post) = Ok r
        /\ renewable_energy_levy r = Some (price p))
  /\ (forall W x day,
         found W 2026 = [new_period 2026 x] ->
         exists levies known r,
           get_renewable_energy_levy W true = Ok levies
           /\ nth_error levies 1 = Some known
           /\ nth_error levies 2 = Some (new_period 2026 x)
           /\ end_ known = py "2026-05"
           /\ start (new_period 2026 x) = py "2026-05"
           /\ covers known 2026 5
           /\ covers (new_period 2026 x) 2026 5
           /\ get_current_rates
                {| date_year := 2026; date_month := 5; date_day := day |}
                fuel_data levies = Ok r
           /\ renewable_energy_levy r = Some (price known)
           /\ price known = float_lit 3.98).
Proof.
  split.
  - intros pre p post Hread Hno Hp. eexists. split.
    + apply get_current_rates_levy. apply levy_loop_first; assumption.
    + reflexivity.
  - intros W x day Hfound.
    exists (levies_hardcoded ++ found W 2026 ++ found W 2027).
    exists {| start := py "2025-05"; end_ := py "2026-05";
              price := float_lit 3.98 |}.
    eexists.
    split; [ apply resolver_result | ].
    rewrite Hfound.
    split; [ reflexivity | ]. split; [ reflexivity | ].
    split; [ reflexivity | ]. split; [ reflexivity | ].
    split; [ exists 2025, 5, 2026, 5; repeat split; (reflexivity || lia) | ].
    split; [ exists 2026, 5, 2027, 5; repeat split; (reflexivity || lia) | ].
    split; [ apply get_current_rates_levy; reflexivity | ].
    split; reflexivity.
Qed.

(** ** [scrape_tepco_rates]: discovery *)

(** Discovery failures are final: without the section or without a table in
    it [scrape_tepco_rates] raises and returns no list, and [main] ends with
    status 1. *)
Lemma discovery_failure_raises (soup : node) :
  (find_target_div (soup, []) = Ok None ->
   scrape_tepco_rates soup = Raise section_error)
  /\ (forall target_div,
         find_target_div (soup, []) = Ok (Some target_div) ->
         find_tag (py "table") target_div = None ->
         scrape_tepco_rates soup = Raise table_error)
  /\ (forall e,
         find_target_div (soup, []) = Raise e ->
         e = none_find_parent /\ scrape_tepco_rates soup = Raise e)
  /\ (forall entries,
         scrape_tepco_rates soup = Ok entries ->
         exists target_div table,
           find_target_div (soup, []) = Ok (Some target_div)
           /\ find_tag (py "table") target_div = Some table
           /\ scrape_rows (table_rows table) = Ok entries)
  /\ (forall W today scrape_pdf e,
         scrape_tepco_rates soup = Raise e ->
         main W today soup scrape_pdf = Exit1 e).
Proof.
  split; [ intros H; unfold scrape_tepco_rates; rewrite H; reflexivity | ].
  split.
  { intros d H Ht. unfold scrape_tepco_rates. rewrite H. cbn [bind].
    rewrite Ht. reflexivity. }
  split.
  { intros e H.
    split; [ | unfold scrape_tepco_rates; rewrite H; reflexivity ].
    unfold find_target_div in H.
    destruct (find_by_id _ _ _); [ discriminate | ].
    destruct (find _ _) as [a |]; [ | discriminate ].
    destruct (find_parent _ _ a); [ discriminate | ].
    injection H as <-. reflexivity. }
  split.
  { intros entries H. unfold scrape_tepco_rates in H.
    destruct (find_target_div (soup, [])) as [[d |] | e]; cbn [bind] in H;
      try discriminate.
    destruct (find_tag (py "table") d) as [table |] eqn:Ht; [ | discriminate ].
    exists d, table. auto. }
  intros W today scrape_pdf e H. unfold main. rewrite H. reflexivity.
Qed.

(** The primary lookup finds nothing in a document without a [div] of id
    [anker01], and the fallback nothing in one without a link naming the
    section. *)
Lemma no_section_no_link (soup : node) :
  (forall d, In d (descendants [] soup) ->
             has_name (py "div") (fst d) && has_id (py "anker01") (fst d) = false) ->
  (forall a, In a (descendants [] soup) ->
             has_name (py "a") (fst a) = true ->
             str_in (py "燃料費調整単価（低圧）") (text_of (fst a)) = false) ->
  scrape_tepco_rates soup = Raise section_error.
Proof.
  intros Hdiv Hlink.
  apply (proj1 (discovery_failure_raises soup)).
  unfold find_target_div, find_by_id, find_all. cbn [fst snd].
  assert (Hnone :
            filter (fun d => has_name (py "div") (fst d)
                             && has_id (py "anker01") (fst d))
              (descendants [] soup) = []).
  { induction (descendants [] soup) as [| d l IH]; [ reflexivity | ].
    cbn [filter]. rewrite (Hdiv d) by (left; reflexivity).
    apply IH.
    - intros d' Hin. apply Hdiv. right. assumption.
    - intros a Hin. apply Hlink. right. assumption. }
  rewrite Hnone. cbn [hd_error].
  destruct (find _ _) as [a |] eqn:Hfind; [ | reflexivity ].
  apply find_some in Hfind. destruct Hfind as [Hin Ha].
  apply filter_In in Hin. destruct Hin as [Hin Hname].
  rewrite (Hlink a Hin Hname) in Ha. discriminate.
Qed.

(** C5, on a document whose fallback link has no enclosing
    [div class="question"]: the document has no [div] of id [anker01] and no
    table, so the section cannot be located, yet what is raised is not the
    [ValueError] that names the missing section but the [AttributeError] of
    calling [find_parent] on [None]; [main] ends with status 1 on it. *)
Theorem fallback_link_without_question_div :
  find_by_id (py "div") (py "anker01") (link_only_document, []) = None
  /\ find_tag (py "table") (link_only_document, []) = None
  /\ scrape_tepco_rates link_only_document
     = Raise (AttributeError "'NoneType' object has no attribute 'find_parent'")
  /\ scrape_tepco_rates link_only_document <> Raise section_error
  /\ (forall W today scrape_pdf,
         main W today link_only_document scrape_pdf
         = Exit1 (AttributeError "'NoneType' object has no attribute 'find_parent'")).
Proof.
  split; [ reflexivity | ]. split; [ reflexivity | ].
  assert (H : scrape_tepco_rates link_only_document = Raise none_find_parent)
    by reflexivity.
  split; [ exact H | ]. split; [ rewrite H; discriminate | ].
  intros W today scrape_pdf.
  apply (proj2 (proj2 (proj2 (proj2 (discovery_failure_raises _))))). exact H.
Qed.

(** ** [scrape_tepco_rates]: rows *)

Lemma str_in_occurs (needle hay : str) :
  str_in needle hay = true <-> exists pre post, hay = pre ++ needle ++ post.
Proof.
  assert (Hsw : forall p s, startswith p s = true <-> exists post, s = p ++ post).
  { induction p as [| c p IH]; intros s.
    - cbn. split; [ intros _; exists s; reflexivity | reflexivity ].
    - destruct s as [| d s]; cbn [startswith].
      + split; [ discriminate | intros [post H]; discriminate ].
      + rewrite andb_true_iff, Z.eqb_eq, IH. split.
        * intros [-> [post ->]]. exists post. reflexivity.
        * intros [post H]. injection H as -> ->. split; [ reflexivity | ].
          exists post. reflexivity. }
  induction hay as [| c hay IH].
  - cbn [str_in]. rewrite orb_false_r, Hsw. split.
    + intros [post H]. exists [], post. assumption.
    + intros [pre [post H]]. destruct pre; [ exists post; assumption | discriminate ].
  - cbn [str_in]. rewrite orb_true_iff, Hsw, IH. split.
    + intros [[post H] | [pre [post H]]].
      * exists [], post. assumption.
      * exists (c :: pre), post. rewrite H. reflexivity.
    + intros [pre [post H]]. destruct pre as [| d pre].
      * left. exists post. assumption.
      * right. injection H as _ H. exists pre, post. assumption.
Qed.

Lemma is_header_markers (row_text : str) :
  is_header row_text = true
  <-> exists marker pre post,
        In marker [py "適用年月"; py "燃料費調整単価"; py "円/kWh"]
        /\ row_text = pre ++ marker ++ post.
Proof.
  unfold is_header. rewrite !orb_true_iff, !str_in_occurs. split.
  - intros [[(pre & post & H) | (pre & post & H)] | (pre & post & H)].
    + exists (py "適用年月"), pre, post. cbn [In]. auto.
    + exists (py "燃料費調整単価"), pre, post. cbn [In]. auto.
    + exists (py "円/kWh"), pre, post. cbn [In]. auto.
  - intros (marker & pre & post & Hin & H). cbn [In] in Hin.
    destruct Hin as [<- | [<- | [<- | []]]]; eauto.
Qed.

Lemma process_row_skipped (current_year : option Z) (cols : row) :
  skipped cols -> process_row current_year cols = Ok (current_year, None).
Proof.
  intros [-> | [Hh | [H3 H4]]]; [ reflexivity | | ].
  - unfold process_row. destruct cols; [ reflexivity | ]. rewrite Hh. reflexivity.
  - unfold process_row. destruct cols as [| c cols']; [ reflexivity | ].
    destruct (is_header _); [ reflexivity | ].
    apply Nat.eqb_neq in H3. apply Nat.eqb_neq in H4. rewrite H3, H4.
    reflexivity.
Qed.

Lemma process_row_four (current_year : option Z) (c0 c1 c2 c3 : str) :
  is_header (List.concat [c0; c1; c2; c3]) = false ->
  process_row current_year [c0; c1; c2; c3]
  = (y <- parse_year c0 ;;
     m <- parse_month c1 ;;
     e <- emit [c0; c1; c2; c3] y m 3 ;;
     Ok (y, e))%py.
Proof. intros H. unfold process_row. rewrite H. reflexivity. Qed.

Lemma process_row_three (current_year : option Z) (c0 c1 c2 : str) :
  is_header (List.concat [c0; c1; c2]) = false ->
  process_row current_year [c0; c1; c2]
  = (m <- parse_month c0 ;;
     e <- emit [c0; c1; c2] current_year m 2 ;;
     Ok (current_year, e))%py.
Proof. intros H. unfold process_row. rewrite H. reflexivity. Qed.

Lemma emit_nothing (cols : row) (y m : option Z) (i : nat) :
  int_truthy y && int_truthy m = false -> emit cols y m i = Ok None.
Proof.
  intros H. unfold emit. destruct y as [yv |], m as [mv |]; try reflexivity.
  rewrite H. reflexivity.
Qed.

Lemma emit_entry (cols : row) (yv mv : Z) (i : nat) :
  yv <> 0 -> mv <> 0 ->
  emit cols (Some yv) (Some mv) i
  = (p <- parse_price (cell cols i) ;; Ok (Some (entry_of yv mv p)))%py.
Proof.
  intros Hy Hm. unfold emit, int_truthy.
  apply Z.eqb_neq in Hy. apply Z.eqb_neq in Hm. rewrite Hy, Hm. reflexivity.
Qed.

(** C1.  A row without cells, a row whose joined cell texts hold one of the
    header markers, and a row with a number of cells other than 3 and 4 add
    no entry and leave the loop as it was.  A row of four cells takes the
    year from cell 0 and the month from cell 1, and a row of three cells
    takes the month from cell 0 and keeps the year carried so far; when year
    and month are both there and not zero, the entry has the price read from
    cell 3, respectively cell 2, and otherwise no entry is added. *)
Theorem row_classification (current_year : option Z) (cols : row) :
  (skipped cols ->
   process_row current_year cols = Ok (current_year, None)
   /\ forall rest entries,
        rows_loop (cols :: rest) current_year entries
        = rows_loop rest current_year entries)
  /\ (is_header (List.concat cols) = true
      <-> exists marker pre post,
            In marker [py "適用年月"; py "燃料費調整単価"; py "円/kWh"]
            /\ List.concat cols = pre ++ marker ++ post)
  /\ (forall c0 c1 c2 c3,
         cols = [c0; c1; c2; c3] -> is_header (List.concat cols) = false ->
         exists y m,
           parse_year c0 = Ok y /\ parse_month c1 = Ok m
           /\ (int_truthy y && int_truthy m = false ->
               process_row current_year cols = Ok (y, None))
           /\ (forall yv mv,
                  y = Some yv -> m = Some mv -> yv <> 0 -> mv <> 0 ->
                  process_row current_year cols
                  = (p <- parse_price c3 ;;
                     Ok (Some yv, Some (entry_of yv mv p)))%py))
  /\ (forall c0 c1 c2,
         cols = [c0; c1; c2] -> is_header (List.concat cols) = false ->
         exists m,
           parse_month c0 = Ok m
           /\ (int_truthy current_year && int_truthy m = false ->
               process_row current_year cols = Ok (current_year, None))
           /\ (forall yv mv,
                  current_year = Some yv -> m = Some mv -> yv <> 0 -> mv <> 0 ->
                  process_row current_year cols
                  = (p <- parse_price c2 ;;
                     Ok (current_year, Some (entry_of yv mv p)))%py)).
Proof.
  split.
  { intros Hs. split; [ apply process_row_skipped; assumption | ].
    intros rest entries. cbn [rows_loop].
    rewrite (process_row_skipped _ _ Hs). reflexivity. }
  split; [ apply is_header_markers | ].
  split.
  - intros c0 c1 c2 c3 -> Hh.
    assert (Hy : exists y, parse_year c0 = Ok y).
    { destruct (parse_year_total c0) as [H | [y [H _]]]; eauto. }
    assert (Hm : exists m, parse_month c1 = Ok m).
    { destruct (parse_month_total c1) as [H | [m [H _]]]; eauto. }
    destruct Hy as [y Hy]. destruct Hm as [m Hm].
    exists y, m. split; [ assumption | split; [ assumption | ] ].
    rewrite (process_row_four _ _ _ _ _ Hh), Hy, Hm. cbn [bind]. split.
    + intros Hf. rewrite (emit_nothing _ _ _ _ Hf). reflexivity.
    + intros yv mv -> -> Hyv Hmv. rewrite (emit_entry _ _ _ _ Hyv Hmv).
      change (cell [c0; c1; c2; c3] 3) with c3.
      destruct (parse_price c3); reflexivity.
  - intros c0 c1 c2 -> Hh.
    assert (Hm : exists m, parse_month c0 = Ok m).
    { destruct (parse_month_total c0) as [H | [m [H _]]]; eauto. }
    destruct Hm as [m Hm].
    exists m. split; [ assumption | ].
    rewrite (process_row_three _ _ _ _ Hh), Hm. cbn [bind]. split.
    + intros Hf. rewrite (emit_nothing _ _ _ _ Hf). reflexivity.
    + intros yv mv -> -> Hyv Hmv. rewrite (emit_entry _ _ _ _ Hyv Hmv).
      change (cell [c0; c1; c2] 2) with c2.
      destruct (parse_price c2); reflexivity.
Qed.

Lemma row_cases (cols : row) : skipped cols \/ year_row cols \/ month_row cols.
Proof.
  unfold skipped, year_row, month_row.
  destruct (is_header (List.concat cols)) eqn:Hh; [ auto | ].
  destruct (Nat.eq_dec (List.length cols) 4) as [H4 | H4]; [ auto | ].
  destruct (Nat.eq_dec (List.length cols) 3) as [H3 | H3]; [ auto | ].
  left. right. right. auto.
Qed.

Lemma skipped_not_year_row (cols : row) : skipped cols -> ~ year_row cols.
Proof.
  intros [-> | [Hh | [H3 H4]]] [Hlen Hno].
  - discriminate.
  - congruence.
  - contradiction.
Qed.

Lemma month_row_not_year_row (cols : row) : month_row cols -> ~ year_row cols.
Proof. intros [H3 _] [H4 _]. congruence. Qed.

(** What one turn of the loop does to the year carried and what it emits. *)
Lemma process_row_shape (current_year next_year : option Z) (cols : row)
  (oe : option entry) :
  process_row current_year cols = Ok (next_year, oe) ->
  ((~ year_row cols /\ next_year = current_year)
   \/ (year_row cols /\ parse_year (cell cols 0) = Ok next_year))
  /\ (forall e,
         oe = Some e ->
         next_year = Some (year e) /\ year e <> 0 /\ 1 <= month e <= 99).
Proof.
  intros H.
  destruct (row_cases cols) as [Hs | [Hy | Hm]].
  - rewrite (process_row_skipped _ _ Hs) in H. injection H as <- <-.
    split; [ left; split; [ apply skipped_not_year_row; assumption | reflexivity ] | ].
    discriminate.
  - pose proof Hy as [Hlen Hh].
    destruct cols as [| c0 [| c1 [| c2 [| c3 [| c4 cols']]]]]; try discriminate.
    rewrite (process_row_four _ _ _ _ _ Hh) in H.
    destruct (parse_year_total c0) as [Hpy | [y [Hpy Hby]]];
      destruct (parse_month_total c1) as [Hpm | [m [Hpm Hbm]]];
      rewrite Hpy, Hpm in H; cbn [bind] in H.
    + cbn in H. injection H as <- <-. split; [ right; auto | discriminate ].
    + cbn in H. injection H as <- <-. split; [ right; auto | discriminate ].
    + cbn in H. injection H as <- <-. split; [ right; auto | discriminate ].
    + destruct (Z.eq_dec y 0) as [-> | Hy0];
        [ cbn in H; injection H as <- <-; split; [ right; auto | discriminate ] | ].
      destruct (Z.eq_dec m 0) as [-> | Hm0].
      * rewrite emit_nothing in H
          by (unfold int_truthy; rewrite Z.eqb_refl, andb_false_r; reflexivity).
        cbn in H. injection H as <- <-. split; [ right; auto | discriminate ].
      * rewrite (emit_entry _ _ _ _ Hy0 Hm0) in H.
        destruct (parse_price _) as [p | err]; cbn [bind] in H; [ | discriminate ].
        injection H as <- <-. split; [ right; auto | ].
        intros e He. injection He as <-. cbn. repeat split; (assumption || lia).
  - pose proof Hm as [Hlen Hh].
    destruct cols as [| c0 [| c1 [| c2 [| c3 cols']]]]; try discriminate.
    rewrite (process_row_three _ _ _ _ Hh) in H.
    assert (Hkeep : ~ year_row [c0; c1; c2])
      by (apply month_row_not_year_row; assumption).
    destruct (parse_month_total c0) as [Hpm | [m [Hpm Hbm]]];
      rewrite Hpm in H; cbn [bind] in H.
    + rewrite emit_nothing in H
        by (destruct current_year; [ apply andb_false_r | reflexivity ]).
      cbn in H. injection H as <- <-.
      split; [ left; split; [ exact Hkeep | reflexivity ] | discriminate ].
    + destruct current_year as [y |].
      * destruct (Z.eq_dec y 0) as [-> | Hy0];
          [ cbn in H; injection H as <- <-;
            split; [ left; split; [ exact Hkeep | reflexivity ] | discriminate ] | ].
        destruct (Z.eq_dec m 0) as [-> | Hm0].
        -- rewrite emit_nothing in H
             by (unfold int_truthy; rewrite Z.eqb_refl, andb_false_r; reflexivity).
           cbn in H. injection H as <- <-.
           split; [ left; split; [ exact Hkeep | reflexivity ] | discriminate ].
        -- rewrite (emit_entry _ _ _ _ Hy0 Hm0) in H.
           destruct (parse_price _) as [p | err]; cbn [bind] in H; [ | discriminate ].
           injection H as <- <-.
           split; [ left; split; [ exact Hkeep | reflexivity ] | ].
           intros e He. injection He as <-. cbn. repeat split; (assumption || lia).
      * cbn in H. injection H as <- <-.
        split; [ left; split; [ exact Hkeep | reflexivity ] | discriminate ].
Qed.

Lemma rows_loop_step (cols : row) (rest : list row) (current_year : option Z)
  (acc entries : list entry) :
  rows_loop (cols :: rest) current_year acc = Ok entries ->
  exists next_year oe,
    process_row current_year cols = Ok (next_year, oe)
    /\ rows_loop rest next_year (append_entry acc oe) = Ok entries.
Proof.
  cbn [rows_loop]. destruct (process_row current_year cols) as [[ny oe] | err];
    cbn [bind]; [ | discriminate ].
  intros H. exists ny, oe. auto.
Qed.

(** The last year row of a list of rows is one row at one place. *)
Lemma last_year_row_unique (b1 b2 : list row) (h1 h2 : row) (m1 m2 : list row) :
  b1 ++ h1 :: m1 = b2 ++ h2 :: m2 ->
  year_row h1 -> year_row h2 ->
  Forall (fun r => ~ year_row r) m1 -> Forall (fun r => ~ year_row r) m2 ->
  b1 = b2 /\ h1 = h2 /\ m1 = m2.
Proof.
  revert b2. induction b1 as [| x b1 IH]; intros [| x2 b2] Heq Hy1 Hy2 Hm1 Hm2;
    cbn [app] in Heq.
  - injection Heq as -> ->. auto.
  - exfalso. injection Heq as -> ->.
    apply Forall_app in Hm1. destruct Hm1 as [_ Hm1].
    apply Forall_inv in Hm1. contradiction.
  - exfalso. injection Heq as <- <-.
    apply Forall_app in Hm2. destruct Hm2 as [_ Hm2].
    apply Forall_inv in Hm2. contradiction.
  - injection Heq as -> Heq.
    destruct (IH b2 Heq Hy1 Hy2 Hm1 Hm2) as (-> & -> & ->). auto.
Qed.

Lemma carried_unique (rows : list row) (y y' : Z) :
  carried_from rows y -> carried_from rows y' -> y = y'.
Proof.
  intros (b1 & h1 & m1 & -> & [Hy1 Hp1] & Hm1) (b2 & h2 & m2 & Heq & [Hy2 Hp2] & Hm2).
  destruct (last_year_row_unique _ _ _ _ _ _ Heq Hy1 Hy2 Hm1 Hm2) as (_ & <- & _).
  congruence.
Qed.

Lemma carried_nil (y : Z) : ~ carried_from [] y.
Proof.
  intros (b & h & m & Heq & _). destruct b; discriminate Heq.
Qed.

(** A row that is no year row leaves the year in force as it was. *)
Lemma carried_snoc_other (done : list row) (cols : row) (y : Z) :
  ~ year_row cols ->
  (carried_from (done ++ [cols]) y <-> carried_from done y).
Proof.
  intros Hno. split.
  - intros (b & h & m & Heq & Hd & Hm).
    destruct (exists_last (l := h :: m)) as (l' & x & Hl); [ discriminate | ].
    assert (Hx : done = b ++ l' /\ cols = x).
    { apply app_inj_tail. rewrite <- app_assoc, <- Hl. exact Heq. }
    destruct Hx as [-> <-].
    destruct l' as [| h' m'].
    + exfalso. cbn [app] in Hl. injection Hl as <- ->.
      apply Hno. apply Hd.
    + cbn [app] in Hl. injection Hl as <- ->.
      exists b, h, m'. split; [ reflexivity | split; [ exact Hd | ] ].
      apply Forall_app in Hm. apply Hm.
  - intros (b & h & m & -> & Hd & Hm).
    exists b, h, (m ++ [cols]).
    split; [ rewrite <- app_assoc; reflexivity | split; [ exact Hd | ] ].
    apply Forall_app. split; [ exact Hm | ].
    constructor; [ exact Hno | constructor ].
Qed.

(** A year row puts in force the year that it declares, and no year when it
    declares none. *)
Lemma carried_snoc_year (done : list row) (cols : row) (y : Z) :
  year_row cols ->
  (carried_from (done ++ [cols]) y <-> parse_year (cell cols 0) = Ok (Some y)).
Proof.
  intros Hyr. split.
  - intros (b & h & m & Heq & [Hh Hp] & Hm).
    assert (Hsame : h = cols).
    { symmetry in Heq.
      destruct (last_year_row_unique _ _ _ _ _ _ Heq Hh Hyr Hm (Forall_nil _))
        as (_ & H & _).
      exact H. }
    subst h. exact Hp.
  - intros Hp. exists done, cols, [].
    split; [ reflexivity | split; [ split; assumption | constructor ] ].
Qed.

(** The variable [current_year] of the loop holds the year in force. *)
Lemma in_force_step (done : list row) (cols : row)
  (current_year next_year : option Z) :
  (forall y, current_year = Some y <-> carried_from done y) ->
  ((~ year_row cols /\ next_year = current_year)
   \/ (year_row cols /\ parse_year (cell cols 0) = Ok next_year)) ->
  forall y, next_year = Some y <-> carried_from (done ++ [cols]) y.
Proof.
  intros Hinv [[Hno ->] | [Hyr Hparse]] y.
  - rewrite (carried_snoc_other done cols y Hno). apply Hinv.
  - rewrite (carried_snoc_year done cols y Hyr). rewrite Hparse.
    split; [ intros ->; reflexivity | intros H; injection H as ->; reflexivity ].
Qed.

Lemma skipped_not_month_row (cols : row) : skipped cols -> ~ month_row cols.
Proof.
  intros [-> | [Hh | [H3 H4]]] [Hlen Hno].
  - discriminate.
  - congruence.
  - contradiction.
Qed.

(** What [emit] appends, and when it appends nothing. *)
Lemma emit_exact (cols : row) (y m : option Z) (i : nat) (oe : option entry) :
  emit cols y m i = Ok oe ->
  match oe with
  | Some e =>
      exists yv mv p,
        y = Some yv /\ yv <> 0 /\ m = Some mv /\ mv <> 0
        /\ parse_price (cell cols i) = Ok p /\ e = entry_of yv mv p
  | None =>
      ~ exists yv mv, y = Some yv /\ yv <> 0 /\ m = Some mv /\ mv <> 0
  end.
Proof.
  intros H.
  destruct y as [yv |]; [ | ].
  2:{ cbn in H. injection H as <-. intros (yv & mv & Hy & _). discriminate Hy. }
  destruct m as [mv |].
  2:{ cbn in H. injection H as <-. intros (yv' & mv & _ & _ & Hm & _).
      discriminate Hm. }
  destruct (Z.eq_dec yv 0) as [-> | Hy0].
  { cbn in H. injection H as <-.
    intros (yv' & mv' & Hy & Hne & _). injection Hy as <-. contradiction. }
  destruct (Z.eq_dec mv 0) as [-> | Hm0].
  { rewrite emit_nothing in H
      by (unfold int_truthy; rewrite Z.eqb_refl, andb_false_r; reflexivity).
    injection H as <-.
    intros (yv' & mv' & _ & _ & Hm & Hne). injection Hm as <-. contradiction. }
  rewrite (emit_entry _ _ _ _ Hy0 Hm0) in H.
  destruct (parse_price (cell cols i)) as [p | err] eqn:Hp; cbn [bind] in H;
    [ | discriminate ].
  injection H as <-. exists yv, mv, p. auto 10.
Qed.

(** What one turn of the loop appends, in terms of the year in force after
    the turn. *)
Lemma process_row_exact (current_year next_year : option Z) (cols : row)
  (oe : option entry) :
  process_row current_year cols = Ok (next_year, oe) ->
  match oe with
  | Some e =>
      (year_row cols \/ month_row cols)
      /\ exists y m p,
           next_year = Some y /\ y <> 0
           /\ parse_month (month_cell cols) = Ok (Some m) /\ m <> 0
           /\ parse_price (price_cell cols) = Ok p
           /\ e = entry_of y m p
  | None =>
      ~ ((year_row cols \/ month_row cols)
         /\ exists y m,
              next_year = Some y /\ y <> 0
              /\ parse_month (month_cell cols) = Ok (Some m) /\ m <> 0)
  end.
Proof.
  intros H.
  destruct (row_cases cols) as [Hs | [Hy | Hm]].
  - rewrite (process_row_skipped _ _ Hs) in H. injection H as <- <-.
    intros [[Hyr | Hmr] _].
    + exact (skipped_not_year_row cols Hs Hyr).
    + exact (skipped_not_month_row cols Hs Hmr).
  - pose proof Hy as [Hlen Hh].
    destruct cols as [| c0 [| c1 [| c2 [| c3 [| c4 cols']]]]]; try discriminate.
    rewrite (process_row_four _ _ _ _ _ Hh) in H.
    destruct (parse_year c0) as [y0 | err] eqn:Hpy; cbn [bind] in H;
      [ | discriminate ].
    destruct (parse_month c1) as [m0 | err] eqn:Hpm; cbn [bind] in H;
      [ | discriminate ].
    destruct (emit [c0; c1; c2; c3] y0 m0 3) as [oe' | err] eqn:He;
      cbn [bind] in H; [ | discriminate ].
    injection H as <- <-.
    pose proof (emit_exact _ _ _ _ _ He) as Hex.
    change (month_cell [c0; c1; c2; c3]) with c1.
    change (price_cell [c0; c1; c2; c3]) with (cell [c0; c1; c2; c3] 3).
    destruct oe' as [e |].
    + destruct Hex as (yv & mv & p & -> & Hy0 & -> & Hm0 & Hp & ->).
      split; [ left; exact Hy | ].
      exists yv, mv, p. rewrite Hpm. auto 10.
    + intros [_ (yv & mv & Hyv & Hy0 & Hmv & Hm0)].
      apply Hex. exists yv, mv. rewrite Hpm in Hmv.
      injection Hmv as ->. auto 10.
  - pose proof Hm as [Hlen Hh].
    destruct cols as [| c0 [| c1 [| c2 [| c3 cols']]]]; try discriminate.
    rewrite (process_row_three _ _ _ _ Hh) in H.
    destruct (parse_month c0) as [m0 | err] eqn:Hpm; cbn [bind] in H;
      [ | discriminate ].
    destruct (emit [c0; c1; c2] current_year m0 2) as [oe' | err] eqn:He;
      cbn [bind] in H; [ | discriminate ].
    injection H as <- <-.
    pose proof (emit_exact _ _ _ _ _ He) as Hex.
    change (month_cell [c0; c1; c2]) with c0.
    change (price_cell [c0; c1; c2]) with (cell [c0; c1; c2] 2).
    destruct oe' as [e |].
    + destruct Hex as (yv & mv & p & -> & Hy0 & -> & Hm0 & Hp & ->).
      split; [ right; exact Hm | ].
      exists yv, mv, p. rewrite Hpm. auto 10.
    + intros [_ (yv & mv & Hyv & Hy0 & Hmv & Hm0)].
      apply Hex. exists yv, mv. rewrite Hpm in Hmv.
      injection Hmv as ->. auto 10.
Qed.

(** What a turn appends, as a list. *)
Lemma append_entry_app (acc : list entry) (oe : option entry) :
  append_entry acc oe = acc ++ match oe with Some e => [e] | None => [] end.
Proof. destruct oe; cbn [append_entry]; [ reflexivity | symmetry; apply app_nil_r ]. Qed.

(** The loop only appends. *)
Lemma rows_loop_extends (todo : list row) (current_year : option Z)
  (acc entries : list entry) :
  rows_loop todo current_year acc = Ok entries ->
  exists later,
    entries = acc ++ later /\ (List.length later <= List.length todo)%nat.
Proof.
  revert current_year acc.
  induction todo as [| cols rest IH]; intros current_year acc Hloop.
  - cbn in Hloop. injection Hloop as <-. exists [].
    split; [ symmetry; apply app_nil_r | cbn; lia ].
  - apply rows_loop_step in Hloop.
    destruct Hloop as (next_year & oe & Hrow & Hloop).
    destruct (IH _ _ Hloop) as (later & -> & Hlen).
    rewrite append_entry_app, <- app_assoc. eexists.
    split; [ reflexivity | ].
    rewrite length_app. destruct oe; cbn [List.length]; lia.
Qed.

(** The loop over the first rows of a table is the first part of the loop
    over the table: it hands over the year in force and the entries so
    far. *)
Lemma loop_prefix (a : list row) :
  forall (done b : list row) (current_year : option Z) (acc entries : list entry),
    rows_loop (a ++ b) current_year acc = Ok entries ->
    (forall y, current_year = Some y <-> carried_from done y) ->
    exists year_after new,
      (forall y, year_after = Some y <-> carried_from (done ++ a) y)
      /\ forall b', rows_loop (a ++ b') current_year acc
                    = rows_loop b' year_after (acc ++ new).
Proof.
  induction a as [| cols a IH]; intros done b current_year acc entries Hloop Hinv.
  - exists current_year, []. rewrite !app_nil_r. split; [ exact Hinv | ].
    intros b'. reflexivity.
  - cbn [app] in Hloop. apply rows_loop_step in Hloop.
    destruct Hloop as (next_year & oe & Hrow & Hloop).
    destruct (process_row_shape _ _ _ _ Hrow) as [Hyear _].
    pose proof (in_force_step done cols current_year next_year Hinv Hyear) as Hnext.
    destruct (IH (done ++ [cols]) b next_year (append_entry acc oe) entries
                Hloop Hnext) as (year_after & new & Hafter & Hsame).
    exists year_after, (match oe with Some e => [e] | None => [] end ++ new).
    split.
    + intros y. rewrite (Hafter y), <- app_assoc. reflexivity.
    + intros b'. cbn [app rows_loop]. rewrite Hrow. cbn [bind].
      rewrite Hsame, append_entry_app, <- app_assoc. reflexivity.
Qed.

Lemma loop_same_year (todo : list row) (current_year : option Z)
  (acc entries : list entry) (y : Z) :
  rows_loop todo current_year acc = Ok entries ->
  (forall r, In r todo -> year_row r -> declares r y) ->
  (forall y', current_year = Some y' -> y' = y) ->
  Forall (fun e => year e = y) acc ->
  Forall (fun e => year e = y) entries.
Proof.
  revert current_year acc.
  induction todo as [| cols rest IH]; intros current_year acc Hloop Hsame Hinv Hacc.
  - cbn in Hloop. injection Hloop as <-. exact Hacc.
  - apply rows_loop_step in Hloop.
    destruct Hloop as (next_year & oe & Hrow & Hloop).
    destruct (process_row_shape _ _ _ _ Hrow) as [Hyear Hentry].
    assert (Hnext : forall y', next_year = Some y' -> y' = y).
    { destruct Hyear as [[_ ->] | [Hyr Hparse]]; [ exact Hinv | ].
      intros y' ->.
      destruct (Hsame cols (or_introl eq_refl) Hyr) as [_ Hd]. congruence. }
    apply (IH next_year (append_entry acc oe) Hloop).
    + intros r Hin. apply Hsame. right. exact Hin.
    + exact Hnext.
    + rewrite append_entry_app. apply Forall_app. split; [ exact Hacc | ].
      destruct oe as [e |]; [ | constructor ].
      constructor; [ | constructor ].
      destruct (Hentry e eq_refl) as (Hy & _). apply Hnext. exact Hy.
Qed.

Lemma declares_unique (cols : row) (y y' : Z) :
  declares cols y -> declares cols y' -> y = y'.
Proof. intros [_ H] [_ H']. congruence. Qed.

(** C2.  Take any row of the table.  The loop run over the rows up to and
    including it appends, to what the rows before it gave, at most one
    entry, which stays at that place in the result of the whole table, with
    after it no more entries than there are rows left; and that entry has
    the year declared by the last four-cell data row at or before the row
    (rows skipped as headers declare nothing).  So when every
    four-cell row of the table declares the same year, as in a table that
    alternates rows of four cells declaring 2025 with rows of three cells,
    all entries have that year. *)
Theorem year_carried_forward (rows : list row) (entries : list entry) :
  scrape_rows rows = Ok entries ->
  (forall before cols after,
      rows = before ++ cols :: after ->
      exists earlier here later,
        scrape_rows before = Ok earlier
        /\ scrape_rows (before ++ [cols]) = Ok (earlier ++ here)
        /\ entries = earlier ++ here ++ later
        /\ (List.length later <= List.length after)%nat
        /\ (here = []
            \/ exists e, here = [e] /\ carried_from (before ++ [cols]) (year e)))
  /\ (forall y,
         (forall r, In r rows -> year_row r -> declares r y) ->
         forall e, In e entries -> year e = y).
Proof.
  intros Hscrape. split.
  - intros before cols after ->. unfold scrape_rows in *.
    assert (Hnone : forall y, None = Some y <-> carried_from [] y).
    { intros y. split; [ discriminate | intros H; destruct (carried_nil y H) ]. }
    destruct (loop_prefix before [] (cols :: after) None [] entries Hscrape Hnone)
      as (year_after & earlier & Hafter & Hsame).
    cbn [app] in Hafter, Hsame.
    rewrite Hsame in Hscrape. apply rows_loop_step in Hscrape.
    destruct Hscrape as (next_year & oe & Hrow & Hrest).
    destruct (rows_loop_extends _ _ _ _ Hrest) as (later & Hlater & Hshort).
    exists earlier, (match oe with Some e => [e] | None => [] end), later.
    split.
    { rewrite <- (app_nil_r before) at 1. rewrite Hsame. reflexivity. }
    split.
    { rewrite Hsame. cbn [rows_loop]. rewrite Hrow. cbn [bind].
      rewrite append_entry_app. reflexivity. }
    split.
    { rewrite Hlater, append_entry_app, <- app_assoc. reflexivity. }
    split; [ exact Hshort | ].
    destruct oe as [e |]; [ right | left; reflexivity ].
    exists e. split; [ reflexivity | ].
    destruct (process_row_shape _ _ _ _ Hrow) as [Hyear Hentry].
    destruct (Hentry e eq_refl) as (Hy & _).
    apply (in_force_step before cols year_after next_year Hafter Hyear).
    exact Hy.
  - intros y Hsame e Hin.
    assert (Hall : Forall (fun e => year e = y) entries).
    { apply (loop_same_year rows None [] entries y Hscrape Hsame).
      - discriminate.
      - constructor. }
    rewrite Forall_forall in Hall. apply Hall. exact Hin.
Qed.

Lemma concat_short (per_row : list (list entry)) :
  Forall (fun l => (List.length l <= 1)%nat) per_row ->
  (List.length (List.concat per_row) <= List.length per_row)%nat.
Proof.
  induction 1 as [| l per_row Hl Hrest IH]; [ cbn; lia | ].
  cbn [List.concat List.length]. rewrite length_app. lia.
Qed.

(** The loop appends the entry of each accepted row and nothing else, in
    the order of the rows. *)
Lemma loop_per_row (todo : list row) :
  forall (done : list row) (current_year : option Z) (acc entries : list entry),
    rows_loop todo current_year acc = Ok entries ->
    (forall y, current_year = Some y <-> carried_from done y) ->
    exists per_row,
      List.length per_row = List.length todo
      /\ Forall (fun l => (List.length l <= 1)%nat) per_row
      /\ entries = acc ++ List.concat per_row
      /\ forall before cols after,
           todo = before ++ cols :: after ->
           (exists e, accepted (done ++ before) cols e
                      /\ nth (List.length before) per_row [] = [e])
           \/ ((forall e, ~ accepted (done ++ before) cols e)
               /\ nth (List.length before) per_row [] = []).
Proof.
  induction todo as [| c rest IH]; intros done current_year acc entries Hloop Hinv.
  - cbn in Hloop. injection Hloop as <-. exists [].
    split; [ reflexivity | ]. split; [ constructor | ].
    split; [ symmetry; apply app_nil_r | ].
    intros before cols after H. destruct before; discriminate H.
  - apply rows_loop_step in Hloop.
    destruct Hloop as (next_year & oe & Hrow & Hloop).
    destruct (process_row_shape _ _ _ _ Hrow) as [Hyear _].
    pose proof (in_force_step done c current_year next_year Hinv Hyear) as Hnext.
    destruct (IH (done ++ [c]) next_year (append_entry acc oe) entries Hloop Hnext)
      as (per_row & Hlen & Hshort & Heq & Hrows).
    exists (match oe with Some e => [e] | None => [] end :: per_row).
    split; [ cbn [List.length]; rewrite Hlen; reflexivity | ].
    split.
    { constructor; [ destruct oe; cbn; lia | exact Hshort ]. }
    split.
    { rewrite Heq, append_entry_app, <- app_assoc. reflexivity. }
    intros before cols after Hsplit.
    destruct before as [| b before]; cbn [app] in Hsplit.
    + injection Hsplit as <- <-. rewrite app_nil_r. cbn [List.length nth].
      pose proof (process_row_exact _ _ _ _ Hrow) as Hex.
      destruct oe as [e |].
      * left. exists e. split; [ | reflexivity ].
        destruct Hex as (Hkind & y & m & p & Hy & Hy0 & Hm & Hm0 & Hp & He).
        split; [ exact Hkind | ].
        exists y, m, p. split; [ apply Hnext; exact Hy | auto 10 ].
      * right. split; [ | reflexivity ].
        intros e (Hkind & y & m & p & Hc & Hy0 & Hm & Hm0 & _).
        apply Hex. split; [ exact Hkind | ].
        exists y, m. split; [ apply Hnext; exact Hc | auto 10 ].
    + injection Hsplit as <- Hsplit. cbn [List.length nth].
      replace (done ++ c :: before) with ((done ++ [c]) ++ before)
        by (rewrite <- app_assoc; reflexivity).
      apply (Hrows before cols after Hsplit).
Qed.

Lemma loop_bounds (todo : list row) (current_year : option Z)
  (acc entries : list entry) :
  rows_loop todo current_year acc = Ok entries ->
  (forall y, current_year = Some y -> 0 <= y <= 9999) ->
  Forall (fun e => 1 <= month e <= 99 /\ 1 <= year e <= 9999) acc ->
  Forall (fun e => 1 <= month e <= 99 /\ 1 <= year e <= 9999) entries.
Proof.
  revert current_year acc.
  induction todo as [| cols rest IH]; intros current_year acc Hloop Hinv Hacc.
  - cbn in Hloop. injection Hloop as <-. exact Hacc.
  - apply rows_loop_step in Hloop.
    destruct Hloop as (next_year & oe & Hrow & Hloop).
    destruct (process_row_shape _ _ _ _ Hrow) as [Hyear Hentry].
    assert (Hnext : forall y, next_year = Some y -> 0 <= y <= 9999).
    { destruct Hyear as [[_ ->] | [_ Hparse]]; [ exact Hinv | ].
      intros y ->.
      destruct (parse_year_total (cell cols 0)) as [H | (y' & H & Hb)];
        rewrite H in Hparse; [ discriminate | ].
      injection Hparse as <-. exact Hb. }
    apply (IH next_year (append_entry acc oe) Hloop Hnext).
    destruct oe as [e |]; cbn [append_entry]; [ | exact Hacc ].
    apply Forall_app. split; [ exact Hacc | ].
    constructor; [ | constructor ].
    destruct (Hentry e eq_refl) as (Hy & Hy0 & Hm).
    specialize (Hnext (year e) Hy). lia.
Qed.

Lemma accepted_unique (before : list row) (cols : row) (e e' : entry) :
  accepted before cols e -> accepted before cols e' -> e = e'.
Proof.
  intros (_ & y & m & p & Hy & _ & Hm & _ & Hp & ->)
         (_ & y' & m' & p' & Hy' & _ & Hm' & _ & Hp' & ->).
  rewrite (carried_unique _ _ _ Hy Hy').
  assert (m = m') by congruence. assert (p = p') by congruence.
  subst. reflexivity.
Qed.

(** The account of a table row by row is one list only. *)
Lemma per_row_unique (rows : list row) (per_row per_row' : list (list entry)) :
  one_from_each_accepted_row rows per_row ->
  one_from_each_accepted_row rows per_row' ->
  per_row = per_row'.
Proof.
  intros [Hlen H] [Hlen' H'].
  apply (nth_ext _ _ [] []); [ congruence | ].
  intros n Hn. rewrite Hlen in Hn.
  destruct (nth_split rows [] Hn) as (before & after & Hsplit & Hbefore).
  destruct (H _ _ _ Hsplit) as [(e & Ha & Hnth) | (Hno & Hnth)];
    destruct (H' _ _ _ Hsplit) as [(e' & Ha' & Hnth') | (Hno' & Hnth')];
    rewrite Hbefore in *.
  - rewrite Hnth, Hnth', (accepted_unique _ _ _ _ Ha Ha'). reflexivity.
  - destruct (Hno' e Ha).
  - destruct (Hno e' Ha').
  - rewrite Hnth, Hnth'. reflexivity.
Qed.

(** C8, as amended.  Every entry of a scrape has a month in 1..99 and a
    year in 1..9999, and the entries are those of the accepted rows, one from
    each and none from any other row, in the order of the rows: nothing is
    checked against the calendar and nothing is deduplicated, so a row gives
    its entry also when an earlier row gave one for the same year and
    month.  No other list is made up that way. *)
Theorem entries_bounded_one_per_row (rows : list row) (entries : list entry) :
  scrape_rows rows = Ok entries ->
  Forall (fun e => 1 <= month e <= 99 /\ 1 <= year e <= 9999) entries
  /\ (exists per_row,
         one_from_each_accepted_row rows per_row
         /\ entries = List.concat per_row)
  /\ (List.length entries <= List.length rows)%nat
  /\ (forall per_row,
         one_from_each_accepted_row rows per_row ->
         List.concat per_row = entries).
Proof.
  intros Hscrape.
  assert (Hnone : forall y, None = Some y <-> carried_from [] y).
  { intros y. split; [ discriminate | intros H; destruct (carried_nil y H) ]. }
  destruct (loop_per_row rows [] None [] entries Hscrape Hnone)
    as (per_row & Hlen & Hshort & Heq & Hrows).
  cbn [app] in Heq, Hrows.
  assert (Hone : one_from_each_accepted_row rows per_row)
    by (split; [ exact Hlen | exact Hrows ]).
  split; [ | split; [ | split ] ].
  - apply (loop_bounds rows None [] entries Hscrape).
    + discriminate.
    + constructor.
  - exists per_row. split; [ exact Hone | exact Heq ].
  - rewrite Heq, <- Hlen. apply concat_short. exact Hshort.
  - intros per_row' Hone'.
    rewrite (per_row_unique rows per_row' per_row Hone' Hone). symmetry. exact Heq.
Qed.

Lemma parse_price_cases (text : str) :
  (exists p, parse_price text = Ok p) \/ parse_price text = Raise float_error.
Proof.
  rewrite parse_price_unfold.
  destruct (filter digit_or_dot text) as [| c w]; [ left; eexists; reflexivity | ].
  unfold py_float.
  destruct (str_split 46 (c :: w)) as [| ip [| fp [| x l]]].
  - auto.
  - destruct ip; [ auto | ].
    destruct (digits_value 0 _); [ left; eexists; reflexivity | auto ].
  - destruct (ip ++ fp); [ auto | ].
    destruct (digits_value 0 _); [ left; eexists; reflexivity | auto ].
  - auto.
Qed.

(** A turn of the loop raises only when the price cell does. *)
Lemma process_row_returns (current_year : option Z) (cols : row) :
  Forall (fun c => raises (parse_price c) = false) cols ->
  exists next_year oe, process_row current_year cols = Ok (next_year, oe).
Proof.
  intros Hcells.
  assert (Hprice : forall c, In c cols -> exists p, parse_price c = Ok p).
  { intros c Hin. apply (proj1 (Forall_forall _ _) Hcells) in Hin. cbv beta in Hin.
    destruct (parse_price c) as [p | e]; [ eauto | discriminate ]. }
  destruct (row_cases cols) as [Hs | [[Hlen Hh] | [Hlen Hh]]].
  - rewrite (process_row_skipped _ _ Hs). eauto.
  - destruct cols as [| c0 [| c1 [| c2 [| c3 [| c4 cols']]]]]; try discriminate.
    rewrite (process_row_four _ _ _ _ _ Hh).
    destruct (Hprice c3) as [p Hp]; [ cbn; auto | ].
    destruct (parse_year_total c0) as [Hy | (y & Hy & _)];
      destruct (parse_month_total c1) as [Hm | (m & Hm & _)];
      rewrite Hy, Hm; cbn [bind]; try (cbn; eauto; fail).
    unfold emit. destruct (int_truthy (Some y) && int_truthy (Some m)).
    + change (cell [c0; c1; c2; c3] 3) with c3. rewrite Hp. cbn. eauto.
    + cbn. eauto.
  - destruct cols as [| c0 [| c1 [| c2 [| c3 cols']]]]; try discriminate.
    rewrite (process_row_three _ _ _ _ Hh).
    destruct (Hprice c2) as [p Hp]; [ cbn; auto | ].
    destruct (parse_month_total c0) as [Hm | (m & Hm & _)];
      rewrite Hm; cbn [bind].
    + destruct current_year; cbn; eauto.
    + unfold emit. destruct current_year as [y |]; [ | cbn; eauto ].
      destruct (int_truthy (Some y) && int_truthy (Some m)).
      * change (cell [c0; c1; c2] 2) with c2. rewrite Hp. cbn. eauto.
      * cbn. eauto.
Qed.

(** The scrape of a table returns when no cell makes [parse_price] raise. *)
Lemma scrape_rows_returns (rows : list row) :
  Forall (Forall (fun c => raises (parse_price c) = false)) rows ->
  exists entries, scrape_rows rows = Ok entries.
Proof.
  unfold scrape_rows. generalize (@None Z) (@nil entry).
  induction rows as [| cols rest IH]; intros current_year acc Hrows.
  - exists acc. reflexivity.
  - inversion Hrows as [| ? ? Hcols Hrest]; subst.
    destruct (process_row_returns current_year cols Hcols) as (ny & oe & Hrow).
    cbn [rows_loop]. rewrite Hrow. cbn [bind]. apply IH. assumption.
Qed.


(** ** Pages built from rows *)

Lemma cells_below (parents : list node) (cols : row) (name : str) :
  filter (fun d => has_name name (fst d))
    (flat_map (fun c => (c, parents) :: descendants parents c) (map td cols))
  = if str_eqb (py "td") name then map (fun t => (td t, parents)) cols else [].
Proof.
  induction cols as [| t cols IH].
  - destruct (str_eqb (py "td") name); reflexivity.
  - cbn [map flat_map]. rewrite filter_app, IH.
    cbn [td descendants flat_map app filter fst has_name].
    destruct (str_eqb (py "td") name); reflexivity.
Qed.

Lemma descendants_tr (parents : list node) (cols : row) :
  descendants parents (tr cols)
  = flat_map
      (fun c => (c, tr cols :: parents) :: descendants (tr cols :: parents) c)
      (map td cols).
Proof. reflexivity. Qed.

Lemma rows_below (parents : list node) (rows : list row) :
  filter (fun d => has_name (py "tr") (fst d))
    (flat_map (fun c => (c, parents) :: descendants parents c) (map tr rows))
  = map (fun cols => (tr cols, parents)) rows.
Proof.
  induction rows as [| cols rows IH]; [ reflexivity | ].
  cbn [map flat_map]. rewrite filter_app, IH.
  cbn [filter fst]. change (has_name (py "tr") (tr cols)) with true.
  cbv iota. rewrite descendants_tr, cells_below. reflexivity.
Qed.

Lemma row_cells (parents : list node) (cols : row) :
  map (fun c => text_of (fst c)) (find_all (py "td") (tr cols, parents)) = cols.
Proof.
  unfold find_all. cbn [fst snd].
  rewrite descendants_tr, cells_below.
  change (str_eqb (py "td") (py "td")) with true. cbv iota.
  rewrite map_map. cbn [fst].
  induction cols as [| t cols IH]; [ reflexivity | ].
  cbn [map]. rewrite IH. f_equal.
  cbn [td text_of flat_map]. apply app_nil_r.
Qed.

Lemma find_all_rows (parents : list node) (rows : list row) :
  find_all (py "tr") (table_of rows, parents)
  = map (fun cols => (tr cols, table_of rows :: parents)) rows.
Proof. unfold find_all. cbn [fst snd]. exact (rows_below _ rows). Qed.

Lemma table_rows_of (parents : list node) (rows : list row) :
  table_rows (table_of rows, parents) = rows.
Proof.
  unfold table_rows. rewrite find_all_rows, map_map.
  rewrite <- (map_id rows) at 2. apply map_ext.
  intros cols. apply row_cells.
Qed.

(** Every list of rows is the table of a page, and the scrape of that page
    is the loop over those rows. *)
Lemma scrape_price_document (rows : list row) :
  scrape_tepco_rates (price_document rows) = scrape_rows rows.
Proof.
  unfold scrape_tepco_rates.
  change (find_target_div (price_document rows, []))
    with (Ok (Some (Tag (py "div") (Some (py "anker01")) [] [ table_of rows ],
                    [ price_document rows ]))).
  cbn [bind].
  change (find_tag (py "table")
            (Tag (py "div") (Some (py "anker01")) [] [ table_of rows ],
             [ price_document rows ]))
    with (Some (table_of rows,
                [ Tag (py "div") (Some (py "anker01")) [] [ table_of rows ];
                  price_document rows ])).
  cbv beta iota. rewrite table_rows_of. reflexivity.
Qed.

(** ** Further properties of [parse_price] *)

Lemma digits_value_nonneg (w : str) (acc n : Z) :
  0 <= acc -> digits_value acc w = Some n -> 0 <= n.
Proof.
  intros Hacc H. pose proof (digits_value_bound w acc n Hacc H) as [Hlo _].
  assert (0 < 10 ^ Z.of_nat (List.length w)) by (apply Z.pow_pos_nonneg; lia).
  nia.
Qed.

(** [float] returns no negative number on the strings it is given here. *)
Lemma py_float_nonneg (s : str) (q : Q) : py_float s = Ok q -> (0 <= q)%Q.
Proof.
  unfold py_float.
  destruct (str_split 46 s) as [| ip [| fp [| x l]]]; try discriminate.
  - destruct ip as [| c ip']; [ discriminate | ].
    destruct (digits_value 0 (c :: ip')) as [n |] eqn:Hn; [ | discriminate ].
    intros H. injection H as <-.
    apply digits_value_nonneg in Hn; [ | lia ].
    unfold Qle. cbn. lia.
  - destruct (ip ++ fp) as [| c w] eqn:E; [ discriminate | ].
    destruct (digits_value 0 (c :: w)) as [n |] eqn:Hn; [ | discriminate ].
    intros H.
    assert (Hq : q = Qred (n # Z.to_pos (10 ^ Z.of_nat (List.length fp))))
      by congruence.
    rewrite Hq. clear H Hq.
    apply digits_value_nonneg in Hn; [ | lia ].
    apply (Qle_trans _ (n # Z.to_pos (10 ^ Z.of_nat (List.length fp)))).
    + unfold Qle. cbn. lia.
    + apply Qle_lteq. right. apply Qeq_sym, Qred_correct.
Qed.

Lemma parse_price_ok (text : str) (p : Q) :
  parse_price text = Ok p ->
  (filter digit_or_dot text = [] /\ p = 0%Q)
  \/ (exists amount,
         py_float (filter digit_or_dot text) = Ok amount
         /\ p = signed text amount).
Proof.
  rewrite parse_price_unfold.
  destruct (filter digit_or_dot text) as [| c w] eqn:E.
  - intros H. injection H as <-. left. auto.
  - destruct (py_float (c :: w)) as [amount | e]; [ | discriminate ].
    intros H. injection H as <-. right. exists amount. auto.
Qed.

(** X1.  A price that [parse_price] returns is at most zero when the text
    holds the mark ▲ and at least zero when it does not. *)
Theorem parse_price_sign (text : str) (p : Q) :
  parse_price text = Ok p ->
  (In 9650 text -> (p <= 0)%Q) /\ (~ In 9650 text -> (0 <= p)%Q).
Proof.
  intros H. apply parse_price_ok in H.
  destruct H as [[_ ->] | (amount & Hf & ->)].
  - split; intros _; apply Qle_refl.
  - apply py_float_nonneg in Hf. unfold signed.
    destruct (in_dec Z.eq_dec 9650 text) as [Hin | Hout]; split; intros H.
    + apply (Qopp_le_compat 0 amount) in Hf. exact Hf.
    + contradiction.
    + contradiction.
    + exact Hf.
Qed.

(** X2.  [parse_price] looks at nothing but the ASCII digits and full stops
    of the text, in their order, and at whether the mark ▲ occurs: two
    texts that agree on these give the same result, be it a price or the
    error.  Currency signs, separators, spaces and digits of other scripts
    change nothing. *)
Theorem parse_price_ignores_the_rest (text text' : str) :
  filter digit_or_dot text = filter digit_or_dot text' ->
  (In 9650 text <-> In 9650 text') ->
  parse_price text = parse_price text'.
Proof.
  intros Hkept Hmark. rewrite !parse_price_unfold, <- Hkept.
  destruct (filter digit_or_dot text) as [| c w]; [ reflexivity | ].
  destruct (py_float (c :: w)) as [amount | e]; [ | reflexivity ].
  f_equal. unfold signed.
  destruct (in_dec Z.eq_dec 9650 text) as [H | H],
           (in_dec Z.eq_dec 9650 text') as [H' | H']; tauto.
Qed.

(** ** [clean_text] *)

Lemma lstrip_idem (p : Z -> bool) (s : str) : lstrip p (lstrip p s) = lstrip p s.
Proof.
  induction s as [| c s IH]; [ reflexivity | ].
  cbn [lstrip]. destruct (p c) eqn:E; [ exact IH | ].
  cbn [lstrip]. rewrite E. reflexivity.
Qed.

(** [lstrip] leaves [s] alone exactly when [s] does not start with a
    character of the class. *)
Lemma lstrip_fixed (p : Z -> bool) (s : str) :
  lstrip p s = s <-> (forall c s', s = c :: s' -> p c = false).
Proof.
  destruct s as [| c s]; [ split; [ discriminate | reflexivity ] | ].
  cbn [lstrip]. destruct (p c) eqn:E; split.
  - intros H. exfalso.
    assert (Hlen : forall t, (List.length (lstrip p t) <= List.length t)%nat).
    { induction t as [| x t IHt]; [ cbn; lia | ].
      cbn [lstrip]. destruct (p x); cbn [List.length]; lia. }
    specialize (Hlen s). rewrite H in Hlen. cbn [List.length] in Hlen. lia.
  - intros H. specialize (H c s eq_refl). congruence.
  - intros _ c' s' Heq. injection Heq as <- <-. exact E.
  - reflexivity.
Qed.

(** What [lstrip] returns is a suffix of its argument. *)
Lemma lstrip_suffix (p : Z -> bool) (s : str) :
  exists pre, s = pre ++ lstrip p s.
Proof.
  induction s as [| c s [pre IH]]; [ exists []; reflexivity | ].
  cbn [lstrip]. destruct (p c).
  - exists (c :: pre). cbn [app]. rewrite <- IH. reflexivity.
  - exists []. reflexivity.
Qed.

(** Both ends of a stripped string are outside the class. *)
Lemma strip_fixed_ends (p : Z -> bool) (s : str) :
  lstrip p (strip p s) = strip p s
  /\ lstrip p (List.rev (strip p s)) = List.rev (strip p s).
Proof.
  unfold strip. rewrite rev_involutive. split; [ | apply lstrip_idem ].
  destruct (lstrip_suffix p (List.rev (lstrip p s))) as [pre Hpre].
  set (u := lstrip p (List.rev (lstrip p s))) in *.
  apply lstrip_fixed. intros c s' Heq.
  assert (Ht : lstrip p s = List.rev u ++ List.rev pre).
  { rewrite <- rev_app_distr, <- Hpre, rev_involutive. reflexivity. }
  rewrite Heq in Ht. cbn [app] in Ht.
  apply (proj1 (lstrip_fixed p (lstrip p s)) (lstrip_idem p s) c _ Ht).
Qed.

Lemma strip_when_fixed (p : Z -> bool) (s : str) :
  lstrip p s = s -> lstrip p (List.rev s) = List.rev s -> strip p s = s.
Proof.
  intros H1 H2. unfold strip. rewrite H1, H2. apply rev_involutive.
Qed.

Lemma filter_keeps_fixed (p f : Z -> bool) (s : str) :
  (forall c, f c = false -> p c = true) ->
  lstrip p s = s -> lstrip p (filter f s) = filter f s.
Proof.
  intros Hf Hs. destruct s as [| c s]; [ reflexivity | ].
  pose proof (proj1 (lstrip_fixed p (c :: s)) Hs c s eq_refl) as Hc.
  cbn [filter]. destruct (f c) eqn:E.
  - cbn [lstrip]. rewrite Hc. reflexivity.
  - rewrite (Hf c E) in Hc. discriminate.
Qed.

Lemma str_remove_when_absent (c : Z) (s : str) :
  ~ In c s -> str_remove c s = s.
Proof.
  intros H. unfold str_remove. induction s as [| x s IH]; [ reflexivity | ].
  cbn [filter]. destruct (Z.eqb_spec x c) as [-> | Hne].
  - exfalso. apply H. left. reflexivity.
  - cbn [negb]. rewrite IH; [ reflexivity | ].
    intros Hin. apply H. right. exact Hin.
Qed.

Lemma str_remove_absent (c : Z) (s : str) : ~ In c (str_remove c s).
Proof.
  unfold str_remove. intros H. apply filter_In in H. destruct H as [_ H].
  rewrite Z.eqb_refl in H. discriminate.
Qed.

Lemma str_remove_subset (c x : Z) (s : str) : In x (str_remove c s) -> In x s.
Proof. unfold str_remove. intros H. apply filter_In in H. tauto. Qed.

Lemma removed_is_space (c x : Z) :
  c = 10 \/ c = 13 -> negb (x =? c) = false -> str_space x = true.
Proof.
  intros Hc H. apply negb_false_iff in H. apply Z.eqb_eq in H. subst x.
  destruct Hc as [-> | ->]; reflexivity.
Qed.

Lemma str_remove_keeps_fixed (c : Z) (s : str) :
  c = 10 \/ c = 13 ->
  strip str_space s = s -> strip str_space (str_remove c s) = str_remove c s.
Proof.
  intros Hc Hs.
  assert (Hends : lstrip str_space s = s
                  /\ lstrip str_space (List.rev s) = List.rev s).
  { rewrite <- Hs. apply strip_fixed_ends. }
  destruct Hends as [H1 H2].
  apply strip_when_fixed; unfold str_remove.
  - apply filter_keeps_fixed; [ intros x; apply removed_is_space; exact Hc | exact H1 ].
  - rewrite <- filter_rev.
    apply filter_keeps_fixed; [ intros x; apply removed_is_space; exact Hc | exact H2 ].
Qed.

Lemma strip_strip (p : Z -> bool) (s : str) : strip p (strip p s) = strip p s.
Proof.
  destruct (strip_fixed_ends p s) as [H1 H2]. apply strip_when_fixed; assumption.
Qed.

(** X3.  [clean_text] returns a text without line feed and carriage
    return and without white space at either end; applying it twice is
    applying it once; and the texts it leaves as they are are exactly those
    that are already of that form. *)
Theorem clean_text_normal_form (text : str) :
  ~ In 10 (clean_text text)
  /\ ~ In 13 (clean_text text)
  /\ strip str_space (clean_text text) = clean_text text
  /\ clean_text (clean_text text) = clean_text text
  /\ (clean_text text = text
      <-> ~ In 10 text /\ ~ In 13 text /\ strip str_space text = text).
Proof.
  assert (H10 : ~ In 10 (clean_text text)).
  { unfold clean_text. intros H. apply str_remove_subset in H.
    apply (str_remove_absent 10 _ H). }
  assert (H13 : ~ In 13 (clean_text text)).
  { unfold clean_text. apply str_remove_absent. }
  assert (Hstrip : strip str_space (clean_text text) = clean_text text).
  { unfold clean_text.
    apply str_remove_keeps_fixed; [ auto | ].
    apply str_remove_keeps_fixed; [ auto | ].
    apply strip_strip. }
  assert (Hfix : forall t,
             ~ In 10 t -> ~ In 13 t -> strip str_space t = t -> clean_text t = t).
  { intros t Ha Hb Hc. unfold clean_text.
    rewrite Hc, (str_remove_when_absent 10 t Ha).
    apply str_remove_when_absent. exact Hb. }
  split; [ exact H10 | ]. split; [ exact H13 | ]. split; [ exact Hstrip | ].
  split; [ apply Hfix; assumption | ].
  split.
  - intros H. rewrite <- H. auto.
  - intros (Ha & Hb & Hc). apply Hfix; assumption.
Qed.

(** ** Errors and silent rows of the loop *)

Lemma bind_ok {A B : Type} (c : result A) (k : A -> result B) (v : B) :
  bind c k = Ok v -> exists a, c = Ok a /\ k a = Ok v.
Proof. destruct c as [a | e]; [ intros H; exists a; auto | discriminate ]. Qed.

Lemma bind_raise {A B : Type} (c : result A) (k : A -> result B) (e : exn) :
  bind c k = Raise e -> c = Raise e \/ exists a, c = Ok a /\ k a = Raise e.
Proof.
  destruct c as [a | e']; cbn [bind]; intros H.
  - right. exists a. auto.
  - left. injection H as <-. reflexivity.
Qed.

Lemma parse_year_ok (text : str) : exists y, parse_year text = Ok y.
Proof. destruct (parse_year_total text) as [H | (y & H & _)]; eauto. Qed.

Lemma parse_month_ok (text : str) : exists m, parse_month text = Ok m.
Proof. destruct (parse_month_total text) as [H | (m & H & _)]; eauto. Qed.

Lemma emit_raise (cols : row) (y m : option Z) (i : nat) (e : exn) :
  emit cols y m i = Raise e ->
  e = float_error /\ parse_price (cell cols i) = Raise float_error.
Proof.
  unfold emit. destruct y as [yv |], m as [mv |]; try discriminate.
  destruct (int_truthy (Some yv) && int_truthy (Some mv)); [ | discriminate ].
  destruct (parse_price_cases (cell cols i)) as [[p Hp] | Hp]; rewrite Hp;
    cbn [bind]; [ discriminate | ].
  intros H. injection H as <-. auto.
Qed.

Lemma emit_some (cols : row) (y m : option Z) (i : nat) (e : entry) :
  emit cols y m i = Ok (Some e) ->
  exists yv mv p, y = Some yv /\ m = Some mv /\ e = entry_of yv mv p.
Proof.
  unfold emit. destruct y as [yv |], m as [mv |]; try discriminate.
  destruct (int_truthy (Some yv) && int_truthy (Some mv)); [ | discriminate ].
  destruct (parse_price (cell cols i)) as [p | err]; cbn [bind]; [ | discriminate ].
  intros H. injection H as <-. exists yv, mv, p. auto.
Qed.

Lemma four_cells (cols : row) :
  List.length cols = 4%nat -> exists c0 c1 c2 c3, cols = [c0; c1; c2; c3].
Proof.
  destruct cols as [| c0 [| c1 [| c2 [| c3 [| c4 l]]]]]; try discriminate.
  intros _. exists c0, c1, c2, c3. reflexivity.
Qed.

Lemma three_cells (cols : row) :
  List.length cols = 3%nat -> exists c0 c1 c2, cols = [c0; c1; c2].
Proof.
  destruct cols as [| c0 [| c1 [| c2 [| c3 l]]]]; try discriminate.
  intros _. exists c0, c1, c2. reflexivity.
Qed.

(** A turn of the loop raises only the error of the price cell of a year
    row or of a month row. *)
Lemma process_row_raise (current_year : option Z) (cols : row) (e : exn) :
  process_row current_year cols = Raise e ->
  e = float_error
  /\ ((year_row cols /\ parse_price (cell cols 3) = Raise float_error)
      \/ (month_row cols /\ parse_price (cell cols 2) = Raise float_error)).
Proof.
  intros H.
  destruct (row_cases cols) as [Hs | [Hy | Hm]].
  - rewrite (process_row_skipped _ _ Hs) in H. discriminate.
  - pose proof Hy as [Hlen Hh].
    destruct (four_cells cols Hlen) as (c0 & c1 & c2 & c3 & ->).
    rewrite (process_row_four _ _ _ _ _ Hh) in H.
    destruct (parse_year_ok c0) as [y Hpy]. destruct (parse_month_ok c1) as [m Hpm].
    rewrite Hpy, Hpm in H. cbn [bind] in H.
    apply bind_raise in H. destruct H as [H | (a & _ & H)]; [ | discriminate ].
    apply emit_raise in H. destruct H as [-> H]. auto.
  - pose proof Hm as [Hlen Hh].
    destruct (three_cells cols Hlen) as (c0 & c1 & c2 & ->).
    rewrite (process_row_three _ _ _ _ Hh) in H.
    destruct (parse_month_ok c0) as [m Hpm].
    rewrite Hpm in H. cbn [bind] in H.
    apply bind_raise in H. destruct H as [H | (a & _ & H)]; [ | discriminate ].
    apply emit_raise in H. destruct H as [-> H]. auto.
Qed.

Lemma rows_loop_raise (rows : list row) (current_year : option Z)
  (acc : list entry) (e : exn) :
  rows_loop rows current_year acc = Raise e ->
  e = float_error
  /\ exists pre cols post,
       rows = pre ++ cols :: post
       /\ ((year_row cols /\ parse_price (cell cols 3) = Raise float_error)
           \/ (month_row cols /\ parse_price (cell cols 2) = Raise float_error)).
Proof.
  revert current_year acc.
  induction rows as [| cols rest IH]; intros current_year acc H; [ discriminate | ].
  cbn [rows_loop] in H. apply bind_raise in H.
  destruct H as [H | ([ny oe] & _ & H)].
  - apply process_row_raise in H. destruct H as [-> H].
    split; [ reflexivity | ]. exists [], cols, rest. auto.
  - apply IH in H. destruct H as (-> & pre & r & post & -> & H).
    split; [ reflexivity | ]. exists (cols :: pre), r, post. auto.
Qed.

(** X4.  When the loop over the rows raises, the error is the
    [ValueError] of [float], and the table has a row of four cells whose
    cell 3, or a row of three cells whose cell 2, is a price that [float]
    rejects.  No other row shape and no cell of a date can make the loop
    fail. *)
Theorem row_loop_fails_on_prices_only (rows : list row) (e : exn) :
  scrape_rows rows = Raise e ->
  e = ValueError "could not convert string to float"
  /\ exists pre cols post,
       rows = pre ++ cols :: post
       /\ ((year_row cols /\ raises (parse_price (cell cols 3)) = true)
           \/ (month_row cols /\ raises (parse_price (cell cols 2)) = true)).
Proof.
  intros H. apply rows_loop_raise in H.
  destruct H as (-> & pre & cols & post & -> & H).
  split; [ reflexivity | ]. exists pre, cols, post.
  split; [ reflexivity | ].
  destruct H as [[Hr Hp] | [Hr Hp]]; rewrite Hp; auto.
Qed.

(** X5.  From the parsed page on, [scrape_tepco_rates] raises nothing but
    the two [ValueError]s of discovery, the [AttributeError] of the fallback
    lookup and the [ValueError] of [float] on a price cell. *)
Theorem scrape_error_kinds (soup : node) (e : exn) :
  scrape_tepco_rates soup = Raise e ->
  e = section_error \/ e = table_error \/ e = none_find_parent
  \/ e = float_error.
Proof.
  unfold scrape_tepco_rates. intros H. apply bind_raise in H.
  destruct H as [H | (target & _ & H)].
  - right. right. left.
    unfold find_target_div in H.
    destruct (find_by_id _ _ _); [ discriminate | ].
    destruct (find _ _) as [a |]; [ | discriminate ].
    destruct (find_parent _ _ a); [ discriminate | ].
    injection H as <-. reflexivity.
  - destruct target as [d |]; [ | injection H as <-; auto ].
    destruct (find_tag (py "table") d) as [table |];
      [ | injection H as <-; auto ].
    apply rows_loop_raise in H. destruct H as [-> _]. auto.
Qed.

Lemma process_row_no_year (cols : row) :
  ~ year_row cols -> process_row None cols = Ok (None, None).
Proof.
  intros Hno. destruct (row_cases cols) as [Hs | [Hy | Hm]].
  - apply process_row_skipped. exact Hs.
  - contradiction.
  - pose proof Hm as [Hlen Hh].
    destruct (three_cells cols Hlen) as (c0 & c1 & c2 & ->).
    rewrite (process_row_three _ _ _ _ Hh).
    destruct (parse_month_ok c0) as [m Hpm]. rewrite Hpm. reflexivity.
Qed.

Lemma process_row_unread_year (current_year : option Z) (cols : row) :
  year_row cols -> parse_year (cell cols 0) = Ok None ->
  process_row current_year cols = Ok (None, None).
Proof.
  intros Hy Hpy. pose proof Hy as [Hlen Hh].
  destruct (four_cells cols Hlen) as (c0 & c1 & c2 & c3 & ->).
  rewrite (process_row_four _ _ _ _ _ Hh).
  change (cell [c0; c1; c2; c3] 0) with c0 in Hpy. rewrite Hpy.
  destruct (parse_month_ok c1) as [m Hpm]. rewrite Hpm. reflexivity.
Qed.

Lemma rows_loop_no_year (rows rest : list row) (acc : list entry) :
  Forall (fun r => ~ year_row r) rows ->
  rows_loop (rows ++ rest) None acc = rows_loop rest None acc.
Proof.
  induction 1 as [| cols rows Hc Hrows IH]; [ reflexivity | ].
  cbn [app rows_loop]. rewrite (process_row_no_year cols Hc). cbn [bind].
  exact IH.
Qed.

(** X6.  Rows that come before the first data row of four cells add
    nothing to the result, and neither do the rows that follow a data row of
    four cells whose year cell holds no four digits, up to the next such row;
    the prices of all these rows are not even read, so a malformed price
    among them does no harm. *)
Theorem rows_without_year_are_dropped (between rest : list row) :
  Forall (fun r => ~ year_row r) between ->
  scrape_rows (between ++ rest) = scrape_rows rest
  /\ forall hdr current_year entries,
       year_row hdr -> parse_year (cell hdr 0) = Ok None ->
       rows_loop (hdr :: between ++ rest) current_year entries
       = rows_loop rest None entries.
Proof.
  intros Hb. split.
  - unfold scrape_rows. apply rows_loop_no_year. exact Hb.
  - intros hdr current_year entries Hy Hpy. cbn [rows_loop].
    rewrite (process_row_unread_year current_year hdr Hy Hpy). cbn [bind].
    apply rows_loop_no_year. exact Hb.
Qed.

(** ** The entries and their dates *)

Lemma range_from_In (count : nat) (first y : Z) :
  first <= y < first + Z.of_nat count -> In y (range_from first 1 count).
Proof.
  revert first. induction count as [| n IH]; intros first Hy; [ lia | ].
  cbn [range_from]. destruct (Z.eq_dec first y) as [-> | Hne]; [ left; reflexivity | ].
  right. apply IH. lia.
Qed.

Lemma checked_on_range (check : Z -> bool) (first last y : Z) :
  forallb check (range_from first 1 (Z.to_nat (last - first + 1))) = true ->
  first <= y <= last -> check y = true.
Proof.
  intros Hall Hy. apply (proj1 (forallb_forall _ _) Hall).
  apply range_from_In. rewrite Z2Nat.id by lia. lia.
Qed.

Lemma year_texts_ok (y : Z) : 1 <= y <= 9999 -> year_text_ok y = true.
Proof.
  apply (checked_on_range year_text_ok 1 9999). vm_compute. reflexivity.
Qed.

Lemma month_texts_ok (m : Z) : 1 <= m <= 99 -> month_text_ok m = true.
Proof.
  apply (checked_on_range month_text_ok 1 99). vm_compute. reflexivity.
Qed.

Lemma year_texts_four (y : Z) : 1000 <= y <= 9999 -> year_text_four y = true.
Proof.
  apply (checked_on_range year_text_four 1000 9999). vm_compute. reflexivity.
Qed.

Lemma no_hyphen (s : str) : existsb (Z.eqb 45) s = false -> ~ In 45 s.
Proof.
  intros H Hin.
  assert (Ht : existsb (Z.eqb 45) s = true).
  { apply existsb_exists. exists 45. split; [ exact Hin | apply Z.eqb_refl ]. }
  congruence.
Qed.

Lemma year_text_reads (y : Z) :
  1 <= y <= 9999 -> py_int (str_of_int y) = Ok y /\ ~ In 45 (str_of_int y).
Proof.
  intros Hy. pose proof (year_texts_ok y Hy) as H. unfold year_text_ok in H.
  destruct (py_int (str_of_int y)) as [n | e]; [ | discriminate ].
  apply andb_true_iff in H. destruct H as [Hn Hh].
  apply Z.eqb_eq in Hn. subst n. apply negb_true_iff in Hh.
  split; [ reflexivity | apply no_hyphen; exact Hh ].
Qed.

Lemma month_text_reads (m : Z) :
  1 <= m <= 99 ->
  py_int (zero_pad 2 m) = Ok m /\ ~ In 45 (zero_pad 2 m)
  /\ List.length (zero_pad 2 m) = 2%nat.
Proof.
  intros Hm. pose proof (month_texts_ok m Hm) as H. unfold month_text_ok in H.
  destruct (py_int (zero_pad 2 m)) as [n | e]; [ | discriminate ].
  apply andb_true_iff in H. destruct H as [H Hlen].
  apply andb_true_iff in H. destruct H as [Hn Hh].
  apply Z.eqb_eq in Hn. subst n. apply negb_true_iff in Hh.
  apply Nat.eqb_eq in Hlen.
  split; [ reflexivity | split; [ apply no_hyphen; exact Hh | exact Hlen ] ].
Qed.

Lemma date_iso_split (y m : Z) (p : Q) :
  1 <= y <= 9999 -> 1 <= m <= 99 ->
  str_split 45 (date_iso (entry_of y m p))
  = [ str_of_int y; zero_pad 2 m; py "01" ].
Proof.
  intros Hy Hm.
  destruct (year_text_reads y Hy) as [_ Hyh].
  destruct (month_text_reads m Hm) as (_ & Hmh & _).
  cbn [date_iso entry_of].
  change (py "-" ++ zero_pad 2 m ++ py "-01")
    with (45 :: zero_pad 2 m ++ 45 :: py "01").
  rewrite (split_at_sep 45 _ _ Hyh), (split_at_sep 45 _ _ Hmh).
  reflexivity.
Qed.

Lemma process_row_well_formed (current_year next_year : option Z) (cols : row)
  (e : entry) :
  process_row current_year cols = Ok (next_year, Some e) -> well_formed_entry e.
Proof.
  intros H.
  assert (Hemit : exists y m i, emit cols y m i = Ok (Some e)).
  { destruct (row_cases cols) as [Hs | [[Hlen Hh] | [Hlen Hh]]].
    - rewrite (process_row_skipped _ _ Hs) in H. discriminate.
    - destruct (four_cells cols Hlen) as (c0 & c1 & c2 & c3 & ->).
      rewrite (process_row_four _ _ _ _ _ Hh) in H.
      apply bind_ok in H. destruct H as (y & _ & H).
      apply bind_ok in H. destruct H as (m & _ & H).
      apply bind_ok in H. destruct H as (oe & Hoe & H).
      injection H as _ ->. eauto.
    - destruct (three_cells cols Hlen) as (c0 & c1 & c2 & ->).
      rewrite (process_row_three _ _ _ _ Hh) in H.
      apply bind_ok in H. destruct H as (m & _ & H).
      apply bind_ok in H. destruct H as (oe & Hoe & H).
      injection H as _ ->. eauto. }
  destruct Hemit as (y & m & i & Hemit).
  apply emit_some in Hemit. destruct Hemit as (yv & mv & p & _ & _ & ->).
  reflexivity.
Qed.

Lemma loop_well_formed (todo : list row) (current_year : option Z)
  (acc entries : list entry) :
  rows_loop todo current_year acc = Ok entries ->
  Forall well_formed_entry acc -> Forall well_formed_entry entries.
Proof.
  revert current_year acc.
  induction todo as [| cols rest IH]; intros current_year acc Hloop Hacc.
  - cbn in Hloop. injection Hloop as <-. exact Hacc.
  - apply rows_loop_step in Hloop.
    destruct Hloop as (next_year & oe & Hrow & Hloop).
    apply (IH next_year (append_entry acc oe) Hloop).
    destruct oe as [e |]; cbn [append_entry]; [ | exact Hacc ].
    apply Forall_app. split; [ exact Hacc | ].
    constructor; [ | constructor ].
    exact (process_row_well_formed _ _ _ _ Hrow).
Qed.

(** X7.  Every entry of a scrape has the area "Kanto" and the type
    "Low Voltage (Standard S)", and its [date_iso] is the year, the month
    on two digits and "01" joined by hyphens: split at the hyphens and read
    with [int] it gives back the year, the month and 1.  The year is written
    without padding, so the date has the ten characters of an ISO date when
    the year has four digits. *)
Theorem entries_carry_their_date (rows : list row) (entries : list entry) :
  scrape_rows rows = Ok entries ->
  Forall
    (fun e =>
       area e = py "Kanto"
       /\ type_ e = py "Low Voltage (Standard S)"
       /\ date_iso e
          = str_of_int (year e) ++ py "-" ++ zero_pad 2 (month e) ++ py "-01"
       /\ map py_int (str_split 45 (date_iso e))
          = [ Ok (year e); Ok (month e); Ok 1 ]
       /\ (1000 <= year e -> List.length (date_iso e) = 10%nat))
    entries.
Proof.
  intros Hscrape.
  assert (Hwf : Forall well_formed_entry entries).
  { apply (loop_well_formed rows None [] entries Hscrape). constructor. }
  assert (Hb : Forall (fun e => 1 <= month e <= 99 /\ 1 <= year e <= 9999) entries).
  { apply (loop_bounds rows None [] entries Hscrape); [ discriminate | constructor ]. }
  apply Forall_forall. intros e Hin.
  apply (proj1 (Forall_forall _ _) Hwf) in Hin as He.
  apply (proj1 (Forall_forall _ _) Hb) in Hin as [Hm Hy].
  unfold well_formed_entry in He.
  set (y := year e) in *. set (m := month e) in *. set (p := price_kwh e) in *.
  destruct (year_text_reads y Hy) as [Hyr _].
  destruct (month_text_reads m Hm) as (Hmr & _ & Hmlen).
  assert (Hsplit : str_split 45 (date_iso e) = [ str_of_int y; zero_pad 2 m; py "01" ]).
  { rewrite He. apply date_iso_split; assumption. }
  split; [ rewrite He; reflexivity | ].
  split; [ rewrite He; reflexivity | ].
  split; [ rewrite He; reflexivity | ].
  split.
  - rewrite Hsplit. cbn [map]. rewrite Hyr, Hmr. reflexivity.
  - intros Hy4.
    assert (H4 : year_text_four y = true) by (apply year_texts_four; lia).
    unfold year_text_four in H4. apply Nat.eqb_eq in H4.
    rewrite He. cbn [date_iso entry_of]. rewrite !length_app, H4, Hmlen.
    reflexivity.
Qed.

(** ** Year-month strings *)

Lemma split_one (sep : Z) (s a : str) : str_split sep s = [a] -> s = a.
Proof.
  revert a. induction s as [| c s IH]; intros a H.
  - cbn in H. injection H as <-. reflexivity.
  - cbn [str_split] in H. destruct (c =? sep).
    + pose proof (split_not_nil sep s) as Hne.
      destruct (str_split sep s); [ congruence | discriminate ].
    + destruct (str_split sep s) as [| w ws] eqn:E.
      * exfalso. exact (split_not_nil sep s E).
      * injection H as <- ->. rewrite (IH w eq_refl). reflexivity.
Qed.

Lemma split_two (sep : Z) (s a b : str) :
  str_split sep s = [a; b] -> s = a ++ sep :: b.
Proof.
  revert a. induction s as [| c s IH]; intros a H; [ discriminate | ].
  cbn [str_split] in H. destruct (Z.eqb_spec c sep) as [-> | Hne].
  - injection H as <- H. apply split_one in H. subst s. reflexivity.
  - destruct (str_split sep s) as [| w ws] eqn:E; [ discriminate | ].
    injection H as <- ->. rewrite (IH w eq_refl). reflexivity.
Qed.

Lemma unpack_two_ok (parts : list str) (y m : Z) :
  unpack_two_ints parts = Ok (y, m) ->
  exists a b, parts = [a; b] /\ py_int a = Ok y /\ py_int b = Ok m.
Proof.
  destruct parts as [| a [| b [| c l]]]; cbn [unpack_two_ints].
  - discriminate.
  - destruct (py_int a); cbn [bind]; discriminate.
  - destruct (py_int a) as [x |] eqn:Ha; cbn [bind]; [ | discriminate ].
    destruct (py_int b) as [z |] eqn:Hb; cbn [bind]; [ | discriminate ].
    intros H. injection H as <- <-. exists a, b. auto.
  - destruct (py_int a); cbn [bind]; [ | discriminate ].
    destruct (py_int b); cbn [bind]; [ | discriminate ].
    destruct (py_int c); cbn [bind]; discriminate.
Qed.

Lemma lstrip_subset (p : Z -> bool) (s : str) (c : Z) :
  In c (lstrip p s) -> In c s.
Proof.
  destruct (lstrip_suffix p s) as [pre H]. intros Hin.
  rewrite H. apply in_or_app. right. exact Hin.
Qed.

Lemma strip_subset (p : Z -> bool) (s : str) (c : Z) : In c (strip p s) -> In c s.
Proof.
  unfold strip. intros H. apply in_rev in H.
  apply lstrip_subset in H. apply in_rev in H.
  apply lstrip_subset in H. exact H.
Qed.

Lemma int_digits_nonneg (s : str) (acc n : Z) (b : bool) :
  0 <= acc -> int_digits acc b s = Some n -> 0 <= n.
Proof.
  revert acc b. induction s as [| c s IH]; intros acc b Hacc H.
  - cbn in H. destruct b; [ | discriminate ]. injection H as <-. exact Hacc.
  - cbn [int_digits] in H. destruct (c =? 95).
    + destruct b; [ | discriminate ]. apply (IH acc false Hacc H).
    + destruct (digit_value c) as [v |] eqn:Hv; [ | discriminate ].
      apply digit_value_range in Hv. apply (IH (10 * acc + v) true); [ lia | exact H ].
Qed.

(** [int] gives no negative number on a text without hyphen. *)
Lemma py_int_unsigned (s : str) (n : Z) : ~ In 45 s -> py_int s = Ok n -> 0 <= n.
Proof.
  intros Hs. unfold py_int. cbv zeta.
  assert (Hbody : ~ In 45 (strip int_space s)).
  { intros H. apply Hs. apply (strip_subset _ _ _ H). }
  set (body := strip int_space s) in *.
  destruct (match body with
            | 43 :: ds => (false, ds)
            | 45 :: ds => (true, ds)
            | _ => (false, body)
            end) as [negative numeral] eqn:Hsign.
  assert (Hneg : negative = false).
  { destruct body as [| c rest]; [ congruence | ].
    destruct (Z.eq_dec c 45) as [-> | Hc];
      [ exfalso; apply Hbody; left; reflexivity | ].
    destruct c as [| q | q]; try congruence.
    repeat (destruct q as [q | q |]; try congruence). }
  subst negative. cbv beta iota.
  destruct (numeral_run numeral) as [run rest]. cbv beta iota.
  destruct (int_digits 0 false run) as [v |] eqn:Hv; [ | discriminate ].
  destruct (int_max_str_digits <? _); [ discriminate | ].
  destruct rest; [ | discriminate ].
  intros H. injection H as <-. apply (int_digits_nonneg run 0 v false); [ lia | exact Hv ].
Qed.

Lemma split_pieces_no_sep (sep : Z) (s : str) :
  Forall (fun w => ~ In sep w) (str_split sep s).
Proof.
  induction s as [| c s IH]; cbn [str_split].
  - constructor; [ intros [] | constructor ].
  - destruct (Z.eqb_spec c sep) as [-> | Hne].
    + constructor; [ intros [] | exact IH ].
    + destruct (str_split sep s) as [| w ws]; [ constructor; [ | constructor ] | ].
      * intros [H | []]. congruence.
      * inversion IH as [| ? ? Hw Hws]; subst.
        constructor; [ | exact Hws ].
        intros [H | H]; [ congruence | contradiction ].
Qed.

(** X12.  A string reads as a year and a month only when it has exactly
    one hyphen, with an integer on each side of it, and the two numbers are
    never negative.  A string without hyphen, and one with two hyphens such
    as a full date or a year with a minus sign, does not read. *)
Theorem year_month_has_one_hyphen (s : str) (y m : Z) :
  parse_year_month s = Ok (y, m) ->
  count_occ Z.eq_dec s 45 = 1%nat
  /\ (exists a b, s = a ++ 45 :: b /\ py_int a = Ok y /\ py_int b = Ok m)
  /\ 0 <= y /\ 0 <= m.
Proof.
  unfold parse_year_month. intros H.
  apply unpack_two_ok in H. destruct H as (a & b & Hsplit & Ha & Hb).
  pose proof (split_length 45 s) as Hlen. rewrite Hsplit in Hlen.
  pose proof (split_pieces_no_sep 45 s) as Hpieces. rewrite Hsplit in Hpieces.
  inversion Hpieces as [| ? ? Hna Hrest]; subst.
  inversion Hrest as [| ? ? Hnb _]; subst.
  split; [ cbn [List.length] in Hlen; lia | ].
  split; [ exists a, b; split; [ apply split_two; exact Hsplit | auto ] | ].
  split; [ apply (py_int_unsigned a y Hna Ha) | apply (py_int_unsigned b m Hnb Hb) ].
Qed.

(** ** Further properties of [get_current_rates] *)

Lemma get_current_rates_ok (today : date) (fuel_data : list entry)
  (levy_data : list levy) (r : current_rates) :
  get_current_rates today fuel_data levy_data = Ok r ->
  fuel_adjustment r
  = option_map price_kwh
      (find (fun e => (year e =? date_year today) && (month e =? date_month today))
         fuel_data)
  /\ levy_loop (date_year today * 100 + date_month today) levy_data
     = Ok (renewable_energy_levy r).
Proof.
  unfold get_current_rates. intros H. apply bind_ok in H.
  destruct H as (v & Hv & H). injection H as <-. auto.
Qed.

Lemma find_first {A : Type} (f : A -> bool) (pre : list A) (x : A) (post : list A) :
  (forall q, In q pre -> f q = false) -> f x = true ->
  find f (pre ++ x :: post) = Some x.
Proof.
  induction pre as [| q pre IH]; intros Hpre Hx.
  - cbn. rewrite Hx. reflexivity.
  - cbn [app find]. rewrite (Hpre q) by (left; reflexivity).
    apply IH; [ | exact Hx ]. intros q' Hin. apply Hpre. right. exact Hin.
Qed.

(** X10.  When several entries have today's year and month, as a table
    with a repeated month gives them, [get_current_rates] reports the price
    of the first of them in the order of the list. *)
Theorem first_matching_entry_wins (today : date) (pre : list entry) (e : entry)
  (post : list entry) (levy_data : list levy) (r : current_rates) :
  (forall q, In q pre ->
             ~ (year q = date_year today /\ month q = date_month today)) ->
  year e = date_year today -> month e = date_month today ->
  get_current_rates today (pre ++ e :: post) levy_data = Ok r ->
  fuel_adjustment r = Some (price_kwh e).
Proof.
  intros Hpre Hy Hm H. apply get_current_rates_ok in H. destruct H as [-> _].
  rewrite find_first; [ reflexivity | | ].
  - intros q Hin. specialize (Hpre q Hin).
    destruct (Z.eqb_spec (year q) (date_year today)) as [Hqy | Hqy];
      [ | reflexivity ].
    destruct (Z.eqb_spec (month q) (date_month today)) as [Hqm | Hqm];
      [ | reflexivity ].
    tauto.
  - rewrite Hy, Hm, !Z.eqb_refl. reflexivity.
Qed.

Lemma levy_loop_skip (pre rest : list levy) (y m : Z) :
  Forall readable pre -> (forall q, In q pre -> ~ covers q y m) ->
  levy_loop (y * 100 + m) (pre ++ rest) = levy_loop (y * 100 + m) rest.
Proof.
  intros Hread. induction Hread as [| q pre Hq Hpre IH]; intros Hno;
    [ reflexivity | ].
  cbn [app]. rewrite levy_loop_miss.
  - apply IH. intros q' Hin. apply Hno. right. exact Hin.
  - exact Hq.
  - apply Hno. left. reflexivity.
Qed.

(** X11.  [get_current_rates] reads the periods in order and stops at the
    first that covers today's month.  A period whose start or end does not
    read as a year and a month makes it raise that [ValueError] when the
    periods before it all read and none covers the month; behind a period
    that covers the month such a period is never looked at. *)
Theorem unreadable_period_is_fatal_when_reached (today : date)
  (fuel_data : list entry) (pre : list levy) (p : levy) (post : list levy)
  (e : exn) :
  Forall readable pre ->
  (forall q, In q pre -> ~ covers q (date_year today) (date_month today)) ->
  parse_year_month (start p) = Raise e
  \/ (exists v, parse_year_month (start p) = Ok v)
     /\ parse_year_month (end_ p) = Raise e ->
  get_current_rates today fuel_data (pre ++ p :: post) = Raise e
  /\ forall hit,
       covers hit (date_year today) (date_month today) ->
       exists r,
         get_current_rates today fuel_data (pre ++ hit :: p :: post) = Ok r
         /\ renewable_energy_levy r = Some (price hit).
Proof.
  intros Hread Hno Hbad. split.
  - unfold get_current_rates. rewrite (levy_loop_skip pre _ _ _ Hread Hno).
    cbn [levy_loop].
    destruct Hbad as [Hs | [[[sy sm] Hs] He]]; rewrite Hs; cbn [bind];
      [ reflexivity | ].
    rewrite He. reflexivity.
  - intros hit Hhit. eexists. split.
    + apply get_current_rates_levy. apply levy_loop_first; assumption.
    + reflexivity.
Qed.

(** ** The periods of the resolver *)

Lemma try_except_some {A : Type} (body : result (option A)) (x : A) :
  try_except body (fun _ => Ok None) = Ok (Some x) -> body = Ok (Some x).
Proof. destruct body as [v | e]; cbn; [ auto | discriminate ]. Qed.

(** A price that the check returns is not negative. *)
Lemma check_nonneg (W : web) (year : Z) (x : Q) :
  check_renewable_energy_pdf W year = Ok (Some x) -> (0 <= x)%Q.
Proof.
  unfold check_renewable_energy_pdf. intros H. apply try_except_some in H.
  apply bind_ok in H. destruct H as (r & _ & H).
  destruct (status_code r =? 200); [ | discriminate ].
  apply bind_ok in H. destruct H as (pages & _ & H).
  apply bind_ok in H. destruct H as (text & _ & H).
  cbv zeta in H.
  destruct (match re_search unit_price_re _ with
            | Some m => Some m
            | None => re_search levy_re _
            end) as [m |]; [ | discriminate ].
  apply bind_ok in H. destruct H as (price & Hprice & H).
  injection H as <-.
  unfold float_of_group in Hprice.
  destruct (group 1 m) as [g |]; [ | discriminate ].
  apply (py_float_nonneg g price Hprice).
Qed.

Lemma truthy_positive (x : Q) : float_truthy x = true -> (0 <= x)%Q -> (0 < x)%Q.
Proof.
  unfold float_truthy. intros Ht Hx.
  apply negb_true_iff in Ht.
  apply Qle_lteq in Hx. destruct Hx as [Hlt | Heq]; [ exact Hlt | ].
  exfalso.
  assert (Hle : Qle_bool (Qabs x) (1 # 2 ^ 1075) = true).
  { apply Qle_bool_iff.
    apply (Qle_trans _ 0); [ | discriminate ].
    apply Qle_lteq. right.
    rewrite <- Heq. reflexivity. }
  congruence.
Qed.

Lemma found_positive (W : web) (year : Z) :
  found W year = []
  \/ exists x, found W year = [new_period year x] /\ (0 < x)%Q.
Proof.
  unfold found.
  destruct (check_renewable_energy_pdf W year) as [[x |] | e] eqn:Hc; auto.
  destruct (float_truthy x) eqn:Ht; [ | auto ].
  right. exists x. split; [ reflexivity | ].
  apply truthy_positive; [ exact Ht | apply (check_nonneg W year x Hc) ].
Qed.

Lemma hardcoded_shape :
  Forall (fun p => (0 < price p)%Q /\ may_to_later p) levies_hardcoded.
Proof.
  repeat constructor.
  - exists 2024, 2025, 4. repeat split; (reflexivity || lia).
  - exists 2025, 2026, 5. repeat split; (reflexivity || lia).
Qed.

Lemma found_shape (W : web) (year : Z) :
  year = 2026 \/ year = 2027 ->
  Forall (fun p => (0 < price p)%Q /\ may_to_later p) (found W year).
Proof.
  intros Hy. destruct (found_positive W year) as [-> | (x & -> & Hx)];
    [ constructor | ].
  constructor; [ | constructor ]. split; [ exact Hx | ].
  destruct Hy as [-> | ->].
  - exists 2026, 2027, 5. repeat split; (reflexivity || lia).
  - exists 2027, 2028, 5. repeat split; (reflexivity || lia).
Qed.

(** X8.  Whatever the web answers, the list that
    [get_renewable_energy_levy] returns begins with the two known periods
    and holds at most two more; every period in it has a price above zero
    and reads as a range from a May to a later month; and no two periods
    start in the same month.  Discovery only appends. *)
Theorem resolver_periods_are_sound (W : web) (scrape_pdf : bool)
  (levies : list levy) :
  get_renewable_energy_levy W scrape_pdf = Ok levies ->
  firstn 2 levies = levies_hardcoded
  /\ (List.length levies <= 4)%nat
  /\ Forall (fun p => (0 < price p)%Q /\ may_to_later p) levies
  /\ NoDup (map start levies).
Proof.
  intros H.
  assert (Heq : levies = levies_hardcoded
                \/ levies = levies_hardcoded ++ found W 2026 ++ found W 2027).
  { destruct scrape_pdf.
    - rewrite resolver_result in H. right. congruence.
    - cbn in H. left. congruence. }
  assert (Hnodup : forall l26 l27,
             (l26 = [] \/ exists x, l26 = [new_period 2026 x]) ->
             (l27 = [] \/ exists x, l27 = [new_period 2027 x]) ->
             NoDup (map start (levies_hardcoded ++ l26 ++ l27))).
  { intros l26 l27 [-> | [x ->]] [-> | [x' ->]]; cbn [map app levies_hardcoded start new_period];
      repeat (constructor;
              [ cbn [In]; intros Hin;
                repeat (destruct Hin as [Hin | Hin];
                        [ vm_compute in Hin; discriminate | ]);
                exact Hin | ]);
      constructor. }
  destruct Heq as [-> | ->].
  - split; [ reflexivity | ]. split; [ cbn; lia | ].
    split; [ apply hardcoded_shape | ].
    apply (Hnodup [] []); auto.
  - split; [ reflexivity | ].
    split.
    { rewrite !length_app.
      destruct (found_cases W 2026) as [-> | [x ->]];
        destruct (found_cases W 2027) as [-> | [x' ->]]; cbn; lia. }
    split.
    { apply Forall_app. split; [ apply hardcoded_shape | ].
      apply Forall_app. split; apply found_shape; auto. }
    apply Hnodup; apply found_cases.
Qed.

Lemma covers_known (p : levy) (sy sm ey em y m : Z) :
  parse_year_month (start p) = Ok (sy, sm) ->
  parse_year_month (end_ p) = Ok (ey, em) ->
  (covers p y m <-> sy * 100 + sm <= y * 100 + m <= ey * 100 + em).
Proof.
  intros Hs He. split.
  - intros (sy' & sm' & ey' & em' & Hs' & He' & Hr).
    rewrite Hs in Hs'. rewrite He in He'.
    injection Hs' as <- <-. injection He' as <- <-. exact Hr.
  - intros Hr. exists sy, sm, ey, em. auto.
Qed.

Lemma levy_loop_known (v_y v_m : Z) (rest : list levy) :
  levy_loop (v_y * 100 + v_m) (levies_hardcoded ++ rest)
  = if (202405 <=? v_y * 100 + v_m) && (v_y * 100 + v_m <=? 202504)
    then Ok (Some (float_lit 3.49))
    else if (202505 <=? v_y * 100 + v_m) && (v_y * 100 + v_m <=? 202605)
         then Ok (Some (float_lit 3.98))
         else levy_loop (v_y * 100 + v_m) rest.
Proof. reflexivity. Qed.

Lemma levy_loop_new (year v_y v_m : Z) (x : Q) (rest : list levy) :
  year = 2026 \/ year = 2027 ->
  levy_loop (v_y * 100 + v_m) (new_period year x :: rest)
  = if (year * 100 + 5 <=? v_y * 100 + v_m)
       && (v_y * 100 + v_m <=? (year + 1) * 100 + 5)
    then Ok (Some x)
    else levy_loop (v_y * 100 + v_m) rest.
Proof. intros [-> | ->]; reflexivity. Qed.

(** X9.  With the periods of the resolver, whatever the web answers, the
    levy that [get_current_rates] reports is none before May 2024, 3.49 from
    May 2024 to April 2025 and 3.98 from May 2025 to May 2026; and from June
    2026 to May 2027 it is the price of the 2026 notice when discovery found
    one. *)
Theorem levy_by_date (W : web) (scrape_pdf : bool) (levies : list levy)
  (today : date) (fuel_data : list entry) :
  get_renewable_energy_levy W scrape_pdf = Ok levies ->
  exists r,
    get_current_rates today fuel_data levies = Ok r
    /\ (date_year today * 100 + date_month today < 202405 ->
        renewable_energy_levy r = None)
    /\ (202405 <= date_year today * 100 + date_month today <= 202504 ->
        renewable_energy_levy r = Some (float_lit 3.49))
    /\ (202505 <= date_year today * 100 + date_month today <= 202605 ->
        renewable_energy_levy r = Some (float_lit 3.98))
    /\ (forall x,
           scrape_pdf = true -> found W 2026 = [new_period 2026 x] ->
           202605 < date_year today * 100 + date_month today <= 202705 ->
           renewable_energy_levy r = Some x).
Proof.
  intros H.
  pose proof (resolver_readable W scrape_pdf levies H) as Hread.
  destruct (first_cover_or_none levies (date_year today) (date_month today) Hread)
    as [(pre & p & post & Heq & Hp & Hpre) | Hno].
  - assert (Hloop : levy_loop (date_year today * 100 + date_month today) levies
                    = Ok (Some (price p))).
    { rewrite Heq. apply levy_loop_first; try assumption.
      rewrite Heq in Hread. apply Forall_app in Hread. tauto. }
    eexists. split; [ apply get_current_rates_levy; exact Hloop | ].
    cbn [renewable_energy_levy].
    set (v := date_year today * 100 + date_month today) in *.
    assert (Hcases : (scrape_pdf = false /\ levies = levies_hardcoded)
               \/ (scrape_pdf = true
                   /\ levies = levies_hardcoded ++ found W 2026 ++ found W 2027)).
    { destruct scrape_pdf.
      - rewrite resolver_result in H. right. split; [ reflexivity | congruence ].
      - cbn in H. left. split; [ reflexivity | congruence ]. }
    assert (Hk : forall rest, levies = levies_hardcoded ++ rest ->
               (v < 202405 \/ 202605 < v -> levy_loop v rest = Ok (Some (price p)))
               /\ (202405 <= v <= 202504 -> price p = float_lit 3.49)
               /\ (202505 <= v <= 202605 -> price p = float_lit 3.98)).
    { intros rest Hrest. rewrite Hrest in Hloop. unfold v in Hloop.
      rewrite levy_loop_known in Hloop. fold v in Hloop.
      destruct ((202405 <=? v) && (v <=? 202504)) eqn:E1.
      - bools. repeat split; intros; try lia. congruence.
      - destruct ((202505 <=? v) && (v <=? 202605)) eqn:E2.
        + bools. repeat split; intros; try lia. congruence.
        + apply andb_false_iff in E1. apply andb_false_iff in E2.
          repeat split; intros; try exact Hloop;
            destruct E1 as [E1 | E1]; destruct E2 as [E2 | E2]; bools; lia. }
    destruct Hcases as [[Hb Hc] | [Hb Hc]].
    + destruct (Hk [] (eq_trans Hc (eq_sym (app_nil_r _)))) as (Hout & H1 & H2).
      split; [ intros Hv; specialize (Hout (or_introl Hv)); discriminate | ].
      split; [ intros Hv; rewrite (H1 Hv); reflexivity | ].
      split; [ intros Hv; rewrite (H2 Hv); reflexivity | ].
      intros x Hb'. congruence.
    + destruct (Hk _ Hc) as (Hout & H1 & H2).
      split.
      { intros Hv. specialize (Hout (or_introl Hv)). exfalso.
        unfold v in Hout.
        destruct (found_cases W 2026) as [E26 | [x26 E26]]; rewrite E26 in Hout;
          destruct (found_cases W 2027) as [E27 | [x27 E27]]; rewrite E27 in Hout;
          cbn [app] in Hout;
          repeat (rewrite levy_loop_new in Hout by auto);
          fold v in Hout;
          repeat match type of Hout with
            | context [ (?a <=? v) && _ ] =>
                replace (a <=? v) with false in Hout
                  by (symmetry; apply Z.leb_gt; lia);
                cbn [andb] in Hout
            end;
          discriminate. }
      split; [ intros Hv; rewrite (H1 Hv); reflexivity | ].
      split; [ intros Hv; rewrite (H2 Hv); reflexivity | ].
      intros x _ Hf Hv. specialize (Hout (or_intror (proj1 Hv))).
      unfold v in Hout. rewrite Hf in Hout. cbn [app] in Hout.
      rewrite levy_loop_new in Hout by auto. fold v in Hout.
      replace ((2026 * 100 + 5 <=? v) && (v <=? (2026 + 1) * 100 + 5)) with true
        in Hout
        by (symmetry; apply andb_true_iff; split; apply Z.leb_le; lia).
      congruence.
  - eexists. split.
    + apply get_current_rates_levy. apply levy_loop_none; assumption.
    + cbn [renewable_energy_levy].
      assert (Hh : forall q, In q levies_hardcoded -> In q levies).
      { intros q Hq. destruct scrape_pdf.
        - rewrite resolver_result in H.
          assert (levies = levies_hardcoded ++ found W 2026 ++ found W 2027)
            by congruence.
          subst levies. apply in_or_app. auto.
        - cbn in H. assert (levies = levies_hardcoded) by congruence.
          subst levies. exact Hq. }
      split; [ reflexivity | ].
      split.
      { intros Hv. exfalso.
        apply (Hno _ (Hh _ (or_introl eq_refl))).
        exists 2024, 5, 2025, 4. repeat split; (reflexivity || lia). }
      split.
      { intros Hv. exfalso.
        apply (Hno _ (Hh _ (or_intror (or_introl eq_refl)))).
        exists 2025, 5, 2026, 5. repeat split; (reflexivity || lia). }
      intros x Hb Hf Hv. exfalso.
      apply (Hno (new_period 2026 x)).
      * rewrite Hb, resolver_result in H.
        assert (levies = levies_hardcoded ++ found W 2026 ++ found W 2027)
          by congruence.
        subst levies. rewrite Hf. apply in_or_app. right. left. reflexivity.
      * exists 2026, 5, 2027, 5. repeat split; (reflexivity || lia).
Qed.

(* ----------------------------------------------------------------- *)
(** ** What a match of the notice patterns needs *)

Lemma star_greedy_reaches (p : Z -> bool) (s : str)
  (k : str -> option captures) (m : captures) :
  star_greedy p s k = Some m -> exists pre s', s = pre ++ s' /\ k s' = Some m.
Proof.
  induction s as [| c s IH]; cbn [star_greedy]; intros H.
  - exists [], []. auto.
  - destruct (p c).
    + destruct (star_greedy p s k) as [m' |] eqn:E.
      * injection H as ->. destruct (IH eq_refl) as (pre & s' & -> & Hk).
        exists (c :: pre), s'. auto.
      * exists [], (c :: s). auto.
    + exists [], (c :: s). auto.
Qed.

Lemma star_lazy_reaches (p : Z -> bool) (s : str)
  (k : str -> option captures) (m : captures) :
  star_lazy p s k = Some m -> exists pre s', s = pre ++ s' /\ k s' = Some m.
Proof.
  induction s as [| c s IH]; cbn [star_lazy]; intros H.
  - destruct (k []) eqn:E; [ | discriminate ].
    exists [], []. split; [ reflexivity | congruence ].
  - destruct (k (c :: s)) eqn:E.
    + exists [], (c :: s). split; [ reflexivity | congruence ].
    + destruct (p c); [ | discriminate ].
      destruct (IH H) as (pre & s' & -> & Hk).
      exists (c :: pre), s'. auto.
Qed.

(** A match runs its continuation on a tail of the text. *)
Lemma match_at_reaches (r : regex) :
  forall (s : str) (caps : captures)
         (k : str -> captures -> option captures) (m : captures),
    match_at r s caps k = Some m ->
    exists pre s' caps', s = pre ++ s' /\ k s' caps' = Some m.
Proof.
  induction r as [| c | p | r1 IH1 r2 IH2 | p | p | r1 IH1 | n r1 IH1];
    intros s caps k m H; cbn [match_at] in H.
  - exists [], s, caps. auto.
  - destruct s as [| x s]; [ discriminate | ].
    destruct (x =? c); [ | discriminate ].
    exists [x], s, caps. auto.
  - destruct s as [| x s]; [ discriminate | ].
    destruct (p x); [ | discriminate ].
    exists [x], s, caps. auto.
  - destruct (IH1 _ _ _ _ H) as (pre1 & s1 & caps1 & -> & H1).
    destruct (IH2 _ _ _ _ H1) as (pre2 & s2 & caps2 & -> & H2).
    exists (pre1 ++ pre2), s2, caps2. rewrite <- app_assoc. auto.
  - destruct (star_greedy_reaches _ _ _ _ H) as (pre & s' & -> & Hk).
    exists pre, s', caps. auto.
  - destruct (star_lazy_reaches _ _ _ _ H) as (pre & s' & -> & Hk).
    exists pre, s', caps. auto.
  - destruct (match_at r1 s caps k) as [m' |] eqn:E.
    + destruct (IH1 _ _ _ _ E) as (pre & s' & caps' & -> & Hk).
      exists pre, s', caps'. split; [ reflexivity | congruence ].
    + exists [], s, caps. auto.
  - destruct (IH1 _ _ _ _ H) as (pre & s' & caps' & -> & Hk).
    exists pre, s', ((n, firstn (List.length (pre ++ s') - List.length s')
                           (pre ++ s')) :: caps'). auto.
Qed.

Lemma re_search_at (r : regex) (s : str) (m : captures) :
  re_search r s = Some m ->
  exists pre s', s = pre ++ s'
                 /\ match_at r s' [] (fun _ caps => Some caps) = Some m.
Proof.
  induction s as [| c s IH]; cbn [re_search]; intros H.
  - destruct (match_at r [] [] _) eqn:E; [ | discriminate ].
    exists [], []. split; [ reflexivity | congruence ].
  - destruct (match_at r (c :: s) [] _) eqn:E.
    + exists [], (c :: s). split; [ reflexivity | congruence ].
    + destruct (IH H) as (pre & s' & -> & Hm).
      exists (c :: pre), s'. auto.
Qed.

(** A pattern [kw r 円] matches only where the text holds the keyword and,
    after it, the yen sign. *)
Lemma keyword_and_yen (kw : str) (r1 r2 : regex) (s : str) (m : captures) :
  (forall t caps k m',
      match_at (lit kw) t caps k = Some m' ->
      exists t', t = kw ++ t' /\ k t' caps = Some m') ->
  re_search (Cat (lit kw) (Cat r1 (Cat r2 (Chr 20870)))) s = Some m ->
  exists pre post, s = pre ++ kw ++ post /\ In 20870 post.
Proof.
  intros Hkw H.
  destruct (re_search_at _ _ _ H) as (pre & s0 & -> & Hm).
  cbn [match_at] in Hm.
  destruct (Hkw _ _ _ _ Hm) as (t & -> & H0).
  destruct (match_at_reaches _ _ _ _ _ H0) as (p1 & s1 & c1 & -> & H1).
  destruct (match_at_reaches _ _ _ _ _ H1) as (p2 & s2 & c2 & -> & H2).
  destruct s2 as [| x s2]; [ discriminate | ].
  destruct (x =? 20870) eqn:E; [ | discriminate ].
  apply Z.eqb_eq in E. subst x.
  exists pre, (p1 ++ p2 ++ 20870 :: s2). split; [ reflexivity | ].
  apply in_or_app. right. apply in_or_app. right. left. reflexivity.
Qed.

Lemma lit2 (a b : Z) (t : str) (caps : captures)
  (k : str -> captures -> option captures) (m : captures) :
  match_at (lit [a; b]) t caps k = Some m ->
  exists t', t = [a; b] ++ t' /\ k t' caps = Some m.
Proof.
  cbn [lit match_at]. intros H.
  destruct t as [| x t]; [ discriminate | ].
  destruct (x =? a) eqn:Ea; [ | discriminate ].
  destruct t as [| y t]; [ discriminate | ].
  destruct (y =? b) eqn:Eb; [ | discriminate ].
  apply Z.eqb_eq in Ea, Eb. subst. exists t. auto.
Qed.

Lemma lit3 (a b c : Z) (t : str) (caps : captures)
  (k : str -> captures -> option captures) (m : captures) :
  match_at (lit [a; b; c]) t caps k = Some m ->
  exists t', t = [a; b; c] ++ t' /\ k t' caps = Some m.
Proof.
  cbn [lit match_at]. intros H.
  destruct t as [| x t]; [ discriminate | ].
  destruct (x =? a) eqn:Ea; [ | discriminate ].
  destruct t as [| y t]; [ discriminate | ].
  destruct (y =? b) eqn:Eb; [ | discriminate ].
  destruct t as [| z t]; [ discriminate | ].
  destruct (z =? c) eqn:Ec; [ | discriminate ].
  apply Z.eqb_eq in Ea, Eb, Ec. subst. exists t. auto.
Qed.

Lemma unit_price_needs (s : str) (m : captures) :
  re_search unit_price_re s = Some m ->
  exists pre post, s = pre ++ py "単価" ++ post /\ In 20870 post.
Proof.
  apply (keyword_and_yen (py "単価")). intros t caps k m'. apply lit2.
Qed.

Lemma levy_needs (s : str) (m : captures) :
  re_search levy_re s = Some m ->
  exists pre post, s = pre ++ py "賦課金" ++ post /\ In 20870 post.
Proof.
  apply (keyword_and_yen (py "賦課金")). intros t caps k m'. apply lit3.
Qed.

(** X14.  [check_renewable_energy_pdf] returns a price only when the notice
    was fetched with status 200 and every page gave its text, and the text,
    normalised and without its line feeds, holds one of the keywords 単価 and
    賦課金 with a yen sign somewhere after it; the price is then not
    negative. *)
Theorem notice_price_needs_keyword_and_yen (W : web) (year : Z) (x : Q) :
  check_renewable_energy_pdf W year = Ok (Some x) ->
  exists response pages text,
    requests_get W (pdf_url year) = Ok response
    /\ status_code response = 200
    /\ pdf_pages W (content response) = Ok pages
    /\ extract_pages [] pages = Ok text
    /\ (exists pre kw post,
           filter (fun c => negb (c =? 10)) (nfkc text) = pre ++ kw ++ post
           /\ (kw = py "単価" \/ kw = py "賦課金")
           /\ In 20870 post)
    /\ (0 <= x)%Q.
Proof.
  intros H0. pose proof (check_nonneg W year x H0) as Hx.
  unfold check_renewable_energy_pdf in H0. apply try_except_some in H0.
  apply bind_ok in H0. destruct H0 as (r & Hr & H).
  destruct (status_code r =? 200) eqn:Es; [ | discriminate ].
  apply Z.eqb_eq in Es.
  apply bind_ok in H. destruct H as (pages & Hp & H).
  apply bind_ok in H. destruct H as (text & Ht & H).
  cbv zeta in H.
  exists r, pages, text. repeat (split; [ assumption | ]).
  split; [ | exact Hx ].
  destruct (re_search unit_price_re _) as [m |] eqn:E1.
  - destruct (unit_price_needs _ _ E1) as (pre & post & Heq & Hin).
    exists pre, (py "単価"), post. auto.
  - destruct (re_search levy_re _) as [m |] eqn:E2; [ | discriminate ].
    destruct (levy_needs _ _ E2) as (pre & post & Heq & Hin).
    exists pre, (py "賦課金"), post. auto.
Qed.

(* ----------------------------------------------------------------- *)
(** ** The run as a whole *)

Lemma resolver_returns (W : web) (scrape_pdf : bool) :
  exists levies, get_renewable_energy_levy W scrape_pdf = Ok levies.
Proof.
  destruct scrape_pdf.
  - rewrite resolver_result. eexists. reflexivity.
  - eexists. reflexivity.
Qed.

Lemma rates_return (W : web) (scrape_pdf : bool) (levies : list levy)
  (today : date) (fuel_data : list entry) :
  get_renewable_energy_levy W scrape_pdf = Ok levies ->
  exists r, get_current_rates today fuel_data levies = Ok r.
Proof.
  intros H. pose proof (resolver_readable W scrape_pdf levies H) as Hread.
  destruct (first_cover_or_none levies (date_year today) (date_month today) Hread)
    as [(pre & p & post & Heq & Hp & Hpre) | Hno].
  - eexists. apply get_current_rates_levy. rewrite Heq.
    apply levy_loop_first; try eassumption.
    rewrite Heq in Hread. apply Forall_app in Hread. tauto.
  - eexists. apply get_current_rates_levy. apply levy_loop_none; assumption.
Qed.

Lemma main_exit (W : web) (today : date) (soup : node) (scrape_pdf : bool)
  (e : exn) :
  scrape_tepco_rates soup = Raise e -> main W today soup scrape_pdf = Exit1 e.
Proof. intros H. unfold main. rewrite H. reflexivity. Qed.

Lemma computed_unique (W : web) (today : date) (soup : node)
  (scrape_pdf : bool) (data data' : report) :
  computed_report W today soup scrape_pdf data ->
  computed_report W today soup scrape_pdf data' ->
  data = data'.
Proof.
  destruct data as [r f c l], data' as [r' f' c' l'].
  unfold computed_report. cbn.
  intros (H1 & H2 & H3 & H4) (H1' & H2' & H3' & H4').
  assert (f = f') by congruence. assert (l = l') by congruence. subst.
  assert (r = r') by congruence. congruence.
Qed.

(** After a scrape that returned, the run reaches the write with its
    report, and ends as the write does. *)
Lemma main_written (W : web) (today : date) (soup : node) (scrape_pdf : bool)
  (entries : list entry) :
  scrape_tepco_rates soup = Ok entries ->
  exists data,
    computed_report W today soup scrape_pdf data
    /\ report_fuel_adjustment data = entries
    /\ main W today soup scrape_pdf
       = match json_dump data with
         | Ok _ => Written data
         | Raise e => Exit1 e
         end.
Proof.
  intros H.
  destruct (resolver_returns W scrape_pdf) as [levies Hl].
  destruct (rates_return W scrape_pdf levies today entries Hl) as [rates Hr].
  exists {| report_current_rates := rates;
            report_fuel_adjustment := entries;
            report_standard_s := get_standard_s_constants;
            report_renewable_energy_levy := levies |}.
  split; [ unfold computed_report; cbn; auto | ].
  split; [ reflexivity | ].
  unfold main. rewrite H, Hl. cbn [bind]. rewrite Hr. cbn [bind].
  destruct (json_dump _); reflexivity.
Qed.

(** X13.  From the parsed page on, a scrape that returned always leads to a
    report: neither the levy resolver nor [get_current_rates] can fail
    after it.  So a run of [main] ends with exit status 1 in two cases only,
    each with the error of the step that failed: the scrape of the page
    raises, or the report is put together and opening or writing the output
    file raises.  The run leaves a report written exactly when it is that
    report and the write returned. *)
Theorem main_fails_with_the_scrape_or_the_write (W : web) (today : date)
  (soup : node) (scrape_pdf : bool) :
  (forall entries,
      scrape_tepco_rates soup = Ok entries ->
      exists data,
        computed_report W today soup scrape_pdf data
        /\ report_fuel_adjustment data = entries)
  /\ (forall e,
         main W today soup scrape_pdf = Exit1 e <->
         scrape_tepco_rates soup = Raise e
         \/ exists data,
              computed_report W today soup scrape_pdf data
              /\ json_dump data = Raise e)
  /\ (forall data,
         main W today soup scrape_pdf = Written data <->
         computed_report W today soup scrape_pdf data
         /\ json_dump data = Ok tt).
Proof.
  split.
  { intros entries Hs.
    destruct (main_written W today soup scrape_pdf entries Hs)
      as (data & Hc & Hf & _).
    exists data. auto. }
  destruct (scrape_tepco_rates soup) as [entries | e0] eqn:Hs.
  - destruct (main_written W today soup scrape_pdf entries Hs)
      as (data0 & Hc0 & _ & Hm).
    split.
    + intros e. rewrite Hm. split.
      * intros H. right. exists data0. split; [ exact Hc0 | ].
        destruct (json_dump data0); [ discriminate | congruence ].
      * intros [H | (data & Hc & Hd)]; [ discriminate | ].
        rewrite (computed_unique _ _ _ _ _ _ Hc0 Hc), Hd. reflexivity.
    + intros data. rewrite Hm. split.
      * intros H. destruct (json_dump data0) as [[] |] eqn:Hd; [ | discriminate ].
        injection H as <-. auto.
      * intros [Hc Hd].
        rewrite (computed_unique _ _ _ _ _ _ Hc0 Hc), Hd. reflexivity.
  - pose proof (main_exit W today soup scrape_pdf e0 Hs) as Hm.
    split.
    + intros e. rewrite Hm. split.
      * intros H. left. congruence.
      * intros [H | (data & [Hc _] & _)]; [ congruence | ].
        rewrite Hs in Hc. discriminate.
    + intros data. rewrite Hm. split; [ discriminate | ].
      intros [[Hc _] _]. rewrite Hs in Hc. discriminate.
Qed.

(** X17.  A page with no [div] of id [anker01] and no link whose text names
    the section ends the run with the section error, whatever the page holds
    otherwise, tables included. *)
Theorem missing_section_ends_the_run (soup : node) :
  (forall d, In d (descendants [] soup) ->
             has_name (py "div") (fst d) && has_id (py "anker01") (fst d) = false) ->
  (forall a, In a (descendants [] soup) ->
             has_name (py "a") (fst a) = true ->
             str_in (py "燃料費調整単価（低圧）") (text_of (fst a)) = false) ->
  scrape_tepco_rates soup = Raise section_error
  /\ forall W today scrape_pdf,
       main W today soup scrape_pdf = Exit1 section_error.
Proof.
  intros Hdiv Hlink.
  pose proof (no_section_no_link soup Hdiv Hlink) as H.
  split; [ exact H | ]. intros W today scrape_pdf. apply main_exit. exact H.
Qed.

(* ----------------------------------------------------------------- *)
(** ** The bands of the tariff *)

(** X15.  The usage bands of [get_standard_s_constants] divide the
    consumptions from 0 kWh up among them: a consumption is in some band
    exactly when it is not negative, it is in one band only, and a band
    further up the list has the higher price. *)
Theorem usage_bands_partition (kwh : Z) :
  (0 <= kwh <->
   exists b, In b (usage_rates get_standard_s_constants) /\ in_band kwh b)
  /\ (forall b b',
         In b (usage_rates get_standard_s_constants) ->
         In b' (usage_rates get_standard_s_constants) ->
         in_band kwh b -> in_band kwh b' -> b = b')
  /\ (forall i j b b',
         nth_error (usage_rates get_standard_s_constants) i = Some b ->
         nth_error (usage_rates get_standard_s_constants) j = Some b' ->
         (i < j)%nat ->
         band_min b < band_min b' /\ (band_price b < band_price b')%Q).
Proof.
  cbn [usage_rates get_standard_s_constants].
  split; [ split | split ].
  - intros Hk.
    destruct (Z_le_gt_dec kwh 120); [ | destruct (Z_le_gt_dec kwh 300) ].
    + eexists. split; [ left; reflexivity | ]. unfold in_band; cbn. lia.
    + eexists. split; [ right; left; reflexivity | ]. unfold in_band; cbn. lia.
    + eexists. split; [ right; right; left; reflexivity | ].
      unfold in_band; cbn. lia.
  - intros (b & Hb & Hin). unfold in_band in Hin.
    cbn [In] in Hb. destruct Hb as [<- | [<- | [<- | []]]]; cbn in Hin; lia.
  - intros b b' Hb Hb' Hin Hin'. unfold in_band in Hin, Hin'.
    cbn [In] in Hb, Hb'.
    destruct Hb as [<- | [<- | [<- | []]]];
      destruct Hb' as [<- | [<- | [<- | []]]];
      cbn in Hin, Hin'; (reflexivity || lia).
  - intros i j b b' Hi Hj Hlt.
    destruct i as [| [| [| i]]]; destruct j as [| [| [| j]]];
      cbn [nth_error] in Hi, Hj; try lia;
      try (destruct i; discriminate); try (destruct j; discriminate);
      injection Hi as <-; injection Hj as <-;
      (split; [ cbn; lia | vm_compute; reflexivity ]).
Qed.

(* ----------------------------------------------------------------- *)
(** ** Header cells *)

Lemma cell_elements_below (parents : list node) (cells : list (bool * str))
  (name : str) :
  filter (fun d => has_name name (fst d))
    (flat_map (fun c => (c, parents) :: descendants parents c)
       (map (fun c : bool * str => cell_element (fst c) (snd c)) cells))
  = map (fun c : bool * str => (cell_element (fst c) (snd c), parents))
      (filter (fun c : bool * str =>
                 str_eqb (if fst c then py "th" else py "td") name) cells).
Proof.
  induction cells as [| [h t] cells IH]; [ reflexivity | ].
  cbn [map flat_map]. rewrite filter_app, IH.
  cbn [cell_element descendants flat_map app filter fst snd has_name].
  destruct (str_eqb (if h then py "th" else py "td") name); reflexivity.
Qed.

Lemma row_element_cells (parents : list node) (cells : list (bool * str)) :
  map (fun c => text_of (fst c)) (find_all (py "td") (row_element cells, parents))
  = data_cells cells.
Proof.
  unfold find_all, data_cells. cbn [fst snd row_element descendants].
  rewrite cell_elements_below, map_map. cbn [fst].
  induction cells as [| [h t] cells IH]; [ reflexivity | ].
  cbn [filter fst snd]. destruct h.
  - change (str_eqb (py "th") (py "td")) with false. cbn [negb]. exact IH.
  - change (str_eqb (py "td") (py "td")) with true. cbn [negb map].
    rewrite IH. f_equal. cbn [cell_element text_of flat_map fst snd].
    apply app_nil_r.
Qed.

Lemma row_elements_below (parents : list node) (rows : list (list (bool * str))) :
  filter (fun d => has_name (py "tr") (fst d))
    (flat_map (fun c => (c, parents) :: descendants parents c)
       (map row_element rows))
  = map (fun cells => (row_element cells, parents)) rows.
Proof.
  induction rows as [| cells rows IH]; [ reflexivity | ].
  cbn [map flat_map]. rewrite filter_app, IH.
  cbn [filter fst]. change (has_name (py "tr") (row_element cells)) with true.
  cbv iota. cbn [row_element descendants]. rewrite cell_elements_below.
  replace (filter (fun c : bool * str =>
                     str_eqb (if fst c then py "th" else py "td") (py "tr")) cells)
    with (@nil (bool * str)); [ reflexivity | ].
  clear. induction cells as [| [h t] cells IH]; [ reflexivity | ].
  destruct h; cbn [filter fst]; exact IH.
Qed.

Lemma table_element_rows (parents : list node) (rows : list (list (bool * str))) :
  table_rows (table_element rows, parents) = map data_cells rows.
Proof.
  unfold table_rows, find_all. cbn [fst snd table_element descendants].
  rewrite row_elements_below, map_map.
  apply map_ext. intros cells. apply row_element_cells.
Qed.

(** X16.  Only the [td] cells of a row are its columns: a table whose rows
    mix [th] and [td] cells is scraped as the table of the [td] cells alone,
    so a year that stands in a [th] cell is not read and its row counts as
    many columns as it has [td] cells. *)
Theorem header_cells_are_not_columns (rows : list (list (bool * str))) :
  scrape_tepco_rates (section_page [ table_element rows ])
  = scrape_rows (map data_cells rows)
  /\ (Forall (fun cells => forallb fst cells = true) rows ->
      scrape_tepco_rates (section_page [ table_element rows ]) = Ok []).
Proof.
  assert (H : scrape_tepco_rates (section_page [ table_element rows ])
              = scrape_rows (map data_cells rows)).
  { unfold scrape_tepco_rates.
    change (find_target_div (section_page [ table_element rows ], []))
      with (Ok (Some (Tag (py "div") (Some (py "anker01")) [] [ table_element rows ],
                      [ section_page [ table_element rows ] ]))).
    cbn [bind].
    change (find_tag (py "table")
              (Tag (py "div") (Some (py "anker01")) [] [ table_element rows ],
               [ section_page [ table_element rows ] ]))
      with (Some (table_element rows,
                  [ Tag (py "div") (Some (py "anker01")) [] [ table_element rows ];
                    section_page [ table_element rows ] ])).
    cbv beta iota. rewrite table_element_rows. reflexivity. }
  split; [ exact H | ].
  intros Hall. rewrite H. unfold scrape_rows. clear H.
  induction Hall as [| cells rows Hc Hall IH]; [ reflexivity | ].
  cbn [map].
  assert (Hnil : data_cells cells = []).
  { unfold data_cells. clear - Hc.
    induction cells as [| [h t] cells IHc]; [ reflexivity | ].
    cbn [forallb fst] in Hc. apply andb_true_iff in Hc. destruct Hc as [-> Hc].
    cbn [filter fst negb]. apply IHc. exact Hc. }
  rewrite Hnil. exact IH.
Qed.
End Properties.

(* ================================================================= *)
(** * Instances of the statements on sample inputs *)

(** C7: the tokens are cut out of longer runs.  The only run of digits of
    "123456" has six digits, so the text has no run of exactly four, yet
    [parse_year] returns 1234; and the first run of one or two digits of
    "2026年4月分" is "4", yet [parse_month] returns 20. *)
Lemma date_tokens_cut_from_longer_runs :
  @digit_runs unicode14 (py "123456") = [ py "123456" ]
  /\ @first_run_of_exactly_4 unicode14 (py "123456") = None
  /\ @parse_year unicode14 (py "123456") = Ok (Some 1234)
  /\ @digit_runs unicode14 (py "2026年4月分") = [ py "2026"; py "4" ]
  /\ @first_run_of_1_or_2 unicode14 (py "2026年4月分") = Some (py "4")
  /\ @parse_month unicode14 (py "2026年4月分") = Ok (Some 20)
  /\ @parse_month unicode14 (py "2026年4月分") <> Ok (Some 4).
Proof.
  repeat (split; [ vm_compute; reflexivity | ]).
  intros H. vm_compute in H. discriminate H.
Qed.

(** C3: [parse_price] raises on a text with two full stops. *)
Lemma parse_price_two_dots :
  @parse_price unicode14 (py "1.2.3円")
  = Raise (ValueError "could not convert string to float")
  /\ raises (@parse_price unicode14 (py "1.2.3円")) = true.
Proof. split; reflexivity. Qed.

(** C6: a notice whose text gives the price 0 is read without any failure,
    and no period is appended for it. *)
Lemma zero_price_not_appended :
  @check_renewable_energy_pdf unicode14 (web_with_notice (py "単価0円")) 2026
  = Ok (Some 0%Q)
  /\ @get_renewable_energy_levy unicode14 (web_with_notice (py "単価0円")) true
     = Ok levies_hardcoded.
Proof. split; vm_compute; reflexivity. Qed.

(** C8: two rows for month 13 of 2025 give two entries with the same year
    and month, a month outside 1..12. *)
Lemma repeated_month_13 :
  @scrape_tepco_rates unicode14 (price_document repeated_month_table)
  = Ok [ entry_of 2025 13 (float_lit 2.00); entry_of 2025 13 (float_lit 4.00) ]
  /\ (year (entry_of 2025 13 (float_lit 2.00)),
      month (entry_of 2025 13 (float_lit 2.00)))
     = (year (entry_of 2025 13 (float_lit 4.00)),
        month (entry_of 2025 13 (float_lit 4.00)))
  /\ entry_of 2025 13 (float_lit 2.00) <> entry_of 2025 13 (float_lit 4.00)
  /\ 12 < month (entry_of 2025 13 (float_lit 2.00)).
Proof.
  split; [ vm_compute; reflexivity | ].
  split; [ reflexivity | ].
  split; [ intros H; apply (f_equal price_kwh) in H; vm_compute in H; discriminate | ].
  reflexivity.
Qed.

(** C2 on the alternating table: its four entries all have year 2025. *)
Lemma year_carried_forward_alternating :
  @scrape_rows unicode14 alternating_table
  = Ok [ entry_of 2025 1 (float_lit (-6.50)); entry_of 2025 2 (float_lit (-7.01));
         entry_of 2025 3 (float_lit (-7.29)); entry_of 2025 4 (float_lit 5.2) ]
  /\ Forall (fun e => year e = 2025)
       [ entry_of 2025 1 (float_lit (-6.50)); entry_of 2025 2 (float_lit (-7.01));
         entry_of 2025 3 (float_lit (-7.29)); entry_of 2025 4 (float_lit 5.2) ].
Proof.
  assert (Hscrape :
            @scrape_rows unicode14 alternating_table
            = Ok [ entry_of 2025 1 (float_lit (-6.50));
                   entry_of 2025 2 (float_lit (-7.01));
                   entry_of 2025 3 (float_lit (-7.29));
                   entry_of 2025 4 (float_lit 5.2) ])
    by (vm_compute; reflexivity).
  split; [ exact Hscrape | ].
  apply Forall_forall.
  apply (proj2 (@year_carried_forward unicode14 _ _ Hscrape) 2025).
  intros r Hin [Hlen Hh].
  unfold alternating_table in Hin. cbn [In] in Hin.
  destruct Hin as [<- | [<- | [<- | [<- | []]]]];
    try discriminate Hlen;
    (split; [ split; [ reflexivity | vm_compute; reflexivity ]
            | vm_compute; reflexivity ]).
Defined.

(** C8 on the table of the repeated month: months within 1..99, one entry
    from each row. *)
Lemma entries_bounded_repeated_month :
  @scrape_rows unicode14 repeated_month_table
  = Ok [ entry_of 2025 13 (float_lit 2.00); entry_of 2025 13 (float_lit 4.00) ]
  /\ Forall (fun e => 1 <= month e <= 99 /\ 1 <= year e <= 9999)
       [ entry_of 2025 13 (float_lit 2.00); entry_of 2025 13 (float_lit 4.00) ]
  /\ (List.length
        [ entry_of 2025 13 (float_lit 2.00); entry_of 2025 13 (float_lit 4.00) ]
      <= List.length repeated_month_table)%nat.
Proof.
  assert (Hscrape :
            @scrape_rows unicode14 repeated_month_table
            = Ok [ entry_of 2025 13 (float_lit 2.00);
                   entry_of 2025 13 (float_lit 4.00) ])
    by (vm_compute; reflexivity).
  split; [ exact Hscrape | ].
  pose proof (@entries_bounded_one_per_row unicode14 _ _ Hscrape)
    as (Hbounds & _ & Hlen & _).
  split; [ exact Hbounds | exact Hlen ].
Defined.

(** X1 on a marked price: the value is not above zero. *)
Lemma parse_price_sign_marked :
  @parse_price unicode14 (py "▲6.51円") = Ok (float_lit (-6.51))
  /\ (float_lit (-6.51) <= 0)%Q.
Proof.
  assert (H : @parse_price unicode14 (py "▲6.51円") = Ok (float_lit (-6.51)))
    by (vm_compute; reflexivity).
  split; [ exact H | ].
  apply (proj1 (@parse_price_sign unicode14 _ _ H)).
  vm_compute. left. reflexivity.
Defined.

(** X2 on two texts around the same numeral. *)
Lemma parse_price_ignores_the_rest_units :
  @parse_price unicode14 (py "5.2円") = @parse_price unicode14 (py "約 5.2 円/kWh").
Proof.
  apply (@parse_price_ignores_the_rest unicode14).
  - vm_compute. reflexivity.
  - split; intros H; vm_compute in H; exfalso;
      repeat (destruct H as [H | H]; [ discriminate H | ]); exact H.
Defined.

(** X4 on the table with a price of two full stops in its second row. *)
Lemma row_loop_fails_on_bad_price :
  @scrape_rows unicode14 bad_price_table
  = Raise (ValueError "could not convert string to float")
  /\ exists pre cols post,
       bad_price_table = pre ++ cols :: post
       /\ ((year_row cols
            /\ raises (@parse_price unicode14 (cell cols 3)) = true)
           \/ (month_row cols
               /\ raises (@parse_price unicode14 (cell cols 2)) = true)).
Proof.
  assert (H : @scrape_rows unicode14 bad_price_table
              = Raise (ValueError "could not convert string to float"))
    by (vm_compute; reflexivity).
  split; [ exact H | ].
  exact (proj2 (@row_loop_fails_on_prices_only unicode14 _ _ H)).
Defined.

(** X5 on the page that holds only the link. *)
Lemma scrape_error_kinds_link_only :
  @scrape_tepco_rates unicode14 link_only_document = Raise none_find_parent
  /\ (none_find_parent = section_error \/ none_find_parent = table_error
      \/ none_find_parent = none_find_parent \/ none_find_parent = float_error).
Proof.
  assert (H : @scrape_tepco_rates unicode14 link_only_document
              = Raise none_find_parent) by reflexivity.
  split; [ exact H | ].
  exact (@scrape_error_kinds unicode14 _ _ H).
Defined.

(** X6 on the table whose first year cell holds no year: the year 2024
    carried into it is lost, and the rows up to the next year row with
    them, unreadable prices included. *)
Lemma rows_without_year_are_dropped_yearless :
  @rows_loop unicode14 yearless_table (Some 2024) []
  = @rows_loop unicode14 [ [ py "2025年"; py "3月分"; py "5.00"; py "6.00" ] ] None []
  /\ @scrape_rows unicode14 yearless_table
     = Ok [ entry_of 2025 3 (float_lit 6.00) ].
Proof.
  assert (Hb : Forall (fun r : row => ~ year_row r)
                 [ [ py "2月分"; py "3.00"; py "4..00" ] ]).
  { constructor; [ | constructor ]. intros [Hlen _]. discriminate Hlen. }
  split.
  - apply (proj2 (@rows_without_year_are_dropped unicode14
                    [ [ py "2月分"; py "3.00"; py "4..00" ] ]
                    [ [ py "2025年"; py "3月分"; py "5.00"; py "6.00" ] ] Hb)
             [ py "令和7年"; py "1月分"; py "1.00"; py "bad.price.1" ]
             (Some 2024) []).
    + split; [ reflexivity | vm_compute; reflexivity ].
    + vm_compute. reflexivity.
  - vm_compute. reflexivity.
Defined.

(** X7 on the alternating table. *)
Lemma entries_carry_their_date_alternating :
  @scrape_rows unicode14 alternating_table
  = Ok [ entry_of 2025 1 (float_lit (-6.50)); entry_of 2025 2 (float_lit (-7.01));
         entry_of 2025 3 (float_lit (-7.29)); entry_of 2025 4 (float_lit 5.2) ]
  /\ Forall
       (fun e =>
          map (@py_int unicode14) (str_split 45 (date_iso e))
          = [ Ok (year e); Ok (month e); Ok 1 ])
       [ entry_of 2025 1 (float_lit (-6.50)); entry_of 2025 2 (float_lit (-7.01));
         entry_of 2025 3 (float_lit (-7.29)); entry_of 2025 4 (float_lit 5.2) ].
Proof.
  assert (Hscrape :
            @scrape_rows unicode14 alternating_table
            = Ok [ entry_of 2025 1 (float_lit (-6.50));
                   entry_of 2025 2 (float_lit (-7.01));
                   entry_of 2025 3 (float_lit (-7.29));
                   entry_of 2025 4 (float_lit 5.2) ])
    by (vm_compute; reflexivity).
  split; [ exact Hscrape | ].
  apply (Forall_impl _ (P := _)
           (fun e H => proj1 (proj2 (proj2 (proj2 H))))
           (@entries_carry_their_date unicode14 _ _ Hscrape)).
Defined.

(** X12 on the start of the second known period. *)
Lemma year_month_has_one_hyphen_may_2025 :
  @parse_year_month unicode14 (py "2025-05") = Ok (2025, 5)
  /\ count_occ Z.eq_dec (py "2025-05") 45 = 1%nat.
Proof.
  assert (H : @parse_year_month unicode14 (py "2025-05") = Ok (2025, 5))
    by (vm_compute; reflexivity).
  split; [ exact H | ].
  exact (proj1 (@year_month_has_one_hyphen unicode14 _ _ _ H)).
Defined.

(** X10 on a list with two entries for February 2025: the first is
    reported. *)
Lemma first_matching_entry_wins_february :
  @get_current_rates unicode14
    {| date_year := 2025; date_month := 2; date_day := 14 |}
    ([ entry_of 2025 1 (float_lit (-6.50)) ]
     ++ entry_of 2025 2 (float_lit (-7.01))
     :: [ entry_of 2025 2 (float_lit 1.00) ])
    levies_hardcoded
  = Ok {| rates_year := 2025;
          rates_month := 2;
          rates_date_iso := py "2025-02-14";
          fuel_adjustment := Some (float_lit (-7.01));
          renewable_energy_levy := Some (float_lit 3.49) |}
  /\ Some (float_lit (-7.01))
     = Some (price_kwh (entry_of 2025 2 (float_lit (-7.01)))).
Proof.
  assert (H : @get_current_rates unicode14
                {| date_year := 2025; date_month := 2; date_day := 14 |}
                ([ entry_of 2025 1 (float_lit (-6.50)) ]
                 ++ entry_of 2025 2 (float_lit (-7.01))
                 :: [ entry_of 2025 2 (float_lit 1.00) ])
                levies_hardcoded
              = Ok {| rates_year := 2025;
                      rates_month := 2;
                      rates_date_iso := py "2025-02-14";
                      fuel_adjustment := Some (float_lit (-7.01));
                      renewable_energy_levy := Some (float_lit 3.49) |})
    by (vm_compute; reflexivity).
  split; [ exact H | ].
  apply (@first_matching_entry_wins unicode14 _ _ _ _ _ _) with (4 := H).
  - intros q [<- | []] [_ Hm]. discriminate Hm.
  - reflexivity.
  - reflexivity.
Defined.

(** X11 on the periods with a slash: in June 2025 the first period does not
    apply and the second cannot be read. *)
Lemma unreadable_period_slashed :
  @get_current_rates unicode14
    {| date_year := 2025; date_month := 6; date_day := 1 |} [] slashed_levies
  = Raise (ValueError "invalid literal for int() with base 10").
Proof.
  apply (@unreadable_period_is_fatal_when_reached unicode14
           {| date_year := 2025; date_month := 6; date_day := 1 |} []
           [ {| start := py "2024-05"; end_ := py "2025-04";
                price := float_lit 3.49 |} ]
           {| start := py "2025/05"; end_ := py "2026-05";
              price := float_lit 3.98 |} []).
  - constructor; [ | constructor ].
    exists 2024, 5, 2025, 4. split; vm_compute; reflexivity.
  - intros q [<- | []] (sy & sm & ey & em & Hs & He & Hr).
    vm_compute in Hs. vm_compute in He.
    injection Hs as <- <-. injection He as <- <-.
    cbn in Hr. lia.
  - left. vm_compute. reflexivity.
Defined.

(** X8 on a web whose notices give 4.12. *)
Lemma resolver_periods_with_notices :
  @get_renewable_energy_levy unicode14 (web_with_notice (py "単価4.12円")) true
  = Ok (levies_hardcoded
        ++ [ new_period 2026 (float_lit 4.12); new_period 2027 (float_lit 4.12) ])
  /\ Forall (fun p => (0 < price p)%Q /\ @may_to_later unicode14 p)
       (levies_hardcoded
        ++ [ new_period 2026 (float_lit 4.12); new_period 2027 (float_lit 4.12) ])
  /\ NoDup
       (map start
          (levies_hardcoded
           ++ [ new_period 2026 (float_lit 4.12);
                new_period 2027 (float_lit 4.12) ])).
Proof.
  assert (H : @get_renewable_energy_levy unicode14
                (web_with_notice (py "単価4.12円")) true
              = Ok (levies_hardcoded
                    ++ [ new_period 2026 (float_lit 4.12);
                         new_period 2027 (float_lit 4.12) ]))
    by (vm_compute; reflexivity).
  split; [ exact H | ].
  exact (proj2 (proj2 (@resolver_periods_are_sound unicode14 _ _ _ H))).
Defined.

(** X9 on the same web, in November 2026: the levy is the one of the 2026
    notice. *)
Lemma levy_by_date_november_2026 :
  exists r,
    @get_current_rates unicode14
      {| date_year := 2026; date_month := 11; date_day := 4 |} []
      (levies_hardcoded
       ++ [ new_period 2026 (float_lit 4.12); new_period 2027 (float_lit 4.12) ])
    = Ok r
    /\ renewable_energy_levy r = Some (float_lit 4.12).
Proof.
  assert (H : @get_renewable_energy_levy unicode14
                (web_with_notice (py "単価4.12円")) true
              = Ok (levies_hardcoded
                    ++ [ new_period 2026 (float_lit 4.12);
                         new_period 2027 (float_lit 4.12) ]))
    by (vm_compute; reflexivity).
  destruct (@levy_by_date unicode14 _ _ _
              {| date_year := 2026; date_month := 11; date_day := 4 |} [] H)
    as (r & Hr & _ & _ & _ & Hx).
  exists r. split; [ exact Hr | ].
  apply Hx.
  - reflexivity.
  - vm_compute. reflexivity.
  - cbn. lia.
Defined.

(** X14 on a notice that gives 4.12. *)
Lemma notice_price_of_a_notice :
  @check_renewable_energy_pdf unicode14 (web_with_notice (py "単価4.12円")) 2026
  = Ok (Some (float_lit 4.12))
  /\ exists response pages text,
       requests_get (web_with_notice (py "単価4.12円")) (pdf_url 2026) = Ok response
       /\ status_code response = 200
       /\ pdf_pages (web_with_notice (py "単価4.12円")) (content response)
          = Ok pages
       /\ extract_pages [] pages = Ok text
       /\ (exists pre kw post,
              filter (fun c => negb (c =? 10)) (@nfkc unicode14 text)
              = pre ++ kw ++ post
              /\ (kw = py "単価" \/ kw = py "賦課金")
              /\ In 20870 post)
       /\ (0 <= float_lit 4.12)%Q.
Proof.
  assert (H : @check_renewable_energy_pdf unicode14
                (web_with_notice (py "単価4.12円")) 2026
              = Ok (Some (float_lit 4.12)))
    by (vm_compute; reflexivity).
  split; [ exact H | ].
  exact (@notice_price_needs_keyword_and_yen unicode14 _ _ _ H).
Defined.

(** X17 on a page that holds a table and no section. *)
Lemma missing_section_with_table :
  @scrape_tepco_rates unicode14
    (Tag (py "[document]") None [] [ table_of [ [ py "1月分" ] ] ])
  = Raise section_error.
Proof.
  apply (@missing_section_ends_the_run unicode14 writable_file).
  - intros d Hin. vm_compute in Hin.
    repeat (destruct Hin as [<- | Hin]; [ reflexivity | ]). destruct Hin.
  - intros a Hin. vm_compute in Hin.
    repeat (destruct Hin as [<- | Hin]; [ discriminate | ]). destruct Hin.
Defined.

(** X13 on an output file that cannot be opened: the page is scraped and the
    report put together, and the run still ends with status 1. *)
Lemma main_read_only_file :
  @scrape_tepco_rates unicode14 (price_document alternating_table)
  = Ok [ entry_of 2025 1 (float_lit (-6.50)); entry_of 2025 2 (float_lit (-7.01));
         entry_of 2025 3 (float_lit (-7.29)); entry_of 2025 4 (float_lit 5.2) ]
  /\ @main unicode14 read_only_file (web_with_notice (py "単価4.12円"))
       {| date_year := 2025; date_month := 2; date_day := 14 |}
       (price_document alternating_table) false
     = Exit1 (OtherException "PermissionError").
Proof.
  assert (Hscrape :
            @scrape_tepco_rates unicode14 (price_document alternating_table)
            = Ok [ entry_of 2025 1 (float_lit (-6.50));
                   entry_of 2025 2 (float_lit (-7.01));
                   entry_of 2025 3 (float_lit (-7.29));
                   entry_of 2025 4 (float_lit 5.2) ])
    by (vm_compute; reflexivity).
  split; [ exact Hscrape | ].
  pose proof (@main_fails_with_the_scrape_or_the_write unicode14 read_only_file
                (web_with_notice (py "単価4.12円"))
                {| date_year := 2025; date_month := 2; date_day := 14 |}
                (price_document alternating_table) false)
    as (Hreport & Hexit & _).
  destruct (Hreport _ Hscrape) as (data & Hc & _).
  apply Hexit. right. exists data. split; [ exact Hc | reflexivity ].
Defined.
